(** * novaguestclient.cli.utils: argument and payload helpers

    A shallow embedding of [novaguestclient/cli/utils.py] and the properties
    its specification states about it.

    Conventions of the embedding.
    - A Python [str] is a Rocq [string] whose characters are the code points
      U+0000..U+00FF; [len], [split], [strip], [replace] and [lower] are the
      Python methods on that range.
    - A function that can raise returns a [result]: [Ok v] or [Raise e].
    - Values that travel through argparse namespaces, JSON documents and API
      fields are [pyval]s.  Python floats are left out of [pyval]: number
      values are Python ints.
    - A [dict] keeps insertion order, as Python's does.
    - [json.loads], [json.dumps] and [constants.OS_LIST] are parameters of the
      functions that use them; [Json.loads] and [Json.dumps] are instances
      used to run the functions on concrete inputs.
    - The parser the two registration functions act on is an
      [argparse.ArgumentParser] seen through its options; [Argparse] follows
      [add_argument] and, on command lines of options written out in full
      with one value each, [parse_args]. *)

From Stdlib Require Import String Ascii List ZArith Lia Bool Arith DecimalString.
Import ListNotations.
Local Open Scope list_scope.
Local Open Scope string_scope.

(** ** Exceptions and results *)

Inductive exn : Type :=
| ValueError (msg : string)
| TypeError (msg : string)
| KeyError (key : string)
| AttributeError (name : string)
| ArgumentError (type_name : string) (value : string)
| NotImplementedError (what : string).

Inductive result (A : Type) : Type :=
| Ok (a : A)
| Raise (e : exn).

Arguments Ok {A} a.
Arguments Raise {A} e.

Definition bind {A B : Type} (c : result A) (k : A -> result B) : result B :=
  match c with
  | Ok a => k a
  | Raise e => Raise e
  end.

Notation "x <- c ;; k" := (bind c (fun x => k))
  (at level 61, c at next level, right associativity).

(** [is_ValueError e]: the test of an [except ValueError] clause. *)
Definition is_ValueError (e : exn) : bool :=
  match e with
  | ValueError _ => true
  | _ => false
  end.

(** ** Python string methods *)

Module Str.

Definition mem (c : ascii) (cs : string) : bool :=
  existsb (Ascii.eqb c) (list_ascii_of_string cs).

(** [s.split(sep)] for a one-character separator. *)
Fixpoint split (sep : ascii) (s : string) : list string :=
  match s with
  | EmptyString => [EmptyString]
  | String c s' =>
      if Ascii.eqb c sep then EmptyString :: split sep s'
      else match split sep s' with
           | h :: t => String c h :: t
           | [] => [String c EmptyString]
           end
  end.

(** [s.split(sep, 1)]: at most one split, at the first separator. *)
Fixpoint split1 (sep : ascii) (s : string) : list string :=
  match s with
  | EmptyString => [EmptyString]
  | String c s' =>
      if Ascii.eqb c sep then [EmptyString; s']
      else match split1 sep s' with
           | h :: t => String c h :: t
           | [] => [String c EmptyString]
           end
  end.

Fixpoint lstrip (cs : string) (s : string) : string :=
  match s with
  | EmptyString => EmptyString
  | String c s' => if mem c cs then lstrip cs s' else s
  end.

Fixpoint rstrip (cs : string) (s : string) : string :=
  match s with
  | EmptyString => EmptyString
  | String c s' =>
      match rstrip cs s' with
      | EmptyString => if mem c cs then EmptyString else String c EmptyString
      | r => String c r
      end
  end.

(** [s.strip(cs)]: drops leading and trailing characters that occur in [cs]. *)
Definition strip (cs : string) (s : string) : string :=
  rstrip cs (lstrip cs s).

(** [replace_from skip old new s]: the scan of [s.replace(old, new)], left to
    right over non-overlapping occurrences; [skip] counts the characters of
    an occurrence already replaced that are still to be passed over. *)
Fixpoint replace_from (skip : nat) (old new : string) (s : string) : string :=
  match s with
  | EmptyString => EmptyString
  | String c s' =>
      match skip with
      | S k => replace_from k old new s'
      | O =>
          if String.prefix old s
          then new ++ replace_from (Nat.pred (String.length old)) old new s'
          else String c (replace_from O old new s')
      end
  end.

(** [s.replace(old, new)] for a non-empty [old]. *)
Definition replace (old new : string) (s : string) : string :=
  replace_from O old new s.

Definition lower_char (c : ascii) : ascii :=
  let n := nat_of_ascii c in
  if (((65 <=? n) && (n <=? 90))
      || ((192 <=? n) && (n <=? 222) && negb (n =? 215)))%nat
  then ascii_of_nat (n + 32)
  else c.

(** [s.lower()]. *)
Fixpoint lower (s : string) : string :=
  match s with
  | EmptyString => EmptyString
  | String c s' => String (lower_char c) (lower s')
  end.

(** [sep.join(parts)]. *)
Fixpoint join (sep : string) (parts : list string) : string :=
  match parts with
  | [] => EmptyString
  | [p] => p
  | p :: rest => p ++ sep ++ join sep rest
  end.

(** The value of a base-16 digit. *)
Definition hex_digit (c : ascii) : option Z :=
  let n := nat_of_ascii c in
  if ((48 <=? n) && (n <=? 57))%nat then Some (Z.of_nat (n - 48))
  else if ((97 <=? n) && (n <=? 102))%nat then Some (Z.of_nat (n - 87))
  else if ((65 <=? n) && (n <=? 70))%nat then Some (Z.of_nat (n - 55))
  else None.

(** [s[n:]]. *)
Fixpoint drop (n : nat) (s : string) : string :=
  match n, s with
  | S n', String _ s' => drop n' s'
  | _, _ => s
  end.

(** [str(n)] for an int. *)
Definition of_Z (n : Z) : string := NilZero.string_of_int (Z.to_int n).

Definition of_nat (n : nat) : string := NilZero.string_of_uint (Nat.to_uint n).

(** [s.count(c)] for a character. *)
Fixpoint count (c : ascii) (s : string) : nat :=
  match s with
  | EmptyString => 0
  | String x s' => (if Ascii.eqb x c then 1 else 0) + count c s'
  end.

(** Whether every character of [s] passes the test. *)
Fixpoint all (p : ascii -> bool) (s : string) : bool :=
  match s with
  | EmptyString => true
  | String x s' => p x && all p s'
  end.

(** The first and the last character. *)
Definition first (s : string) : option ascii :=
  match s with
  | EmptyString => None
  | String x _ => Some x
  end.

Fixpoint last (s : string) : option ascii :=
  match s with
  | EmptyString => None
  | String x EmptyString => Some x
  | String _ s' => last s'
  end.

(** Whether the character, if there is one, is outside [cs]. *)
Definition outside (cs : string) (c : option ascii) : bool :=
  match c with
  | None => true
  | Some x => negb (mem x cs)
  end.

(** [s.replace(c, '')] for a character, and [s[:n]]. *)
Fixpoint remove (c : ascii) (s : string) : string :=
  match s with
  | EmptyString => EmptyString
  | String x s' => if Ascii.eqb x c then remove c s' else String x (remove c s')
  end.

Fixpoint take (n : nat) (s : string) : string :=
  match n, s with
  | S n', String x s' => String x (take n' s')
  | _, _ => EmptyString
  end.

(** The lower-case digit of a value below 16. *)
Definition hex_char (d : Z) : ascii :=
  if (d <? 10)%Z then ascii_of_nat (48 + Z.to_nat d)
  else ascii_of_nat (87 + Z.to_nat d).

(** ['%0*x' % (width, n)] for [0 <= n < 16 ^ width]: the [width] base-16
    digits of [n]. *)
Fixpoint hex_of (width : nat) (n : Z) : string :=
  match width with
  | O => EmptyString
  | S w => hex_of w (n / 16) ++ String (hex_char (n mod 16)) EmptyString
  end.

(** [x in xs] for a list of strings. *)
Definition in_list (x : string) (xs : list string) : bool :=
  existsb (String.eqb x) xs.

End Str.

(** ** Values *)

(** Data values: what a JSON document decodes to and what argparse stores. *)
#[warnings="-register-all"] Inductive pyval : Type :=
| PNone
| PBool (b : bool)
| PInt (n : Z)
| PStr (s : string)
| PList (items : list pyval)
| PDict (entries : list (string * pyval)).

(** What an attribute of an object can hold: a data value, an open text
    file (what [argparse.FileType('r')] hands back) with the text still to
    be read, or an API resource object, which is not a [dict] and carries
    the result of its [to_dict()] when it has that method. *)
Inductive pyobj : Type :=
| Val (v : pyval)
| File (text : string)
| Obj (to_dict : option pyval).

(** [bool(x)]: the truth value Python's [if x] and [not x] test. *)
Class Truthy (A : Type) : Type := truthy : A -> bool.

(** [str(x)]. *)
Class Stringable (A : Type) : Type := py_str : A -> string.

#[export] Instance Truthy_pyval : Truthy pyval :=
  fun v =>
    match v with
    | PNone => false
    | PBool b => b
    | PInt n => negb (Z.eqb n 0)
    | PStr s => negb (String.eqb s "")
    | PList items => match items with [] => false | _ :: _ => true end
    | PDict entries => match entries with [] => false | _ :: _ => true end
    end.

#[export] Instance Truthy_pyobj : Truthy pyobj :=
  fun o =>
    match o with
    | Val v => truthy v
    | File _ => true
    | Obj _ => true
    end.

#[export] Instance Stringable_string : Stringable string := fun s => s.

(** ** Insertion-ordered dictionaries *)

Module Dict.

(** Keys: [eqb] is Python's [==] between hashable values. *)
Class Key (K : Type) : Type := {
  eqb : K -> K -> bool;
  eqb_refl : forall k, eqb k k = true;
  eqb_sym : forall k k', eqb k k' = eqb k' k;
  eqb_trans : forall k k' k'', eqb k k' = true -> eqb k' k'' = true -> eqb k k'' = true
}.

Definition t (K V : Type) : Type := list (K * V).

Definition empty {K V : Type} : t K V := [].

(** [d.get(k)]; [None] when the key is not there. *)
Fixpoint get {K V : Type} `{Key K} (k : K) (d : t K V) : option V :=
  match d with
  | [] => None
  | (k', v) :: rest => if eqb k' k then Some v else get k rest
  end.

(** [d[k] = v]: an existing key keeps its place (and its key object) and
    takes the new value; a new key goes last. *)
Fixpoint set {K V : Type} `{Key K} (k : K) (v : V) (d : t K V) : t K V :=
  match d with
  | [] => [(k, v)]
  | (k', v') :: rest =>
      if eqb k' k then (k', v) :: rest else (k', v') :: set k v rest
  end.

Definition contains {K V : Type} `{Key K} (k : K) (d : t K V) : bool :=
  match get k d with
  | Some _ => true
  | None => false
  end.

Definition keys {K V : Type} (d : t K V) : list K := map fst d.

(** [d.items()], in iteration order. *)
Definition items {K V : Type} (d : t K V) : list (K * V) := d.

(** [dict(pairs)]: the pairs inserted one after the other. *)
Definition of_pairs {K V : Type} `{Key K} (pairs : list (K * V)) : t K V :=
  fold_left (fun d kv => set (fst kv) (snd kv) d) pairs empty.

(** The pair that decides a lookup when pairs are inserted in order: the
    last one whose key equals the key looked up. *)
Fixpoint last_assoc {K V : Type} `{Key K} (k : K) (pairs : list (K * V)) : option V :=
  match pairs with
  | [] => None
  | (k', v) :: rest =>
      match last_assoc k rest with
      | Some v' => Some v'
      | None => if eqb k' k then Some v else None
      end
  end.

(** No two keys of the dictionary are equal. *)
Fixpoint wf {K V : Type} `{Key K} (d : t K V) : bool :=
  match d with
  | [] => true
  | (k, _) :: rest => negb (contains k rest) && wf rest
  end.

End Dict.

#[export] Program Instance Key_string : Dict.Key string :=
  {| Dict.eqb := String.eqb |}.
Next Obligation. apply String.eqb_refl. Qed.
Next Obligation. apply String.eqb_sym. Qed.
Next Obligation.
  apply String.eqb_eq in H, H0. subst. apply String.eqb_refl.
Qed.

(** Hashable values, the keys a [dict] built at run time can have. *)
Inductive pykey : Type :=
| KNone
| KBool (b : bool)
| KInt (n : Z)
| KStr (s : string).

Definition pykey_num (k : pykey) : option Z :=
  match k with
  | KBool b => Some (if b then 1%Z else 0%Z)
  | KInt n => Some n
  | _ => None
  end.

(** [==] on hashable values: [True == 1] and [False == 0]. *)
Definition pykey_eqb (a b : pykey) : bool :=
  match a, b with
  | KNone, KNone => true
  | KStr s, KStr s' => String.eqb s s'
  | _, _ =>
      match pykey_num a, pykey_num b with
      | Some x, Some y => Z.eqb x y
      | _, _ => false
      end
  end.

Definition pykey_val (k : pykey) : pyval :=
  match k with
  | KNone => PNone
  | KBool b => PBool b
  | KInt n => PInt n
  | KStr s => PStr s
  end.

(** [hash(v)] succeeds on scalars and raises on lists and dicts. *)
Definition hashable (v : pyval) : result pykey :=
  match v with
  | PNone => Ok KNone
  | PBool b => Ok (KBool b)
  | PInt n => Ok (KInt n)
  | PStr s => Ok (KStr s)
  | PList _ => Raise (TypeError "unhashable type: 'list'")
  | PDict _ => Raise (TypeError "unhashable type: 'dict'")
  end.

#[export] Program Instance Key_pykey : Dict.Key pykey :=
  {| Dict.eqb := pykey_eqb |}.
Next Obligation.
  destruct k as [| [] | n | s]; simpl; auto using Z.eqb_refl, String.eqb_refl.
Qed.
Next Obligation.
  destruct k as [| [] | n | s], k' as [| [] | n' | s']; simpl;
    auto using Z.eqb_sym, String.eqb_sym.
Qed.
Next Obligation.
  destruct k as [| [] | n | s], k' as [| [] | n' | s'], k'' as [| [] | n'' | s''];
    simpl in *; try congruence;
    repeat match goal with
           | E : Z.eqb _ _ = true |- _ => apply Z.eqb_eq in E
           | E : String.eqb _ _ = true |- _ => apply String.eqb_eq in E
           end; subst;
    auto using Z.eqb_refl, String.eqb_refl; try lia.
Qed.

(** ** [uuid.UUID], as far as [validate_uuid_string] uses it *)

Module Uuid.

(** The characters [int] passes over around a literal: ASCII white space,
    and U+0085 and U+00A0, which it first turns into a space. *)
Definition is_space (c : ascii) : bool :=
  let n := nat_of_ascii c in
  (((9 <=? n) && (n <=? 13)) || (n =? 32) || (n =? 133) || (n =? 160))%nat.

Fixpoint skip_space (s : string) : string :=
  match s with
  | EmptyString => EmptyString
  | String c s' => if is_space c then skip_space s' else s
  end.

(** An optional sign: whether it is a minus, and what follows. *)
Definition skip_sign (s : string) : bool * string :=
  match s with
  | String "+" s' => (false, s')
  | String "-" s' => (true, s')
  | _ => (false, s)
  end.

(** An optional [0x] or [0X], and one underscore after it. *)
Definition skip_prefix (s : string) : string :=
  match s with
  | String "0" (String x s') =>
      if (Ascii.eqb x "x" || Ascii.eqb x "X")%bool
      then match s' with
           | String "_" s'' => s''
           | _ => s'
           end
      else s
  | _ => s
  end.

(** The run of digits, single underscores allowed between them: the value
    read so far, whether the last character was an underscore, and on
    success the value and what follows the run. *)
Fixpoint digits (acc : Z) (after_underscore : bool) (s : string)
  : option (Z * string) :=
  match s with
  | EmptyString => if after_underscore then None else Some (acc, EmptyString)
  | String c s' =>
      match Str.hex_digit c with
      | Some d => digits (16 * acc + d) false s'
      | None =>
          if after_underscore then None
          else if Ascii.eqb c "_" then digits acc true s'
          else Some (acc, s)
      end
  end.

(** [int(s, 16)]; [None] where Python raises [ValueError]. *)
Definition int16 (s : string) : option Z :=
  let (negative, s) := skip_sign (skip_space s) in
  let s := skip_prefix s in
  match s with
  | EmptyString => None
  | String c _ =>
      match Str.hex_digit c with
      | None => None
      | Some _ =>
          match digits 0 false s with
          | Some (n, rest) =>
              match skip_space rest with
              | EmptyString => Some (if negative then (- n)%Z else n)
              | String _ _ => None
              end
          | None => None
          end
      end
  end.

Definition max_version : Z := 5.

(** [uuid.UUID(hex, version=version)]: the 128-bit integer of the UUID built. *)
Definition UUID (hex : string) (version : option Z) : result Z :=
  let hex := Str.replace "uuid:" "" (Str.replace "urn:" "" hex) in
  let hex := Str.replace "-" "" (Str.strip "{}" hex) in
  if negb (String.length hex =? 32)%nat
  then Raise (ValueError "badly formed hexadecimal UUID string")
  else
    match int16 hex with
    | None => Raise (ValueError "invalid literal for int() with base 16")
    | Some int =>
        if negb ((0 <=? int) && (int <? Z.shiftl 1 128))%Z
        then Raise (ValueError "int is out of range (need a 128-bit value)")
        else
          match version with
          | None => Ok int
          | Some version =>
              if negb ((1 <=? version) && (version <=? max_version))%Z
              then Raise (ValueError "illegal version number")
              else
                (* Set the variant to RFC 4122. *)
                let int := Z.land int (Z.lnot (Z.shiftl 0xc000 48)) in
                let int := Z.lor int (Z.shiftl 0x8000 48) in
                (* Set the version number. *)
                let int := Z.land int (Z.lnot (Z.shiftl 0xf000 64)) in
                let int := Z.lor int (Z.shiftl version 76) in
                Ok int
          end
    end.

(** [uuid.uuid4()], from the 128-bit number [os.urandom(16)] gives: the
    same two fields set, the version to 4. *)
Definition uuid4 (random : Z) : Z :=
  let int := Z.land random (Z.lnot (Z.shiftl 0xc000 48)) in
  let int := Z.lor int (Z.shiftl 0x8000 48) in
  let int := Z.land int (Z.lnot (Z.shiftl 0xf000 64)) in
  Z.lor int (Z.shiftl 4 76).

(** [str(u)] for the UUID of integer [int]: its 32 digits in groups of
    8, 4, 4, 4 and 12. *)
Definition str (int : Z) : string :=
  let hex := Str.hex_of 32 int in
  Str.take 8 hex ++ "-" ++ Str.take 4 (Str.drop 8 hex) ++ "-"
  ++ Str.take 4 (Str.drop 12 hex) ++ "-" ++ Str.take 4 (Str.drop 16 hex)
  ++ "-" ++ Str.drop 20 hex.

Definition is_hex (c : ascii) : bool :=
  match Str.hex_digit c with
  | Some _ => true
  | None => false
  end.

(** [n] base-16 digits at the start of [s]: what follows them. *)
Fixpoint hex_run (n : nat) (s : string) : option string :=
  match n with
  | O => Some s
  | S n' =>
      match s with
      | String c s' => if is_hex c then hex_run n' s' else None
      | EmptyString => None
      end
  end.

(** Whether [s] is groups of base-16 digits of the given sizes, with a
    hyphen between two groups. *)
Fixpoint hex_groups (groups : list nat) (s : string) : bool :=
  match groups with
  | [] => false
  | n :: rest =>
      match hex_run n s with
      | None => false
      | Some r =>
          match rest with
          | [] => match r with EmptyString => true | String _ _ => false end
          | _ :: _ =>
              match r with
              | String c r' => Ascii.eqb c "-" && hex_groups rest r'
              | EmptyString => false
              end
          end
      end
  end.

(** The textual form of a UUID, of whatever version and variant, in
    either case of the letters: 8-4-4-4-12 base-16 digits. *)
Definition canonical (s : string) : bool := hex_groups [8; 4; 4; 4; 12]%nat s.

(** The all-zero UUID. *)
Definition nil : string := "00000000-0000-0000-0000-000000000000".

(** The [version] and [variant] fields of a UUID integer. *)
Definition version_of (int : Z) : Z := Z.land (Z.shiftr int 76) 0xf.

Definition variant_bits (int : Z) : Z := Z.land (Z.shiftr int 62) 0x3.

End Uuid.

(** The characters of a UUID text: base-16 digits and hyphens. *)
Definition hex_or_hyphen (c : ascii) : bool := Uuid.is_hex c || Ascii.eqb c "-".

(** ** [json.loads] and [json.dumps] on [pyval] *)

Module Json.

(** What a scan of a prefix of the document yields: the value read, whether
    it is exactly Python's (a float, or a character above U+00FF, has no
    counterpart in [pyval] and is read as a placeholder), the rest of the
    document and the index where it starts; or the error and its index. *)
Inductive outcome (A : Type) : Type :=
| Done (a : A) (exact : bool) (rest : string) (pos : nat)
| Fail (msg : string) (pos : nat).

Arguments Done {A} a exact rest pos.
Arguments Fail {A} msg pos.

Definition is_ws (c : ascii) : bool :=
  let n := nat_of_ascii c in
  ((n =? 32) || (n =? 9) || (n =? 10) || (n =? 13))%nat.

Fixpoint skip_ws (s : string) (pos : nat) : string * nat :=
  match s with
  | EmptyString => (EmptyString, pos)
  | String c s' => if is_ws c then skip_ws s' (S pos) else (s, pos)
  end.

Definition is_digit (c : ascii) : bool :=
  let n := nat_of_ascii c in
  ((48 <=? n) && (n <=? 57))%nat.

(** The character a one-letter escape stands for. *)
Definition unescape (e : ascii) : option ascii :=
  match nat_of_ascii e with
  | 34 => Some e
  | 92 => Some e
  | 47 => Some e
  | 98 => Some (ascii_of_nat 8)
  | 102 => Some (ascii_of_nat 12)
  | 110 => Some (ascii_of_nat 10)
  | 114 => Some (ascii_of_nat 13)
  | 116 => Some (ascii_of_nat 9)
  | _ => None
  end.

Definition hex4 (a b c d : ascii) : option Z :=
  match Str.hex_digit a, Str.hex_digit b, Str.hex_digit c, Str.hex_digit d with
  | Some x, Some y, Some z, Some w => Some (((x * 16 + y) * 16 + z) * 16 + w)%Z
  | _, _, _, _ => None
  end.

Definition push (c : ascii) (exact : bool) (o : outcome string) : outcome string :=
  match o with
  | Done str exact' rest pos => Done (String c str) (exact && exact') rest pos
  | Fail msg pos => Fail msg pos
  end.

(** The body of a string, from just after its opening quote at [begin]. *)
Fixpoint scanstring (s : string) (pos begin : nat) : outcome string :=
  match s with
  | EmptyString => Fail "Unterminated string starting at" begin
  | String c s' =>
      match nat_of_ascii c with
      | 34 => Done EmptyString true s' (S pos)
      | 92 =>
          match s' with
          | EmptyString => Fail "Unterminated string starting at" begin
          | String e s'' =>
              if Ascii.eqb e "u" then
                match s'' with
                | String a (String b (String c' (String d s3))) =>
                    match hex4 a b c' d with
                    | Some n =>
                        if (n <? 256)%Z
                        then push (ascii_of_nat (Z.to_nat n)) true
                                  (scanstring s3 (pos + 6) begin)
                        else push "?" false (scanstring s3 (pos + 6) begin)
                    | None => Fail "Invalid \uXXXX escape" (S pos)
                    end
                | _ => Fail "Invalid \uXXXX escape" (S pos)
                end
              else
                match unescape e with
                | Some ch => push ch true (scanstring s'' (pos + 2) begin)
                | None => Fail "Invalid \escape" pos
                end
          end
      | n =>
          if (n <? 32)%nat then Fail "Invalid control character at" pos
          else push c true (scanstring s' (S pos) begin)
      end
  end.

Fixpoint take_digits (s : string) : string * string :=
  match s with
  | EmptyString => (EmptyString, EmptyString)
  | String c s' =>
      if is_digit c
      then let (ds, rest) := take_digits s' in (String c ds, rest)
      else (EmptyString, s)
  end.

Definition digits_value (ds : string) : Z :=
  fold_left (fun acc c => (10 * acc + Z.of_nat (nat_of_ascii c - 48))%Z)
            (list_ascii_of_string ds) 0%Z.

(** The integer part of a number: [0], or a run of digits not starting
    with [0]. *)
Definition int_part (s : string) : option (string * string) :=
  match s with
  | String "0" s' => Some ("0", s')
  | String c _ => if is_digit c then Some (take_digits s) else None
  | EmptyString => None
  end.

(** An optional fraction [.digits] and exponent [e[+-]digits]: how many
    characters they take. *)
Definition frac_part (s : string) : nat :=
  match s with
  | String "." s' =>
      match take_digits s' with
      | (EmptyString, _) => 0
      | (ds, _) => S (String.length ds)
      end
  | _ => 0
  end.

Definition exp_part (s : string) : nat :=
  match s with
  | String e s' =>
      if (Ascii.eqb e "e" || Ascii.eqb e "E")%bool then
        let (sign, s'') :=
          match s' with
          | String "+" r => (1, r)
          | String "-" r => (1, r)
          | _ => (0, s')
          end in
        match take_digits s'' with
        | (EmptyString, _) => 0
        | (ds, _) => S (sign + String.length ds)
        end
      else 0
  | EmptyString => 0
  end.

(** A number at the head of [s]. *)
Definition number (s : string) (pos : nat) : option (outcome pyval) :=
  let (negative, body) :=
    match s with
    | String "-" s' => (true, s')
    | _ => (false, s)
    end in
  match int_part body with
  | None => None
  | Some (ds, rest) =>
      let pos := pos + (if negative then 1 else 0) + String.length ds in
      let f := frac_part rest in
      let e := exp_part (Str.drop f rest) in
      if (f + e =? 0)%nat
      then Some (Done (PInt (if negative then - digits_value ds else digits_value ds)%Z)
                      true rest pos)
      else Some (Done (PInt 0) false (Str.drop (f + e) rest) (pos + f + e))
  end.

(** A constant at the head of [s]. *)
Definition constant (s : string) (pos : nat) : option (outcome pyval) :=
  let lit (word : string) (v : pyval) (exact : bool) :=
    Some (Done v exact (Str.drop (String.length word) s) (pos + String.length word)) in
  if String.prefix "null" s then lit "null" PNone true
  else if String.prefix "true" s then lit "true" (PBool true) true
  else if String.prefix "false" s then lit "false" (PBool false) true
  else if String.prefix "NaN" s then lit "NaN" (PInt 0) false
  else if String.prefix "Infinity" s then lit "Infinity" (PInt 0) false
  else if String.prefix "-Infinity" s then lit "-Infinity" (PInt 0) false
  else None.

(** The scanner: a value, the members of an object after its brace, the
    elements of an array after its bracket. *)
Fixpoint value (fuel : nat) (s : string) (pos : nat) : outcome pyval :=
  match fuel with
  | O => Fail "Expecting value" pos
  | S fuel =>
      match s with
      | EmptyString => Fail "Expecting value" pos
      | String c s' =>
          match nat_of_ascii c with
          | 34 =>
              match scanstring s' (S pos) pos with
              | Done str exact rest pos' => Done (PStr str) exact rest pos'
              | Fail msg pos' => Fail msg pos'
              end
          | 123 =>
              match skip_ws s' (S pos) with
              | (String "}" rest, pos') => Done (PDict []) true rest (S pos')
              | (rest, pos') => members fuel rest pos' Dict.empty true
              end
          | 91 =>
              match skip_ws s' (S pos) with
              | (String "]" rest, pos') => Done (PList []) true rest (S pos')
              | (rest, pos') => elements fuel rest pos' [] true
              end
          | _ =>
              match number s pos with
              | Some o => o
              | None =>
                  match constant s pos with
                  | Some o => o
                  | None => Fail "Expecting value" pos
                  end
              end
          end
      end
  end

with members (fuel : nat) (s : string) (pos : nat)
             (acc : Dict.t string pyval) (exact : bool) : outcome pyval :=
  match fuel with
  | O => Fail "Expecting value" pos
  | S fuel =>
      match s with
      | String (Ascii false true false false false true false false) s' =>
          match scanstring s' (S pos) pos with
          | Fail msg pos' => Fail msg pos'
          | Done key exact_key rest pos' =>
              match skip_ws rest pos' with
              | (String ":" rest, pos') =>
                  let (rest, pos') := skip_ws rest (S pos') in
                  match value fuel rest pos' with
                  | Fail msg pos' => Fail msg pos'
                  | Done v exact_v rest pos' =>
                      let acc := Dict.set key v acc in
                      let exact := (exact && exact_key && exact_v)%bool in
                      match skip_ws rest pos' with
                      | (String "}" rest, pos') => Done (PDict acc) exact rest (S pos')
                      | (String "," rest, pos') =>
                          let (rest, pos') := skip_ws rest (S pos') in
                          members fuel rest pos' acc exact
                      | (_, pos') => Fail "Expecting ',' delimiter" pos'
                      end
                  end
              | (_, pos') => Fail "Expecting ':' delimiter" pos'
              end
          end
      | _ => Fail "Expecting property name enclosed in double quotes" pos
      end
  end

with elements (fuel : nat) (s : string) (pos : nat)
              (acc : list pyval) (exact : bool) : outcome pyval :=
  match fuel with
  | O => Fail "Expecting value" pos
  | S fuel =>
      match value fuel s pos with
      | Fail msg pos' => Fail msg pos'
      | Done v exact_v rest pos' =>
          let acc := (acc ++ [v])%list in
          let exact := (exact && exact_v)%bool in
          match skip_ws rest pos' with
          | (String "]" rest, pos') => Done (PList acc) exact rest (S pos')
          | (String "," rest, pos') =>
              let (rest, pos') := skip_ws rest (S pos') in
              elements fuel rest pos' acc exact
          | (_, pos') => Fail "Expecting ',' delimiter" pos'
          end
      end
  end.

(** The line and column of index [pos] in [doc], both counted from 1. *)
Fixpoint line_col (doc : string) (pos : nat) (line col : nat) : nat * nat :=
  match pos, doc with
  | S pos', String c doc' =>
      if (nat_of_ascii c =? 10)%nat then line_col doc' pos' (S line) 1
      else line_col doc' pos' line (S col)
  | _, _ => (line, col)
  end.

(** [str(ex)] of a [json.JSONDecodeError]. *)
Definition errmsg (doc : string) (msg : string) (pos : nat) : string :=
  let (line, col) := line_col doc pos 1 1 in
  msg ++ ": line " ++ Str.of_nat line ++ " column " ++ Str.of_nat col
      ++ " (char " ++ Str.of_nat pos ++ ")".

(** [json.loads(s)].  A document that decodes to something [pyval] has no
    counterpart for ends in [NotImplementedError]. *)
Definition loads (s : string) : result pyval :=
  let (body, pos) := skip_ws s 0 in
  match value (2 * String.length s + 2) body pos with
  | Fail msg pos => Raise (ValueError (errmsg s msg pos))
  | Done v exact rest pos =>
      match skip_ws rest pos with
      | (EmptyString, _) =>
          if exact then Ok v
          else Raise (NotImplementedError "a value outside the data model")
      | (String _ _, pos) => Raise (ValueError (errmsg s "Extra data" pos))
      end
  end.

Definition hex_char (n : nat) : ascii :=
  if (n <? 10)%nat then ascii_of_nat (48 + n) else ascii_of_nat (87 + n).

(** One character of a string, as [ensure_ascii] writes it. *)
Definition escape_char (c : ascii) : string :=
  match nat_of_ascii c with
  | 34 => "\" ++ String c EmptyString
  | 92 => "\\"
  | 8 => "\b"
  | 12 => "\f"
  | 10 => "\n"
  | 13 => "\r"
  | 9 => "\t"
  | n =>
      if ((32 <=? n) && (n <=? 126))%nat then String c EmptyString
      else "\u00" ++ String (hex_char (n / 16)) (String (hex_char (n mod 16)) EmptyString)
  end.

Definition quote : string := String (ascii_of_nat 34) EmptyString.

Fixpoint escape (s : string) : string :=
  match s with
  | EmptyString => EmptyString
  | String c s' => escape_char c ++ escape s'
  end.

Definition encode_str (s : string) : string := quote ++ escape s ++ quote.

Fixpoint spaces (n : nat) : string :=
  match n with
  | O => EmptyString
  | S n' => String " " (spaces n')
  end.

(** The line break and indentation before an item at nesting [level]; empty
    when no [indent] was given. *)
Definition newline_indent (indent : option nat) (level : nat) : string :=
  match indent with
  | None => EmptyString
  | Some n => String (ascii_of_nat 10) (spaces (n * level))
  end.

Definition item_separator (indent : option nat) : string :=
  match indent with
  | None => ", "
  | Some _ => ","
  end.

(** The encoder at nesting [level]. *)
Fixpoint encode (indent : option nat) (level : nat) (v : pyval) : string :=
  match v with
  | PNone => "null"
  | PBool true => "true"
  | PBool false => "false"
  | PInt n => Str.of_Z n
  | PStr s => encode_str s
  | PList [] => "[]"
  | PList items =>
      "[" ++ newline_indent indent (S level)
          ++ Str.join (item_separator indent ++ newline_indent indent (S level))
                      (map (encode indent (S level)) items)
          ++ newline_indent indent level ++ "]"
  | PDict [] => "{}"
  | PDict entries =>
      "{" ++ newline_indent indent (S level)
          ++ Str.join (item_separator indent ++ newline_indent indent (S level))
                      (map (fun kv => encode_str (fst kv) ++ ": "
                                        ++ encode indent (S level) (snd kv))
                           entries)
          ++ newline_indent indent level ++ "}"
  end.

(** [json.dumps(v, indent=indent)]. *)
Definition dumps (v : pyval) (indent : option nat) : string := encode indent 0 v.

End Json.

(** ** Objects and attributes *)

(** An object seen through its attributes: an [argparse.Namespace], or an
    API resource. *)
Definition Namespace (A : Type) : Type := Dict.t string A.

(** [getattr(obj, name)]. *)
Definition getattr {A : Type} (obj : Namespace A) (name : string) : result A :=
  match Dict.get name obj with
  | Some v => Ok v
  | None => Raise (AttributeError name)
  end.

(** [getattr(obj, name, default)]. *)
Definition getattr_default {A : Type} (obj : Namespace A) (name : string)
           (default : A) : A :=
  match Dict.get name obj with
  | Some v => v
  | None => default
  end.

(** [for x in v]: the items the loop runs over. *)
Definition py_iter (v : pyval) : result (list pyval) :=
  match v with
  | PList items => Ok items
  | PStr s => Ok (map (fun c => PStr (String c EmptyString)) (list_ascii_of_string s))
  | PDict entries => Ok (map (fun kv => PStr (fst kv)) entries)
  | PNone => Raise (TypeError "'NoneType' object is not iterable")
  | PBool _ => Raise (TypeError "'bool' object is not iterable")
  | PInt _ => Raise (TypeError "'int' object is not iterable")
  end.

(** [v[key]] for a string [key]. *)
Definition getitem (v : pyval) (key : string) : result pyval :=
  match v with
  | PDict entries =>
      match Dict.get key entries with
      | Some x => Ok x
      | None => Raise (KeyError key)
      end
  | PStr _ => Raise (TypeError "string indices must be integers")
  | PList _ => Raise (TypeError "list indices must be integers or slices, not str")
  | _ => Raise (TypeError "object is not subscriptable")
  end.

(** [v.get(key, default)]. *)
Definition get_method (v : pyval) (key : string) (default : pyval) : result pyval :=
  match v with
  | PDict entries =>
      Ok (match Dict.get key entries with
          | Some x => x
          | None => default
          end)
  | _ => Raise (AttributeError "get")
  end.

(** [argparse]'s conversion of one argument string through the [type=]
    function of its option: a [ValueError] or [TypeError] of the function
    becomes the parser's [ArgumentError], which [parse_args] reports as a
    usage error. *)
Definition argparse_get_value {A : Type} (type_name : string)
           (type_func : string -> result A) (arg_string : string) : result A :=
  match type_func arg_string with
  | Ok v => Ok v
  | Raise (ValueError _) => Raise (ArgumentError type_name arg_string)
  | Raise (TypeError _) => Raise (ArgumentError type_name arg_string)
  | Raise e => Raise e
  end.

(** * novaguestclient/cli/utils.py *)

(** The characters [strip] takes off in the two converters: the single and
    the double quote. *)
Definition quote_chars : string := String "'" (String (ascii_of_nat 34) EmptyString).

(** The unpacking [a, b = parts]. *)
Definition unpack2 {A : Type} (parts : list A) : result (A * A) :=
  match parts with
  | [a; b] => Ok (a, b)
  | [] => Raise (ValueError "not enough values to unpack (expected 2, got 0)")
  | [_] => Raise (ValueError "not enough values to unpack (expected 2, got 1)")
  | _ => Raise (ValueError "too many values to unpack (expected 2)")
  end.

Definition _split_disk_arg (arg : string) : result pyval :=
  p <- unpack2 (Str.split "=" arg) ;;
  let (disk_id, dest) := p in
  Ok (PDict [("disk_id", PStr (Str.strip quote_chars disk_id));
             ("destination", PStr (Str.strip quote_chars dest))]).

Definition _split_backend_arg (arg : string) : result pyval :=
  p <- unpack2 (Str.split "=" arg) ;;
  let (src, dest) := p in
  Ok (PDict [("source", PStr (Str.strip quote_chars src));
             ("destination", PStr (Str.strip quote_chars dest))]).

(** What the parser does with one value of [--disk-storage-mapping] and of
    [--storage-backend-mapping], as [add_storage_mappings_arguments_to_parser]
    registers them. *)
Definition disk_storage_mapping_value : string -> result pyval :=
  argparse_get_value "_split_disk_arg" _split_disk_arg.

Definition storage_backend_mapping_value : string -> result pyval :=
  argparse_get_value "_split_backend_arg" _split_backend_arg.

Definition get_storage_mappings_dict_from_args {A : Type} `{Truthy A}
           (args : Namespace A) : result (Dict.t string A) :=
  let storage_mappings := Dict.empty in
  default_storage_backend <- getattr args "default_storage_backend" ;;
  let storage_mappings :=
    if truthy default_storage_backend
    then Dict.set "default" default_storage_backend storage_mappings
    else storage_mappings in
  disk_storage_mappings <- getattr args "disk_storage_mappings" ;;
  let storage_mappings :=
    if truthy disk_storage_mappings
    then Dict.set "disk_mappings" disk_storage_mappings storage_mappings
    else storage_mappings in
  storage_backend_mappings <- getattr args "storage_backend_mappings" ;;
  let storage_mappings :=
    if truthy storage_backend_mappings
    then Dict.set "backend_mappings" storage_backend_mappings storage_mappings
    else storage_mappings in
  Ok storage_mappings.

Definition format_mapping {K V : Type} `{Stringable K} `{Stringable V}
           (mapping : Dict.t K V) : string :=
  Str.join ", "
    (map (fun kv => "'" ++ py_str (fst kv) ++ "'='" ++ py_str (snd kv) ++ "'")
         (Dict.items mapping)).

(** The comprehension [{mapping[key]: mapping[value] for mapping in mappings}],
    with the dictionary built so far. *)
Fixpoint dict_comprehension (key value : string) (mappings : list pyval)
         (acc : Dict.t pykey pyval) : result (Dict.t pykey pyval) :=
  match mappings with
  | [] => Ok acc
  | mapping :: rest =>
      k <- getitem mapping key ;;
      v <- getitem mapping value ;;
      k <- hashable k ;;
      dict_comprehension key value rest (Dict.set k v acc)
  end.

Definition parse_storage_mappings (storage_mappings : pyval)
  : result (pyval * Dict.t pykey pyval * Dict.t pykey pyval) :=
  match storage_mappings with
  | PNone => Ok (PNone, Dict.empty, Dict.empty)
  | _ =>
      backend <- get_method storage_mappings "backend_mappings" (PList []) ;;
      backend <- py_iter backend ;;
      backend_mappings <- dict_comprehension "source" "destination" backend Dict.empty ;;
      disk <- get_method storage_mappings "disk_mappings" (PList []) ;;
      disk <- py_iter disk ;;
      disk_mappings <- dict_comprehension "disk_id" "destination" disk Dict.empty ;;
      default <- get_method storage_mappings "default" PNone ;;
      Ok (default, backend_mappings, disk_mappings)
  end.

Definition validate_uuid_string {A : Type} `{Stringable A}
           (uuid_obj : A) (uuid_version : Z) : result bool :=
  let uuid_string := Str.lower (py_str uuid_obj) in
  match Uuid.UUID uuid_string (Some uuid_version) with
  | Ok _ => Ok true
  | Raise e =>
      (* If it's a value error, then the string is not a valid hex code
         for a UUID. *)
      if is_ValueError e then Ok false else Raise e
  end.

(** The default of [uuid_version]. *)
Definition default_uuid_version : Z := 4.

(** The file system, as far as [compose_user_scripts] looks at it: the text
    of each path that names a regular file. *)
Definition filesystem : Type := string -> option string.

Record user_scripts : Type := {
  global : Dict.t string string;
  instances : Dict.t string string
}.

(** A file system with one script, for running the functions. *)
Definition example_fs : filesystem :=
  fun path => if String.eqb path "/tmp/exists.sh" then Some "#!/bin/sh" else None.

Section Library.

(** [json.loads]; a [ValueError] it raises carries [str(ex)]. *)
Variable json_loads : string -> result pyval.

(** [json.dumps(v, indent=indent)]. *)
Variable json_dumps : pyval -> option nat -> string.

(** [constants.OS_LIST]. *)
Variable OS_LIST : list string.

Definition json_dumps_obj (prop : pyobj) (indent : option nat) : result string :=
  match prop with
  | Val v => Ok (json_dumps v indent)
  | File _ => Raise (TypeError "Object of type TextIOWrapper is not JSON serializable")
  | Obj _ => Raise (TypeError "Object is not JSON serializable")
  end.

(** [isinstance(prop, dict)], [hasattr(prop, 'to_dict')] and [prop.to_dict()]. *)
Definition isinstance_dict (prop : pyobj) : bool :=
  match prop with
  | Val (PDict _) => true
  | _ => false
  end.

Definition hasattr_to_dict (prop : pyobj) : bool :=
  match prop with
  | Obj (Some _) => true
  | _ => false
  end.

Definition to_dict (prop : pyobj) : result pyobj :=
  match prop with
  | Obj (Some d) => Ok (Val d)
  | _ => Raise (AttributeError "to_dict")
  end.

Definition format_json_for_object_property (obj : Namespace pyobj)
           (prop_name : string) : result string :=
  let prop := getattr_default obj prop_name (Val PNone) in
  match prop with
  | Val PNone =>
      (* return an empty JSON object string to clearly-indicate it's a JSON *)
      Ok "{}"
  | _ =>
      prop <- (if negb (isinstance_dict prop) && hasattr_to_dict prop
               then to_dict prop
               else Ok prop) ;;
      json_dumps_obj prop (Some 2)
  end.

(** [with file_arg as fin: fin.read()]. *)
Definition read_file (file_arg : pyobj) : result pyobj :=
  match file_arg with
  | File text => Ok (Val (PStr text))
  | _ => Raise (TypeError "object does not support the context manager protocol")
  end.

(** [json.loads(raw_value)]. *)
Definition json_loads_obj (raw_value : pyobj) : result pyval :=
  match raw_value with
  | Val (PStr s) => json_loads s
  | _ => Raise (TypeError "the JSON object must be str, bytes or bytearray")
  end.

Definition get_option_value_from_args (args : Namespace pyobj)
           (option_name : string) (error_on_no_value : bool) : result pyval :=
  let value := PNone in
  let raw_value := Val PNone in
  let option_name := Str.replace "-" "_" option_name in
  let option_label_name := Str.replace "_" " " option_name in
  let option_file_name := option_name ++ "_file" in
  let option_arg_name := "--" ++ Str.replace "_" "-" option_name in
  raw_arg <- getattr args option_name ;;
  file_arg <- getattr args option_file_name ;;
  raw_value <-
    (if truthy raw_arg then Ok raw_arg
     else if truthy file_arg then read_file file_arg
     else Ok raw_value) ;;
  value <-
    (if negb (truthy value) && truthy raw_value
     then match json_loads_obj raw_value with
          | Ok v => Ok v
          | Raise (ValueError ex) =>
              Raise (ValueError ("Error while parsing " ++ option_label_name
                                   ++ " JSON: " ++ ex))
          | Raise e => Raise e
          end
     else Ok value) ;;
  if negb (truthy value) && error_on_no_value
  then Raise (ValueError ("No '" ++ option_arg_name
                            ++ "[-file]' parameter was provided."))
  else Ok value.

(** The first loop of [compose_user_scripts], over the global scripts still
    to be read, with [ret["global"]] as built so far. *)
Fixpoint compose_global (fs : filesystem) (global_scripts : list string)
         (ret : Dict.t string string) : result (Dict.t string string) :=
  match global_scripts with
  | [] => Ok ret
  | glb :: rest =>
      match Str.split1 "=" glb with
      | [os; path] =>
          if negb (Str.in_list os OS_LIST)
          then Raise (ValueError ("Invalid OS " ++ os ++ ". Available options are: "
                                    ++ Str.join ", " OS_LIST))
          else
            match fs path with
            | None => Raise (ValueError ("Could not find " ++ path))
            | Some text => compose_global fs rest (Dict.set os text ret)
            end
      | _ => compose_global fs rest ret
      end
  end.

(** The second loop, with [ret["instances"]] as built so far. *)
Fixpoint compose_instances (fs : filesystem) (instance_scripts : list string)
         (ret : Dict.t string string) : result (Dict.t string string) :=
  match instance_scripts with
  | [] => Ok ret
  | inst :: rest =>
      match Str.split1 "=" inst with
      | [instance; path] =>
          match fs path with
          | None => Raise (ValueError ("Could not find " ++ path))
          | Some text => compose_instances fs rest (Dict.set instance text ret)
          end
      | _ => compose_instances fs rest ret
      end
  end.

(** [x or []]. *)
Definition or_empty {A : Type} (x : option (list A)) : list A :=
  match x with
  | Some l => l
  | None => []
  end.

Definition compose_user_scripts (fs : filesystem)
           (global_scripts instance_scripts : option (list string))
  : result user_scripts :=
  let global_scripts := or_empty global_scripts in
  let instance_scripts := or_empty instance_scripts in
  g <- compose_global fs global_scripts Dict.empty ;;
  i <- compose_instances fs instance_scripts Dict.empty ;;
  Ok {| global := g; instances := i |}.

End Library.

(** ** [argparse], as far as the two registration functions use it

    A parser made by [argparse.ArgumentParser(add_help=False)] and by calls
    of [add_argument] with one option string, the action [store] or
    [append], one value an occurrence ([nargs=None]), no default, and
    [conflict_handler='error'].  [parse_args] is followed on command lines
    in which every string that starts with [-] is an option string of the
    parser as registered: abbreviated options, [--option=value], [--],
    values that start with [-] and positional arguments are left out, and
    reported as [Unsupported]. *)

Module Argparse.

(** The [type=] of an option: none, a function of the program, or
    [argparse.FileType('r')]. *)
Inductive arg_type : Type :=
| TypeStr
| TypeFunc (name : string) (func : string -> result pyval)
| TypeFileR.

Inductive action_class : Type :=
| Store
| Append.

Record action : Type := {
  option_string : string;
  dest : string;
  kind : action_class;
  type_func : arg_type;
  help : string;
  (* the mutually exclusive group the option was added to *)
  group : option nat
}.

(** [parser._actions], in the order of registration, and the number of
    mutually exclusive groups made so far. *)
Record parser : Type := {
  actions : list action;
  groups : nat
}.

(** How a call can end other than by returning: [ArgumentError] from
    [add_argument]; [ValueError] from [add_argument]; the usage errors of
    [parse_args], which print the message and exit with status 2; an
    exception of a [type=] function that argparse lets through; and what
    lies outside the part of argparse followed here. *)
Inductive error : Type :=
| Conflicting (option_string : string)
| DestRequired (option_string : string)
| InvalidValue (option_string type_name value : string)
| CannotOpen (option_string path : string)
| NotAllowedWith (option_string other : string)
| ExpectedOneArgument (option_string : string)
| Raised (e : exn)
| Unsupported (what : string).

Inductive outcome (A : Type) : Type :=
| Done (a : A)
| Failed (e : error).

Arguments Done {A} a.
Arguments Failed {A} e.

Definition and_then {A B : Type} (c : outcome A) (k : A -> outcome B) : outcome B :=
  match c with
  | Done a => k a
  | Failed e => Failed e
  end.

Notation "x <~ c ;; k" := (and_then c (fun x => k))
  (at level 61, c at next level, right associativity).

(** [ArgumentParser(add_help=False)]. *)
Definition empty : parser := {| actions := []; groups := 0 |}.

Definition starts_with_dash (s : string) : bool :=
  match s with
  | String "-" _ => true
  | _ => false
  end.

(** [parser._option_string_actions.get(option_string)]. *)
Definition lookup (p : parser) (flag : string) : option action :=
  find (fun a => String.eqb (option_string a) flag) (actions p).

(** [container.add_argument(flag, dest=dest, action=cls, type=ty, help=help)],
    on the parser itself ([grp] is [None]) or on a mutually exclusive
    group of it.  Without [dest=], the attribute is named after the option
    string: its leading hyphens taken off, the others turned into
    underscores. *)
Definition add_argument (p : parser) (grp : option nat) (flag : string)
           (dest : option string) (cls : action_class) (ty : arg_type)
           (help : string) : outcome parser :=
  if negb (starts_with_dash flag)
  then Failed (Unsupported "positional argument")
  else
    d <~ match dest with
         | Some d => Done d
         | None =>
             let d := Str.lstrip "-" flag in
             if String.eqb d "" then Failed (DestRequired flag)
             else Done (Str.replace "-" "_" d)
         end ;;
    match lookup p flag with
    | Some _ => Failed (Conflicting flag)
    | None =>
        Done {| actions := (actions p ++ [{| option_string := flag;
                                             dest := d;
                                             kind := cls;
                                             type_func := ty;
                                             help := help;
                                             group := grp |}])%list;
                groups := groups p |}
    end.

(** [parser.add_mutually_exclusive_group()]: the parser and the new group. *)
Definition add_mutually_exclusive_group (p : parser) : parser * nat :=
  ({| actions := actions p; groups := S (groups p) |}, groups p).

(** The namespace [parse_args] starts from: every [dest] at its default,
    [None]. *)
Definition defaults (p : parser) : Namespace pyobj :=
  fold_left (fun ns a =>
               if Dict.contains (dest a) ns then ns
               else Dict.set (dest a) (Val PNone) ns)
            (actions p) Dict.empty.

(** [parser._get_values(action, [arg_string])]. *)
Definition get_value (fs : filesystem) (a : action) (arg_string : string)
  : outcome pyobj :=
  match type_func a with
  | TypeStr => Done (Val (PStr arg_string))
  | TypeFunc name func =>
      match argparse_get_value name func arg_string with
      | Ok v => Done (Val v)
      | Raise (ArgumentError type_name value) =>
          Failed (InvalidValue (option_string a) type_name value)
      | Raise e => Failed (Raised e)
      end
  | TypeFileR =>
      if String.eqb arg_string "-" then Failed (Unsupported "standard input")
      else match fs arg_string with
           | Some text => Done (File text)
           | None => Failed (CannotOpen (option_string a) arg_string)
           end
  end.

(** The options that may not be given together with [a]: the others of
    its group, in the order of registration. *)
Definition conflicts (p : parser) (a : action) : list action :=
  match group a with
  | None => []
  | Some g =>
      filter (fun b =>
                match group b with
                | Some g' => Nat.eqb g' g && negb (String.eqb (option_string b) (option_string a))
                | None => false
                end)
             (actions p)
  end.

(** [_copy_items(items)] of the [append] action. *)
Definition copy_items (items : pyobj) : outcome (list pyval) :=
  match items with
  | Val PNone => Done []
  | Val (PList l) => Done l
  | _ => Failed (Unsupported "append to a value that is not a list")
  end.

(** [take_action(action, [arg_string], option_string)], on the namespace
    and the option strings seen so far. *)
Definition take_action (fs : filesystem) (p : parser)
           (st : Namespace pyobj * list string) (a : action) (arg_string : string)
  : outcome (Namespace pyobj * list string) :=
  let (namespace, seen) := st in
  values <~ get_value fs a arg_string ;;
  match find (fun b => Str.in_list (option_string b) seen) (conflicts p a) with
  | Some b => Failed (NotAllowedWith (option_string a) (option_string b))
  | None =>
      namespace <~
        match kind a with
        | Store => Done (Dict.set (dest a) values namespace)
        | Append =>
            items <~ copy_items (getattr_default namespace (dest a) (Val PNone)) ;;
            match values with
            | Val v => Done (Dict.set (dest a) (Val (PList (items ++ [v])%list)) namespace)
            | _ => Failed (Unsupported "a list that holds a file")
            end
        end ;;
      Done (namespace, option_string a :: seen)
  end.

(** The optionals consumed from left to right, each with the string that
    follows it. *)
Fixpoint consume (fs : filesystem) (p : parser) (arg_strings : list string)
         (st : Namespace pyobj * list string) : outcome (Namespace pyobj) :=
  match arg_strings with
  | [] => Done (fst st)
  | arg_string :: rest =>
      if negb (starts_with_dash arg_string)
      then Failed (Unsupported "positional argument")
      else
        match lookup p arg_string with
        | None => Failed (Unsupported "option string not registered as given")
        | Some a =>
            match rest with
            | [] => Failed (ExpectedOneArgument (option_string a))
            | value :: rest' =>
                if starts_with_dash value
                then Failed (ExpectedOneArgument (option_string a))
                else
                  st <~ take_action fs p st a value ;;
                  consume fs p rest' st
            end
        end
  end.

(** Whether [_parse_optional] is followed on the string: it is an argument,
    or an option string as registered; [--] ends the options. *)
Definition recognised (p : parser) (arg_string : string) : bool :=
  negb (starts_with_dash arg_string)
  || (negb (String.eqb arg_string "--")
      && match lookup p arg_string with
         | Some _ => true
         | None => false
         end).

(** [parser.parse_args(args)]. *)
Definition parse_args (fs : filesystem) (p : parser) (args : list string)
  : outcome (Namespace pyobj) :=
  if forallb (recognised p) args
  then consume fs p args (defaults p, [])
  else Failed (Unsupported "option string not registered as given").

End Argparse.

(** ** The functions that register the options *)

Import Argparse.

(** The double quote of the help texts. *)
Definition dquote : string := String (ascii_of_nat 34) EmptyString.

Definition add_storage_mappings_arguments_to_parser (parser : Argparse.parser)
  : outcome Argparse.parser :=
  parser <~ add_argument parser None
    "--default-storage-backend"
    (Some "default_storage_backend") Store TypeStr
    ("Name of a storage backend on the destination platform to "
       ++ "default to using.") ;;
  (* argparse will just call whatever 'type=' was supplied on a value, so we
     can pass in a single-arg function to have it modify the value *)
  parser <~ add_argument parser None
    "--disk-storage-mapping"
    (Some "disk_storage_mappings") Append (TypeFunc "_split_disk_arg" _split_disk_arg)
    ("Mappings between IDs of the source VM's disks and the names of "
       ++ "storage backends on the destination platform as seen by running "
       ++ "`coriolis endpoint storage list $DEST_ENDPOINT_ID`. "
       ++ "Values should be fomatted with '=' (ex: " ++ dquote ++ "id#1=lvm)" ++ dquote ++ "."
       ++ "Can be specified multiple times for multiple disks.") ;;
  add_argument parser None
    "--storage-backend-mapping"
    (Some "storage_backend_mappings") Append
    (TypeFunc "_split_backend_arg" _split_backend_arg)
    ("Mappings between names of source and destination storage "
       ++ "backends  as seen by running `coriolis endpoint storage "
       ++ "list $DEST_ENDPOINT_ID`. Values should be fomatted with '=' "
       ++ "(ex: " ++ dquote ++ "id#1=lvm)" ++ dquote ++ ". Can be specified multiple times for "
       ++ "multiple backends.").

Definition add_args_for_json_option_to_parser (parser : Argparse.parser)
           (option_name : string) : outcome Argparse.parser :=
  let option_name := Str.replace "_" "-" option_name in
  let option_label_name := Str.replace "-" " " option_name in
  let (parser, arg_group) := add_mutually_exclusive_group parser in
  parser <~ add_argument parser (Some arg_group)
    ("--" ++ option_name) None Store TypeStr
    ("JSON encoded " ++ option_label_name ++ " data") ;;
  add_argument parser (Some arg_group)
    ("--" ++ option_name ++ "-file") None Store TypeFileR
    ("Relative/full path to a file containing the "
       ++ option_label_name ++ " data in JSON format").

(** ** Command lines, for the statements about parsing *)

(** A parser whose options belong to groups it has made. *)
Definition parser_wf (p : Argparse.parser) : bool :=
  forallb (fun a => match group a with
                    | Some g => Nat.ltb g (groups p)
                    | None => true
                    end)
          (actions p).

(** The command line of options given with one value each. *)
Definition option_args (given : list (string * string)) : list string :=
  flat_map (fun fv => [fst fv; snd fv]) given.

(** The values given to one option, in order. *)
Definition values_of (flag : string) (given : list (string * string)) : list string :=
  map snd (filter (fun fv => String.eqb (fst fv) flag) given).

(** What an [append] option leaves in the namespace: [None] when it was
    not given, the list of its values otherwise. *)
Definition list_or_none (items : list pyval) : pyobj :=
  match items with
  | [] => Val PNone
  | _ :: _ => Val (PList items)
  end.

(** What a [store] option leaves: [None] when it was not given, its last
    value otherwise. *)
Definition last_or_none (values : list string) : pyobj :=
  fold_left (fun _ v => Val (PStr v)) values (Val PNone).

(** A namespace that holds the three attributes of the storage options. *)
Definition storage_attributes (ns : Namespace pyobj) (d : pyobj)
           (disks backends : list pyval) : Prop :=
  Dict.get "default_storage_backend" ns = Some d
  /\ Dict.get "disk_storage_mappings" ns = Some (list_or_none disks)
  /\ Dict.get "storage_backend_mappings" ns = Some (list_or_none backends).

(** Options among the three storage options, each with a value that does
    not start with a hyphen. *)
Definition storage_options_given (given : list (string * string)) : Prop :=
  Forall (fun fv =>
            In (fst fv) ["--default-storage-backend"; "--disk-storage-mapping";
                         "--storage-backend-mapping"]
            /\ starts_with_dash (snd fv) = false) given.

(** * Properties *)

(** ** Results *)

Lemma bind_Ok {A B : Type} (a : A) (k : A -> result B) : bind (Ok a) k = k a.
Proof. reflexivity. Qed.

Lemma bind_Raise {A B : Type} (e : exn) (k : A -> result B) :
  bind (Raise e) k = Raise e.
Proof. reflexivity. Qed.

Lemma bind_inv_Ok {A B : Type} (c : result A) (k : A -> result B) (b : B) :
  bind c k = Ok b -> exists a, c = Ok a /\ k a = Ok b.
Proof. destruct c as [a | e]; simpl; [eauto | discriminate]. Qed.

(** ** Dictionaries *)

Section DictFacts.

Context {K V : Type} `{Dict.Key K}.

Lemma eqb_trans_false (k k' k'' : K) :
  Dict.eqb k k' = true -> Dict.eqb k k'' = false -> Dict.eqb k' k'' = false.
Proof.
  intros E N. destruct (Dict.eqb k' k'') eqn:E'; [| reflexivity].
  rewrite (Dict.eqb_trans _ _ _ E E') in N. discriminate.
Qed.

Lemma get_set_same (k k' : K) (v : V) (d : Dict.t K V) :
  Dict.eqb k k' = true -> Dict.get k' (Dict.set k v d) = Some v.
Proof.
  intros E. induction d as [| [k0 v0] d IH]; simpl.
  - now rewrite E.
  - destruct (Dict.eqb k0 k) eqn:E0; simpl.
    + now rewrite (Dict.eqb_trans _ _ _ E0 E).
    + destruct (Dict.eqb k0 k') eqn:E1; [| exact IH].
      rewrite Dict.eqb_sym in E.
      rewrite (Dict.eqb_trans _ _ _ E1 E) in E0. discriminate.
Qed.

Lemma get_set_other (k k' : K) (v : V) (d : Dict.t K V) :
  Dict.eqb k k' = false -> Dict.get k' (Dict.set k v d) = Dict.get k' d.
Proof.
  intros N. induction d as [| [k0 v0] d IH]; simpl.
  - now rewrite N.
  - destruct (Dict.eqb k0 k) eqn:E0; simpl.
    + destruct (Dict.eqb k0 k') eqn:E1; [| reflexivity].
      rewrite Dict.eqb_sym in E0.
      rewrite (Dict.eqb_trans _ _ _ E0 E1) in N. discriminate.
    + destruct (Dict.eqb k0 k'); [reflexivity | exact IH].
Qed.

(** The key looked up, in a dictionary updated at some key. *)
Lemma get_set (k k' : K) (v : V) (d : Dict.t K V) :
  Dict.get k' (Dict.set k v d)
  = if Dict.eqb k k' then Some v else Dict.get k' d.
Proof.
  destruct (Dict.eqb k k') eqn:E;
    [now apply get_set_same | now apply get_set_other].
Qed.

Lemma contains_set (k k' : K) (v : V) (d : Dict.t K V) :
  Dict.contains k' (Dict.set k v d) = (Dict.eqb k k' || Dict.contains k' d)%bool.
Proof.
  unfold Dict.contains. rewrite get_set. now destruct (Dict.eqb k k').
Qed.

(** Updating keeps the keys pairwise different. *)
Lemma wf_set (k : K) (v : V) (d : Dict.t K V) :
  Dict.wf d = true -> Dict.wf (Dict.set k v d) = true.
Proof.
  induction d as [| [k0 v0] d IH]; simpl; intros W; [reflexivity |].
  apply andb_true_iff in W as [W1 W2].
  destruct (Dict.eqb k0 k) eqn:E0; simpl.
  - now rewrite W1, W2.
  - rewrite contains_set, (IH W2).
    rewrite Dict.eqb_sym in E0. rewrite E0. simpl. now rewrite W1.
Qed.

Lemma get_fold_set (k : K) (pairs : list (K * V)) (d : Dict.t K V) :
  Dict.get k (fold_left (fun d kv => Dict.set (fst kv) (snd kv) d) pairs d)
  = match Dict.last_assoc k pairs with
    | Some v => Some v
    | None => Dict.get k d
    end.
Proof.
  revert d. induction pairs as [| [k0 v0] pairs IH]; intros d; simpl;
    [reflexivity |].
  rewrite IH. destruct (Dict.last_assoc k pairs); [reflexivity |].
  simpl. rewrite get_set. now destruct (Dict.eqb k0 k).
Qed.

(** Last write wins. *)
Lemma get_of_pairs (k : K) (pairs : list (K * V)) :
  Dict.get k (Dict.of_pairs pairs) = Dict.last_assoc k pairs.
Proof.
  unfold Dict.of_pairs. rewrite get_fold_set.
  now destruct (Dict.last_assoc k pairs).
Qed.

Lemma wf_fold_set (pairs : list (K * V)) (d : Dict.t K V) :
  Dict.wf d = true ->
  Dict.wf (fold_left (fun d kv => Dict.set (fst kv) (snd kv) d) pairs d) = true.
Proof.
  revert d. induction pairs as [| kv pairs IH]; intros d W; simpl;
    [exact W | apply IH, wf_set, W].
Qed.

Lemma wf_of_pairs (pairs : list (K * V)) : Dict.wf (Dict.of_pairs pairs) = true.
Proof. apply wf_fold_set. reflexivity. Qed.

Lemma last_assoc_Some (k : K) (v : V) (pairs : list (K * V)) :
  Dict.last_assoc k pairs = Some v ->
  exists k', In (k', v) pairs /\ Dict.eqb k' k = true.
Proof.
  induction pairs as [| [k0 v0] pairs IH]; simpl; [discriminate |].
  destruct (Dict.last_assoc k pairs) as [v' |].
  - intros E. destruct (IH E) as [k' [I E']]. eauto.
  - destruct (Dict.eqb k0 k) eqn:E0; [| discriminate].
    intros E. inversion E; subst. eauto.
Qed.

Lemma last_assoc_None (k : K) (pairs : list (K * V)) :
  Dict.last_assoc k pairs = None ->
  forall k' v, In (k', v) pairs -> Dict.eqb k' k = false.
Proof.
  induction pairs as [| [k0 v0] pairs IH]; simpl; [contradiction |].
  destruct (Dict.last_assoc k pairs) as [v' |]; [discriminate |].
  destruct (Dict.eqb k0 k) eqn:E0; [discriminate |].
  intros _ k' v [E | I]; [inversion E; subst; exact E0 | eauto].
Qed.

(** An association is found again when no pair of an equal key gives that
    key another value. *)
Lemma last_assoc_unique (k : K) (v : V) (pairs : list (K * V)) :
  In (k, v) pairs ->
  (forall k' v', In (k', v') pairs -> Dict.eqb k' k = true -> v' = v) ->
  Dict.last_assoc k pairs = Some v.
Proof.
  intros I U. destruct (Dict.last_assoc k pairs) as [v' |] eqn:E.
  - destruct (last_assoc_Some _ _ _ E) as [k' [I' E']].
    now rewrite (U _ _ I' E').
  - pose proof (last_assoc_None _ _ E _ _ I) as N.
    rewrite Dict.eqb_refl in N. discriminate.
Qed.

End DictFacts.

Lemma get_cons_string {V : Type} (k k' : string) (v : V) (d : Dict.t string V) :
  Dict.get k ((k', v) :: d) = if String.eqb k' k then Some v else Dict.get k d.
Proof. reflexivity. Qed.

(** ** [format_mapping] *)

(** C9.  For every string-keyed, string-valued mapping, [format_mapping]
    gives the ['key'='value'] tokens of its items, in iteration order,
    joined by a comma and a space: nothing for the empty mapping, the token
    alone for one item, and the first token, [", "] and the rest otherwise;
    [{"a": "1", "b": "2"}] gives ['a'='1', 'b'='2']. *)
Theorem format_mapping_tokens :
  format_mapping (Dict.empty : Dict.t string string) = ""
  /\ (forall k v : string,
         format_mapping [(k, v)] = "'" ++ k ++ "'='" ++ v ++ "'")
  /\ (forall (k v : string) (kv : string * string) (rest : Dict.t string string),
         format_mapping ((k, v) :: kv :: rest)
         = ("'" ++ k ++ "'='" ++ v ++ "'") ++ ", " ++ format_mapping (kv :: rest))
  /\ format_mapping (Dict.of_pairs [("a", "1"); ("b", "2")]) = "'a'='1', 'b'='2'".
Proof.
  repeat split; reflexivity.
Qed.

(** ** [get_storage_mappings_dict_from_args] *)

Lemma get_storage_mappings_dict_lookup {A : Type} `{Truthy A}
      (args : Namespace A) (d k b : A) :
  getattr args "default_storage_backend" = Ok d ->
  getattr args "disk_storage_mappings" = Ok k ->
  getattr args "storage_backend_mappings" = Ok b ->
  exists sm : Dict.t string A,
    get_storage_mappings_dict_from_args args = Ok sm
    /\ Dict.get "default" sm = (if truthy d then Some d else None)
    /\ Dict.get "disk_mappings" sm = (if truthy k then Some k else None)
    /\ Dict.get "backend_mappings" sm = (if truthy b then Some b else None).
Proof.
  intros Hd Hk Hb. unfold get_storage_mappings_dict_from_args.
  rewrite Hd, Hk, Hb. simpl.
  destruct (truthy d), (truthy k), (truthy b); simpl;
    eexists; repeat split; reflexivity.
Qed.

(** C6.  For an args object that carries the three attributes (a flag that
    was not given leaves its attribute [None]), the dict returned holds
    exactly the keys among [default], [disk_mappings], [backend_mappings]
    whose attribute is truthy, each with the attribute's value; every value
    stored is truthy, so none is a placeholder; and when the three
    attributes are all absent or falsy the dict is empty. *)
Theorem get_storage_mappings_dict_truthy_keys {A : Type} `{Truthy A}
        (args : Namespace A) (d k b : A) :
  getattr args "default_storage_backend" = Ok d ->
  getattr args "disk_storage_mappings" = Ok k ->
  getattr args "storage_backend_mappings" = Ok b ->
  exists sm : Dict.t string A,
    get_storage_mappings_dict_from_args args = Ok sm
    /\ sm = filter (fun kv => truthy (snd kv))
                   [("default", d); ("disk_mappings", k); ("backend_mappings", b)]
    /\ Dict.get "default" sm = (if truthy d then Some d else None)
    /\ Dict.get "disk_mappings" sm = (if truthy k then Some k else None)
    /\ Dict.get "backend_mappings" sm = (if truthy b then Some b else None)
    /\ (forall key v, Dict.get key sm = Some v ->
          truthy v = true
          /\ (key = "default" \/ key = "disk_mappings" \/ key = "backend_mappings"))
    /\ (truthy d = false -> truthy k = false -> truthy b = false -> sm = Dict.empty).
Proof.
  intros Hd Hk Hb. unfold get_storage_mappings_dict_from_args.
  rewrite Hd, Hk, Hb. simpl.
  destruct (truthy d) eqn:Td, (truthy k) eqn:Tk, (truthy b) eqn:Tb; simpl;
    eexists; (split; [reflexivity |]); (split; [reflexivity |]);
    repeat (split; [reflexivity |]);
    (split; [| intros; try discriminate; reflexivity]);
    intros key v; rewrite ?get_cons_string; change (Dict.get key []) with (@None A);
    repeat match goal with
           | |- context [String.eqb ?a key] =>
               let E := fresh "E" in
               destruct (String.eqb a key) eqn:E;
               [apply String.eqb_eq in E; subst key |]
           end;
    intros Hv; inversion Hv; subst; auto.
Qed.

(** The theorem at work: a default backend and one disk mapping given, no
    backend mapping. *)
Lemma get_storage_mappings_dict_truthy_keys_witness :
  exists sm : Dict.t string pyval,
    get_storage_mappings_dict_from_args
      [("default_storage_backend", PStr "lvm");
       ("disk_storage_mappings",
        PList [PDict [("disk_id", PStr "d1"); ("destination", PStr "ssd")]]);
       ("storage_backend_mappings", PNone)] = Ok sm
    /\ Dict.get "backend_mappings" sm = None.
Proof.
  destruct (get_storage_mappings_dict_truthy_keys
              [("default_storage_backend", PStr "lvm");
               ("disk_storage_mappings",
                PList [PDict [("disk_id", PStr "d1"); ("destination", PStr "ssd")]]);
               ("storage_backend_mappings", PNone)]
              (PStr "lvm")
              (PList [PDict [("disk_id", PStr "d1"); ("destination", PStr "ssd")]])
              PNone eq_refl eq_refl eq_refl)
    as [sm [E [_ [_ [_ [B _]]]]]].
  exists sm. split; [exact E | exact B].
Defined.

(** ** [format_json_for_object_property] *)

(** C7.  [format_json_for_object_property] returns the two characters [{}]
    when the attribute is missing (it does not raise for that) and when it
    is [None]; an attribute that is an object with [to_dict], and not a
    dict, is converted first and the result serialised with [indent=2]; a
    plain data value is serialised as it is.  With [Json.dumps] the text is
    indented by two spaces a level. *)
Theorem format_json_for_object_property_cases
        (json_dumps : pyval -> option nat -> string)
        (obj : Namespace pyobj) (prop_name : string) :
  (Dict.get prop_name obj = None ->
   format_json_for_object_property json_dumps obj prop_name = Ok "{}")
  /\ (Dict.get prop_name obj = Some (Val PNone) ->
      format_json_for_object_property json_dumps obj prop_name = Ok "{}")
  /\ (forall d : pyval,
         Dict.get prop_name obj = Some (Obj (Some d)) ->
         format_json_for_object_property json_dumps obj prop_name
         = Ok (json_dumps d (Some 2%nat)))
  /\ (forall v : pyval,
         Dict.get prop_name obj = Some (Val v) -> v <> PNone ->
         format_json_for_object_property json_dumps obj prop_name
         = Ok (json_dumps v (Some 2%nat)))
  /\ format_json_for_object_property Json.dumps
       [("info", Obj (Some (PDict [("a", PInt 1); ("b", PList [PNone])])))] "info"
     = Ok ("{" ++ String (ascii_of_nat 10) "  " ++ Json.quote ++ "a" ++ Json.quote ++ ": 1,"
               ++ String (ascii_of_nat 10) "  " ++ Json.quote ++ "b" ++ Json.quote ++ ": ["
               ++ String (ascii_of_nat 10) "    null"
               ++ String (ascii_of_nat 10) "  ]"
               ++ String (ascii_of_nat 10) "}").
Proof.
  unfold format_json_for_object_property, getattr_default.
  repeat split.
  - intros E. now rewrite E.
  - intros E. now rewrite E.
  - intros d E. now rewrite E.
  - intros v E N. rewrite E. destruct v; try reflexivity. now elim N.
Qed.

(** The theorem at work: an object without the attribute. *)
Lemma format_json_for_object_property_cases_witness :
  format_json_for_object_property Json.dumps
    [("id", Val (PStr "42"))] "info" = Ok "{}".
Proof.
  exact (proj1 (format_json_for_object_property_cases
                  Json.dumps [("id", Val (PStr "42"))] "info") eq_refl).
Defined.

(** ** [get_option_value_from_args] *)

Lemma truthy_text (text : string) : text <> "" -> truthy (Val (PStr text)) = true.
Proof.
  intros N. change (negb (String.eqb text "") = true).
  destruct (String.eqb text "") eqn:E; [| reflexivity].
  apply String.eqb_eq in E. contradiction.
Qed.

Section OptionValue.

Variable json_loads : string -> result pyval.

(** The error raised at the end of [get_option_value_from_args]. *)
Definition no_parameter_error (option_name : string) : exn :=
  ValueError ("No '--" ++ Str.replace "_" "-" (Str.replace "-" "_" option_name)
                ++ "[-file]' parameter was provided.").

(** What the function does with the text it obtained: the parsed value,
    unless that value is falsy and a value was demanded; a parse failure is
    raised again under the option's name. *)
Definition outcome_of_text (option_name text : string) (error_on_no_value : bool)
  : result pyval :=
  match json_loads text with
  | Ok v =>
      if negb (truthy v) && error_on_no_value
      then Raise (no_parameter_error option_name)
      else Ok v
  | Raise (ValueError ex) =>
      Raise (ValueError ("Error while parsing "
                           ++ Str.replace "_" " " (Str.replace "-" "_" option_name)
                           ++ " JSON: " ++ ex))
  | Raise e => Raise e
  end.

(** The behaviour of [get_option_value_from_args], case by case, on an args
    object that carries the two attributes of the option. *)
Lemma get_option_value_from_args_cases
      (args : Namespace pyobj) (option_name : string) (error_on_no_value : bool)
      (raw_arg file_arg : pyobj) :
  getattr args (Str.replace "-" "_" option_name) = Ok raw_arg ->
  getattr args (Str.replace "-" "_" option_name ++ "_file") = Ok file_arg ->
  (* neither flag holds anything *)
  (truthy raw_arg = false -> truthy file_arg = false ->
   get_option_value_from_args json_loads args option_name error_on_no_value
   = if error_on_no_value then Raise (no_parameter_error option_name) else Ok PNone)
  (* text on the raw-value flag *)
  /\ (forall raw, raw_arg = Val (PStr raw) -> raw <> "" ->
        get_option_value_from_args json_loads args option_name error_on_no_value
        = outcome_of_text option_name raw error_on_no_value)
  (* text in the file *)
  /\ (forall text, truthy raw_arg = false -> file_arg = File text -> text <> "" ->
        get_option_value_from_args json_loads args option_name error_on_no_value
        = outcome_of_text option_name text error_on_no_value)
  (* an empty file *)
  /\ (truthy raw_arg = false -> file_arg = File "" ->
      get_option_value_from_args json_loads args option_name error_on_no_value
      = if error_on_no_value then Raise (no_parameter_error option_name) else Ok PNone).
Proof.
  intros Hr Hf. unfold get_option_value_from_args. rewrite Hr, Hf. simpl.
  repeat split.
  - intros Tr Tf. rewrite Tr, Tf. simpl. now destruct error_on_no_value.
  - intros raw -> N. unfold outcome_of_text, no_parameter_error.
    pose proof (truthy_text raw N) as T.
    rewrite T. simpl. rewrite T. simpl.
    destruct (json_loads raw) as [v | []]; reflexivity.
  - intros text Tr -> N. rewrite Tr. unfold outcome_of_text, no_parameter_error.
    pose proof (truthy_text text N) as T.
    simpl. rewrite T. simpl.
    destruct (json_loads text) as [v | []]; reflexivity.
  - intros Tr ->. rewrite Tr. simpl. now destruct error_on_no_value.
Qed.

End OptionValue.

(** C1, at the input where the claim and the code part: the raw-value flag
    holds the text [{}], which parses as the empty JSON object, and the
    function raises the error that says no parameter was provided. *)
Theorem get_option_value_from_args_empty_object :
  Json.loads "{}" = Ok (PDict [])
  /\ get_option_value_from_args Json.loads
       [("destination_environment", Val (PStr "{}"));
        ("destination_environment_file", Val PNone)]
       "destination-environment" true
     = Raise (ValueError
                "No '--destination-environment[-file]' parameter was provided.").
Proof. split; reflexivity. Qed.

(** ** [parse_storage_mappings] *)

(** A well-formed element of a mappings list: a dict that has both keys,
    the value under the first of them hashable. *)
Definition mapping_entry (key value : string) (mapping : pyval)
           (kv : pykey * pyval) : Prop :=
  exists entries k,
    mapping = PDict entries
    /\ Dict.get key entries = Some k
    /\ hashable k = Ok (fst kv)
    /\ Dict.get value entries = Some (snd kv).

(** The list under a key of the storage mappings; no items when the key is
    missing. *)
Definition list_field (name : string) (entries : Dict.t string pyval)
           (items : list pyval) : Prop :=
  Dict.get name entries = Some (PList items)
  \/ (Dict.get name entries = None /\ items = []).

Lemma dict_comprehension_pairs (key value : string) (mappings : list pyval)
      (pairs : list (pykey * pyval)) (acc : Dict.t pykey pyval) :
  Forall2 (mapping_entry key value) mappings pairs ->
  dict_comprehension key value mappings acc
  = Ok (fold_left (fun d kv => Dict.set (fst kv) (snd kv) d) pairs acc).
Proof.
  intros F. revert acc.
  induction F as [| mapping [k v] mappings pairs M F IH]; intros acc;
    [reflexivity |].
  destruct M as [entries [k0 [-> [Hk [Hh Hv]]]]]. simpl in *.
  rewrite Hk, Hv. simpl. rewrite Hh. simpl. apply IH.
Qed.

Lemma list_field_iter (name : string) (entries : Dict.t string pyval)
      (items : list pyval) :
  list_field name entries items ->
  bind (get_method (PDict entries) name (PList [])) py_iter = Ok items.
Proof.
  intros [E | [E ->]]; simpl; now rewrite E.
Qed.

Lemma parse_storage_mappings_mapping (entries : Dict.t string pyval)
      (backend disk : list pyval) (bpairs dpairs : list (pykey * pyval)) :
  list_field "backend_mappings" entries backend ->
  list_field "disk_mappings" entries disk ->
  Forall2 (mapping_entry "source" "destination") backend bpairs ->
  Forall2 (mapping_entry "disk_id" "destination") disk dpairs ->
  parse_storage_mappings (PDict entries)
  = Ok (match Dict.get "default" entries with
        | Some v => v
        | None => PNone
        end,
        Dict.of_pairs bpairs, Dict.of_pairs dpairs).
Proof.
  intros Lb Ld Fb Fd.
  unfold parse_storage_mappings.
  pose proof (list_field_iter _ _ _ Lb) as Ib.
  pose proof (list_field_iter _ _ _ Ld) as Id.
  destruct (get_method (PDict entries) "backend_mappings" (PList [])) as [b |];
    [| discriminate].
  simpl in Ib. rewrite bind_Ok, Ib, bind_Ok.
  rewrite (dict_comprehension_pairs _ _ _ _ _ Fb), bind_Ok.
  destruct (get_method (PDict entries) "disk_mappings" (PList [])) as [d |];
    [| discriminate].
  simpl in Id. rewrite bind_Ok, Id, bind_Ok.
  rewrite (dict_comprehension_pairs _ _ _ _ _ Fd), bind_Ok.
  reflexivity.
Qed.

(** C5.  [parse_storage_mappings(None)] is [(None, {}, {})].  For a mapping,
    the result is its [default] entry ([None] when it has none), the dict
    that keys each element of [backend_mappings] by its [source] to its
    [destination], and the dict that keys each element of [disk_mappings]
    by its [disk_id] to its [destination]; a list that is missing gives the
    empty dict; and a key that occurs more than once keeps the destination
    of its last occurrence, without error. *)
Theorem parse_storage_mappings_dicts :
  parse_storage_mappings PNone = Ok (PNone, Dict.empty, Dict.empty)
  /\ forall (entries : Dict.t string pyval) (backend disk : list pyval)
            (bpairs dpairs : list (pykey * pyval)),
      list_field "backend_mappings" entries backend ->
      list_field "disk_mappings" entries disk ->
      Forall2 (mapping_entry "source" "destination") backend bpairs ->
      Forall2 (mapping_entry "disk_id" "destination") disk dpairs ->
      parse_storage_mappings (PDict entries)
      = Ok (match Dict.get "default" entries with
            | Some v => v
            | None => PNone
            end,
            Dict.of_pairs bpairs, Dict.of_pairs dpairs)
      /\ (forall k, Dict.get k (Dict.of_pairs bpairs) = Dict.last_assoc k bpairs)
      /\ (forall k, Dict.get k (Dict.of_pairs dpairs) = Dict.last_assoc k dpairs)
      /\ Dict.wf (Dict.of_pairs bpairs) = true
      /\ Dict.wf (Dict.of_pairs dpairs) = true.
Proof.
  split; [reflexivity |].
  intros entries backend disk bpairs dpairs Lb Ld Fb Fd.
  split; [| auto using get_of_pairs, wf_of_pairs].
  now apply parse_storage_mappings_mapping with (backend := backend) (disk := disk).
Qed.

(** The theorem at work: two backend mappings with the same source, no disk
    mappings, no default. *)
Lemma parse_storage_mappings_dicts_witness :
  parse_storage_mappings
    (PDict [("backend_mappings",
             PList [PDict [("source", PStr "nfs"); ("destination", PStr "lvm")];
                    PDict [("source", PStr "nfs"); ("destination", PStr "ceph")]])])
  = Ok (PNone, [(KStr "nfs", PStr "ceph")], Dict.empty).
Proof.
  refine (proj1 (proj2 parse_storage_mappings_dicts
                   [("backend_mappings",
                     PList [PDict [("source", PStr "nfs"); ("destination", PStr "lvm")];
                            PDict [("source", PStr "nfs"); ("destination", PStr "ceph")]])]
                   [PDict [("source", PStr "nfs"); ("destination", PStr "lvm")];
                    PDict [("source", PStr "nfs"); ("destination", PStr "ceph")]]
                   []
                   [(KStr "nfs", PStr "lvm"); (KStr "nfs", PStr "ceph")]
                   []
                   (or_introl eq_refl) (or_intror (conj eq_refl eq_refl)) _ _)).
  - repeat constructor;
      eexists; eexists; (split; [reflexivity |]); repeat split; reflexivity.
  - constructor.
Defined.

(** ** From the args to the storage mappings and back *)

(** What a list attribute of the namespace holds: [None] when its flag was
    never given, else the list the parser appended to. *)
Definition arg_list (attr : pyval) (items : list pyval) : Prop :=
  (attr = PNone /\ items = []) \/ attr = PList items.

(** The args of [--default-storage-backend "" --disk-storage-mapping d1=lvm
    --disk-storage-mapping d1=ssd]. *)
Definition args_empty_default_same_disk : Namespace pyval :=
  [("default_storage_backend", PStr "");
   ("disk_storage_mappings",
    PList [PDict [("disk_id", PStr "d1"); ("destination", PStr "lvm")];
           PDict [("disk_id", PStr "d1"); ("destination", PStr "ssd")]]);
   ("storage_backend_mappings", PNone)].

Lemma arg_list_field (name : string) (sm : Dict.t string pyval)
      (attr : pyval) (items : list pyval) :
  Dict.get name sm = (if truthy attr then Some attr else None) ->
  arg_list attr items -> list_field name sm items.
Proof.
  intros G [[-> ->] | ->].
  - right. now split.
  - destruct items as [| x items]; [right | left]; now rewrite G.
Qed.

(** C4, as amended.  For an args object whose list attributes hold what the
    two converters produced, building the dict and parsing it gives back:
    the default backend when it is truthy, and [None] when it is absent or
    the empty string; for each source and each disk id, the destination of
    its last occurrence in the args; hence every original association
    whose key is not given another destination elsewhere in the args. *)
Theorem storage_mappings_round_trip
        (args : Namespace pyval) (d k b : pyval) (disk backend : list pyval)
        (dpairs bpairs : list (pykey * pyval)) :
  getattr args "default_storage_backend" = Ok d ->
  getattr args "disk_storage_mappings" = Ok k ->
  getattr args "storage_backend_mappings" = Ok b ->
  arg_list k disk ->
  arg_list b backend ->
  Forall2 (mapping_entry "disk_id" "destination") disk dpairs ->
  Forall2 (mapping_entry "source" "destination") backend bpairs ->
  exists sm : Dict.t string pyval,
    get_storage_mappings_dict_from_args args = Ok sm
    /\ parse_storage_mappings (PDict sm)
       = Ok (if truthy d then d else PNone,
             Dict.of_pairs bpairs, Dict.of_pairs dpairs)
    /\ (forall key, Dict.get key (Dict.of_pairs bpairs) = Dict.last_assoc key bpairs)
    /\ (forall key, Dict.get key (Dict.of_pairs dpairs) = Dict.last_assoc key dpairs)
    /\ (forall key v,
          In (key, v) bpairs ->
          (forall k' v', In (k', v') bpairs -> Dict.eqb k' key = true -> v' = v) ->
          Dict.get key (Dict.of_pairs bpairs) = Some v)
    /\ (forall key v,
          In (key, v) dpairs ->
          (forall k' v', In (k', v') dpairs -> Dict.eqb k' key = true -> v' = v) ->
          Dict.get key (Dict.of_pairs dpairs) = Some v).
Proof.
  intros Hd Hk Hb Lk Lb Fd Fb.
  destruct (get_storage_mappings_dict_lookup args d k b Hd Hk Hb)
    as [sm [E [Gd [Gk Gb]]]].
  exists sm. split; [exact E |]. split.
  - rewrite (parse_storage_mappings_mapping sm backend disk bpairs dpairs);
      eauto using arg_list_field.
    rewrite Gd. now destruct (truthy d).
  - repeat split; intros;
      rewrite get_of_pairs; auto using last_assoc_unique.
Qed.

(** The theorem at work: a default backend and two disks. *)
Lemma storage_mappings_round_trip_witness :
  exists sm : Dict.t string pyval,
    get_storage_mappings_dict_from_args
      [("default_storage_backend", PStr "lvm");
       ("disk_storage_mappings",
        PList [PDict [("disk_id", PStr "d1"); ("destination", PStr "ssd")];
               PDict [("disk_id", PStr "d2"); ("destination", PStr "hdd")]]);
       ("storage_backend_mappings", PNone)] = Ok sm
    /\ parse_storage_mappings (PDict sm)
       = Ok (PStr "lvm", Dict.empty,
             [(KStr "d1", PStr "ssd"); (KStr "d2", PStr "hdd")]).
Proof.
  destruct (storage_mappings_round_trip
              [("default_storage_backend", PStr "lvm");
               ("disk_storage_mappings",
                PList [PDict [("disk_id", PStr "d1"); ("destination", PStr "ssd")];
                       PDict [("disk_id", PStr "d2"); ("destination", PStr "hdd")]]);
               ("storage_backend_mappings", PNone)]
              (PStr "lvm")
              (PList [PDict [("disk_id", PStr "d1"); ("destination", PStr "ssd")];
                      PDict [("disk_id", PStr "d2"); ("destination", PStr "hdd")]])
              PNone
              [PDict [("disk_id", PStr "d1"); ("destination", PStr "ssd")];
               PDict [("disk_id", PStr "d2"); ("destination", PStr "hdd")]]
              []
              [(KStr "d1", PStr "ssd"); (KStr "d2", PStr "hdd")]
              []
              eq_refl eq_refl eq_refl
              (or_intror eq_refl) (or_introl (conj eq_refl eq_refl)))
    as [sm [E [P _]]].
  - repeat constructor;
      eexists; eexists; (split; [reflexivity |]); repeat split; reflexivity.
  - constructor.
  - exists sm. split; [exact E | exact P].
Defined.

(** C4, as stated, fails at [args_empty_default_same_disk]: its values are
    what the parser stores for the three flags, the round trip gives
    [(None, {}, {"d1": "ssd"})], the original default backend [""] is not
    the [None] that comes back, and the original association of [d1] with
    [lvm] is not in the disk dict that comes back. *)
Lemma storage_mappings_round_trip_loses :
  _split_disk_arg "d1=lvm"
  = Ok (PDict [("disk_id", PStr "d1"); ("destination", PStr "lvm")])
  /\ _split_disk_arg "d1=ssd"
     = Ok (PDict [("disk_id", PStr "d1"); ("destination", PStr "ssd")])
  /\ exists (sm : Dict.t string pyval) (default : pyval)
            (backend_mappings disk_mappings : Dict.t pykey pyval),
      get_storage_mappings_dict_from_args args_empty_default_same_disk = Ok sm
      /\ parse_storage_mappings (PDict sm)
         = Ok (default, backend_mappings, disk_mappings)
      /\ getattr args_empty_default_same_disk "default_storage_backend" = Ok (PStr "")
      /\ default = PNone
      /\ default <> PStr ""
      /\ disk_mappings = [(KStr "d1", PStr "ssd")]
      /\ Dict.get (KStr "d1") disk_mappings <> Some (PStr "lvm").
Proof.
  split; [reflexivity |]. split; [reflexivity |].
  eexists; eexists; eexists; eexists.
  split; [reflexivity |]. split; [reflexivity |].
  repeat split; try reflexivity; discriminate.
Qed.

(** ** Splitting and stripping *)

Lemma mem_cons (c x : ascii) (s : string) :
  Str.mem c (String x s) = (Ascii.eqb x c || Str.mem c s)%bool.
Proof. unfold Str.mem. simpl. now rewrite Ascii.eqb_sym. Qed.

Lemma mem_app (c : ascii) (s t : string) :
  Str.mem c (s ++ t) = (Str.mem c s || Str.mem c t)%bool.
Proof.
  induction s as [| x s IH]; [reflexivity |].
  simpl. rewrite !mem_cons, IH. now rewrite orb_assoc.
Qed.

(** A token without the separator is one part. *)
Lemma split1_no_sep (sep : ascii) (s : string) :
  Str.mem sep s = false -> Str.split1 sep s = [s].
Proof.
  induction s as [| x s IH]; [reflexivity |].
  rewrite mem_cons. intros M. apply orb_false_iff in M as [M1 M2].
  simpl. now rewrite M1, (IH M2).
Qed.

(** A token is cut at its first separator. *)
Lemma split1_sep (sep : ascii) (a b : string) :
  Str.mem sep a = false -> Str.split1 sep (a ++ String sep b) = [a; b].
Proof.
  induction a as [| x a IH]; simpl.
  - now rewrite Ascii.eqb_refl.
  - rewrite mem_cons. intros M. apply orb_false_iff in M as [M1 M2].
    now rewrite M1, (IH M2).
Qed.

(** Every token is of one of the two shapes. *)
Lemma token_shape (sep : ascii) (s : string) :
  Str.mem sep s = false
  \/ exists a b, s = a ++ String sep b /\ Str.mem sep a = false.
Proof.
  induction s as [| x s IH]; [now left |].
  destruct (Ascii.eqb x sep) eqn:E.
  - right. apply Ascii.eqb_eq in E. subst. now exists EmptyString, s.
  - destruct IH as [M | [a [b [-> M]]]].
    + left. rewrite mem_cons, E. exact M.
    + right. exists (String x a), b. split; [reflexivity |].
      rewrite mem_cons, E. exact M.
Qed.

(** ** [compose_user_scripts] *)

Section UserScripts.

Variable OS_LIST : list string.
Variable fs : filesystem.

Lemma compose_global_app (gs gs' : list string) (ret : Dict.t string string) :
  compose_global OS_LIST fs (gs ++ gs')%list ret
  = bind (compose_global OS_LIST fs gs ret) (compose_global OS_LIST fs gs').
Proof.
  revert ret. induction gs as [| glb gs IH]; intros ret; [reflexivity |].
  simpl. destruct (Str.split1 "=" glb) as [| os [| path [| x l]]]; auto.
  destruct (negb (Str.in_list os OS_LIST)); [reflexivity |].
  destruct (fs path); [apply IH | reflexivity].
Qed.

Lemma compose_instances_app (ins ins' : list string) (ret : Dict.t string string) :
  compose_instances fs (ins ++ ins')%list ret
  = bind (compose_instances fs ins ret) (compose_instances fs ins').
Proof.
  revert ret. induction ins as [| inst ins IH]; intros ret; [reflexivity |].
  simpl. destruct (Str.split1 "=" inst) as [| k [| path [| x l]]]; auto.
  destruct (fs path); [apply IH | reflexivity].
Qed.

Lemma compose_global_skip (tok : string) (ret : Dict.t string string) :
  Str.mem "=" tok = false -> compose_global OS_LIST fs [tok] ret = Ok ret.
Proof. intros M. simpl. now rewrite (split1_no_sep _ _ M). Qed.

Lemma compose_instances_skip (tok : string) (ret : Dict.t string string) :
  Str.mem "=" tok = false -> compose_instances fs [tok] ret = Ok ret.
Proof. intros M. simpl. now rewrite (split1_no_sep _ _ M). Qed.

Lemma compose_global_token (os path : string) (ret : Dict.t string string) :
  Str.mem "=" os = false ->
  compose_global OS_LIST fs [os ++ "=" ++ path] ret
  = if Str.in_list os OS_LIST
    then match fs path with
         | Some text => Ok (Dict.set os text ret)
         | None => Raise (ValueError ("Could not find " ++ path))
         end
    else Raise (ValueError ("Invalid OS " ++ os ++ ". Available options are: "
                              ++ Str.join ", " OS_LIST)).
Proof.
  intros M. simpl.
  change (os ++ String "=" path) with (os ++ String "=" path).
  rewrite (split1_sep _ _ _ M).
  destruct (Str.in_list os OS_LIST); simpl; [| reflexivity].
  now destruct (fs path).
Qed.

Lemma compose_instances_token (inst path : string) (ret : Dict.t string string) :
  Str.mem "=" inst = false ->
  compose_instances fs [inst ++ "=" ++ path] ret
  = match fs path with
    | Some text => Ok (Dict.set inst text ret)
    | None => Raise (ValueError ("Could not find " ++ path))
    end.
Proof.
  intros M. simpl. rewrite (split1_sep _ _ _ M). now destruct (fs path).
Qed.

(** C3.  [compose_user_scripts] cuts each token at its first [=].  A token
    without [=] is skipped wherever it stands: the call gives what it gives
    without the token.  A global token [os=path] that follows tokens read
    without error raises the [ValueError] that lists the valid options when
    [os] is not in [OS_LIST], else the [ValueError] that names [path] when
    [path] is not an existing file, else stores the text of the file under
    [global[os]].  An instance token is only checked for its file and is
    stored under [instances[instance]].  An error ends the call.  A null
    sequence counts as empty, and a later entry for a key replaces the
    earlier one. *)
Theorem compose_user_scripts_tokens :
  (forall g i,
      compose_user_scripts OS_LIST fs None i = compose_user_scripts OS_LIST fs (Some []) i
      /\ compose_user_scripts OS_LIST fs g None = compose_user_scripts OS_LIST fs g (Some []))
  /\ compose_user_scripts OS_LIST fs None None
     = Ok {| global := Dict.empty; instances := Dict.empty |}
  /\ (forall gs gs' i tok,
         Str.mem "=" tok = false ->
         compose_user_scripts OS_LIST fs (Some (gs ++ tok :: gs')%list) i
         = compose_user_scripts OS_LIST fs (Some (gs ++ gs')%list) i)
  /\ (forall g ins ins' tok,
         Str.mem "=" tok = false ->
         compose_user_scripts OS_LIST fs g (Some (ins ++ tok :: ins')%list)
         = compose_user_scripts OS_LIST fs g (Some (ins ++ ins')%list))
  /\ (forall gs r os path,
         Str.mem "=" os = false ->
         compose_user_scripts OS_LIST fs (Some gs) None = Ok r ->
         compose_user_scripts OS_LIST fs (Some (gs ++ [(os ++ "=" ++ path)%string])%list) None
         = if Str.in_list os OS_LIST
           then match fs path with
                | Some text =>
                    Ok {| global := Dict.set os text (global r);
                          instances := instances r |}
                | None => Raise (ValueError ("Could not find " ++ path))
                end
           else Raise (ValueError ("Invalid OS " ++ os
                                     ++ ". Available options are: "
                                     ++ Str.join ", " OS_LIST)))
  /\ (forall g ins r inst path,
         Str.mem "=" inst = false ->
         compose_user_scripts OS_LIST fs g (Some ins) = Ok r ->
         compose_user_scripts OS_LIST fs g (Some (ins ++ [(inst ++ "=" ++ path)%string])%list)
         = match fs path with
           | Some text =>
               Ok {| global := global r;
                     instances := Dict.set inst text (instances r) |}
           | None => Raise (ValueError ("Could not find " ++ path))
           end)
  /\ (forall gs gs' i e,
         compose_user_scripts OS_LIST fs (Some gs) None = Raise e ->
         compose_user_scripts OS_LIST fs (Some (gs ++ gs')%list) i = Raise e)
  /\ (forall g ins ins' e,
         compose_user_scripts OS_LIST fs g (Some ins) = Raise e ->
         compose_user_scripts OS_LIST fs g (Some (ins ++ ins')%list) = Raise e)
  /\ (forall (d : Dict.t string string) (k text k' : string),
         Dict.get k' (Dict.set k text d)
         = if String.eqb k k' then Some text else Dict.get k' d).
Proof.
  unfold compose_user_scripts.
  split; [intros g i; split; reflexivity |].
  split; [reflexivity |].
  split.
  { intros gs gs' i tok M. simpl.
    change (tok :: gs') with ([tok] ++ gs')%list.
    rewrite !compose_global_app.
    destruct (compose_global OS_LIST fs gs Dict.empty) as [r |]; [| reflexivity].
    rewrite !bind_Ok. cbv beta. rewrite (compose_global_app [tok]).
    now rewrite (compose_global_skip _ _ M). }
  split.
  { intros g ins ins' tok M. simpl.
    destruct (compose_global OS_LIST fs (or_empty g) Dict.empty) as [r |];
      [| reflexivity].
    rewrite !bind_Ok.
    change (tok :: ins') with ([tok] ++ ins')%list.
    rewrite !compose_instances_app.
    destruct (compose_instances fs ins Dict.empty) as [r' |]; [| reflexivity].
    rewrite !bind_Ok. cbv beta. rewrite (compose_instances_app [tok]).
    now rewrite (compose_instances_skip _ _ M). }
  split.
  { intros gs r os path M E. cbn [or_empty] in *.
    rewrite compose_global_app.
    destruct (compose_global OS_LIST fs gs Dict.empty) as [g |]; [| discriminate].
    cbn in E. inversion E; subst. rewrite bind_Ok. cbn [global instances].
    rewrite (compose_global_token _ _ _ M).
    destruct (Str.in_list os OS_LIST); [| reflexivity].
    now destruct (fs path). }
  split.
  { intros g ins r inst path M E. cbn [or_empty] in *.
    destruct (compose_global OS_LIST fs (or_empty g) Dict.empty) as [g' |];
      [| discriminate].
    rewrite bind_Ok in *. rewrite compose_instances_app.
    destruct (compose_instances fs ins Dict.empty) as [i' |]; [| discriminate].
    cbn in E. inversion E; subst. rewrite bind_Ok. cbn [global instances].
    rewrite (compose_instances_token _ _ _ M).
    now destruct (fs path). }
  split.
  { intros gs gs' i e E. simpl in *. rewrite compose_global_app.
    destruct (compose_global OS_LIST fs gs Dict.empty) as [g |]; [discriminate |].
    exact E. }
  split.
  { intros g ins ins' e E. simpl in *.
    destruct (compose_global OS_LIST fs (or_empty g) Dict.empty) as [g' |];
      [| exact E].
    rewrite bind_Ok in *. rewrite compose_instances_app.
    destruct (compose_instances fs ins Dict.empty) as [i' |]; [discriminate |].
    exact E. }
  intros d k text k'. rewrite (get_set k k' text d). reflexivity.
Qed.

End UserScripts.

(** The theorem at work: [compose_user_scripts(["linux=/tmp/exists.sh"], None)]
    where the file exists. *)
Lemma compose_user_scripts_tokens_witness :
  compose_user_scripts ["linux"; "windows"] example_fs
                       (Some ["linux=/tmp/exists.sh"]) None
  = Ok {| global := [("linux", "#!/bin/sh")]; instances := Dict.empty |}.
Proof.
  exact (proj1 (proj2 (proj2 (proj2 (proj2
           (compose_user_scripts_tokens ["linux"; "windows"] example_fs)))))
           [] {| global := Dict.empty; instances := Dict.empty |}
           "linux" "/tmp/exists.sh" eq_refl eq_refl).
Defined.

(** The other two runs of the specification: a missing file and an
    unknown OS. *)
Example compose_user_scripts_missing_file :
  compose_user_scripts ["linux"; "windows"] example_fs
                       (Some ["linux=/no/such/file"]) None
  = Raise (ValueError "Could not find /no/such/file").
Proof. reflexivity. Qed.

Example compose_user_scripts_unknown_os :
  compose_user_scripts ["linux"; "windows"] example_fs
                       (Some ["bogusOS=/tmp/exists.sh"]) None
  = Raise (ValueError "Invalid OS bogusOS. Available options are: linux, windows").
Proof. reflexivity. Qed.

(** ** The converters of the two mapping flags *)

Lemma split_no_sep (sep : ascii) (s : string) :
  Str.mem sep s = false -> Str.split sep s = [s].
Proof.
  induction s as [| x s IH]; [reflexivity |].
  rewrite mem_cons. intros M. apply orb_false_iff in M as [M1 M2].
  simpl. now rewrite M1, (IH M2).
Qed.

Lemma split_sep (sep : ascii) (a b : string) :
  Str.mem sep a = false ->
  Str.split sep (a ++ String sep b) = a :: Str.split sep b.
Proof.
  induction a as [| x a IH]; simpl.
  - now rewrite Ascii.eqb_refl.
  - rewrite mem_cons. intros M. apply orb_false_iff in M as [M1 M2].
    now rewrite M1, (IH M2).
Qed.

(** [split] gives one part more than there are separators. *)
Lemma split_length (sep : ascii) (s : string) :
  List.length (Str.split sep s) = S (Str.count sep s).
Proof.
  induction s as [| x s IH]; [reflexivity |].
  simpl. destruct (Ascii.eqb x sep); simpl; [now rewrite IH |].
  destruct (Str.split sep s) as [| h t]; [discriminate | exact IH].
Qed.

Lemma count_no_sep (sep : ascii) (s : string) :
  Str.mem sep s = false <-> Str.count sep s = 0.
Proof.
  induction s as [| x s IH]; [now split |].
  rewrite mem_cons. simpl. destruct (Ascii.eqb x sep); simpl.
  - split; discriminate.
  - exact IH.
Qed.

Lemma count_app (sep : ascii) (s t : string) :
  Str.count sep (s ++ t) = Str.count sep s + Str.count sep t.
Proof.
  induction s as [| x s IH]; [reflexivity |].
  simpl. rewrite IH. lia.
Qed.

(** A token holds one separator exactly when it is two separator-free
    parts around one. *)
Lemma count_one (sep : ascii) (s : string) :
  Str.count sep s = 1 <->
  exists a b, s = a ++ String sep b
              /\ Str.mem sep a = false /\ Str.mem sep b = false.
Proof.
  split.
  - intros C. destruct (token_shape sep s) as [M | [a [b [-> M]]]].
    + apply count_no_sep in M. lia.
    + exists a, b. split; [reflexivity |]. split; [exact M |].
      rewrite count_app in C. simpl in C. rewrite Ascii.eqb_refl in C.
      apply count_no_sep in M. apply count_no_sep. lia.
  - intros [a [b [-> [Ma Mb]]]]. rewrite count_app. simpl.
    rewrite Ascii.eqb_refl.
    apply count_no_sep in Ma, Mb. lia.
Qed.

Lemma unpack2_length {A : Type} (parts : list A) :
  List.length parts <> 2 -> exists msg, unpack2 parts = Raise (ValueError msg).
Proof.
  destruct parts as [| a [| b [| c l]]]; simpl; intros N;
    try (eexists; reflexivity).
  now elim N.
Qed.

Lemma lstrip_spec (cs s : string) :
  exists pre,
    s = pre ++ Str.lstrip cs s
    /\ Str.all (fun c => Str.mem c cs) pre = true
    /\ Str.outside cs (Str.first (Str.lstrip cs s)) = true.
Proof.
  induction s as [| c s [pre [E [A O]]]].
  - exists "". now repeat split.
  - simpl. destruct (Str.mem c cs) eqn:M.
    + exists (String c pre). simpl. rewrite M, A. now rewrite <- E.
    + exists "". simpl. now rewrite M.
Qed.

Lemma rstrip_spec (cs s : string) :
  exists post,
    s = Str.rstrip cs s ++ post
    /\ Str.all (fun c => Str.mem c cs) post = true
    /\ Str.outside cs (Str.last (Str.rstrip cs s)) = true
    /\ (Str.rstrip cs s = "" \/ Str.first (Str.rstrip cs s) = Str.first s).
Proof.
  induction s as [| c s [post [E [A [O F]]]]].
  - exists "". repeat split; auto.
  - simpl. destruct (Str.rstrip cs s) as [| x r] eqn:R.
    + simpl in E. subst post. destruct (Str.mem c cs) eqn:M.
      * exists (String c s). simpl. rewrite M, A. repeat split; auto.
      * exists s. simpl. rewrite M. repeat split; auto.
    + exists post. simpl in E. rewrite E at 1. repeat split; auto.
Qed.

(** [strip] takes off a run of characters of [cs] on each side, and what
    it leaves neither starts nor ends with one. *)
Lemma strip_spec (cs s : string) :
  exists pre post,
    s = pre ++ Str.strip cs s ++ post
    /\ Str.all (fun c => Str.mem c cs) pre = true
    /\ Str.all (fun c => Str.mem c cs) post = true
    /\ Str.outside cs (Str.first (Str.strip cs s)) = true
    /\ Str.outside cs (Str.last (Str.strip cs s)) = true.
Proof.
  destruct (lstrip_spec cs s) as [pre [E1 [A1 O1]]].
  destruct (rstrip_spec cs (Str.lstrip cs s)) as [post [E2 [A2 [O2 F]]]].
  exists pre, post. unfold Str.strip.
  split; [now rewrite <- E2 |].
  repeat split; auto.
  destruct F as [-> | ->]; auto.
Qed.

Lemma argparse_get_value_Ok {A : Type} (type_name : string)
      (type_func : string -> result A) (arg_string : string) (v : A) :
  type_func arg_string = Ok v ->
  argparse_get_value type_name type_func arg_string = Ok v.
Proof. unfold argparse_get_value. now intros ->. Qed.

Lemma argparse_get_value_ValueError {A : Type} (type_name : string)
      (type_func : string -> result A) (arg_string msg : string) :
  type_func arg_string = Raise (ValueError msg) ->
  argparse_get_value type_name type_func arg_string
  = Raise (ArgumentError type_name arg_string).
Proof. unfold argparse_get_value. now intros ->. Qed.

(** The parts [arg.split('=')] gives for a token with one separator. *)
Lemma split_one_separator (left right : string) :
  Str.mem "=" left = false -> Str.mem "=" right = false ->
  Str.split "=" (left ++ "=" ++ right) = [left; right].
Proof.
  intros Ml Mr.
  change (left ++ "=" ++ right) with (left ++ String "=" right).
  now rewrite (split_sep "=" left right Ml), (split_no_sep "=" right Mr).
Qed.

(** C2, as the code has it. The converter of [--disk-storage-mapping]
    (resp. [--storage-backend-mapping]) splits the token at every ['='] and
    unpacks the parts into two names. So a token [left=right] with one
    separator gives the dict [{disk_id: left', destination: right'}] (resp.
    [{source: left', destination: right'}]), where [x'] is [x] without the
    single and double quotes around it; and a token whose number of
    separators is not one, none or two and more alike, raises [ValueError]
    in the converter, which the parser reports as an argument error of that
    value. [strip] takes off a run of quote characters on each side and
    leaves a text that neither starts nor ends with a quote. *)
Theorem split_arg_one_separator (arg : string) :
  (forall left right,
      arg = left ++ "=" ++ right ->
      Str.mem "=" left = false -> Str.mem "=" right = false ->
      let disk := PDict [("disk_id", PStr (Str.strip quote_chars left));
                         ("destination", PStr (Str.strip quote_chars right))] in
      let backend := PDict [("source", PStr (Str.strip quote_chars left));
                            ("destination", PStr (Str.strip quote_chars right))] in
      _split_disk_arg arg = Ok disk
      /\ disk_storage_mapping_value arg = Ok disk
      /\ _split_backend_arg arg = Ok backend
      /\ storage_backend_mapping_value arg = Ok backend)
  /\ (Str.count "=" arg = 1 <->
      exists left right,
        arg = left ++ "=" ++ right
        /\ Str.mem "=" left = false /\ Str.mem "=" right = false)
  /\ (Str.count "=" arg <> 1 ->
      (exists msg, _split_disk_arg arg = Raise (ValueError msg))
      /\ disk_storage_mapping_value arg
         = Raise (ArgumentError "_split_disk_arg" arg)
      /\ (exists msg, _split_backend_arg arg = Raise (ValueError msg))
      /\ storage_backend_mapping_value arg
         = Raise (ArgumentError "_split_backend_arg" arg))
  /\ (forall side,
      exists pre post,
        side = pre ++ Str.strip quote_chars side ++ post
        /\ Str.all (fun c => Str.mem c quote_chars) pre = true
        /\ Str.all (fun c => Str.mem c quote_chars) post = true
        /\ Str.outside quote_chars (Str.first (Str.strip quote_chars side)) = true
        /\ Str.outside quote_chars (Str.last (Str.strip quote_chars side)) = true).
Proof.
  split; [| split; [| split]].
  - intros left right -> Ml Mr disk backend.
    assert (D : _split_disk_arg (left ++ "=" ++ right) = Ok disk).
    { unfold _split_disk_arg. now rewrite (split_one_separator left right Ml Mr). }
    assert (B : _split_backend_arg (left ++ "=" ++ right) = Ok backend).
    { unfold _split_backend_arg. now rewrite (split_one_separator left right Ml Mr). }
    repeat split; auto.
    + now apply argparse_get_value_Ok.
    + now apply argparse_get_value_Ok.
  - exact (count_one "=" arg).
  - intros C.
    destruct (unpack2_length (Str.split "=" arg)) as [msg U].
    { rewrite split_length. lia. }
    assert (D : _split_disk_arg arg = Raise (ValueError msg)).
    { unfold _split_disk_arg. now rewrite U. }
    assert (B : _split_backend_arg arg = Raise (ValueError msg)).
    { unfold _split_backend_arg. now rewrite U. }
    repeat split.
    + now exists msg.
    + now apply (argparse_get_value_ValueError _ _ _ msg).
    + now exists msg.
    + now apply (argparse_get_value_ValueError _ _ _ msg).
  - intros side. apply strip_spec.
Qed.

(** The theorem at the token ['id#1'=lvm] of the help text, quoted. *)
Lemma split_arg_one_separator_witness :
  _split_disk_arg "'id#1'=lvm"
  = Ok (PDict [("disk_id", PStr "id#1"); ("destination", PStr "lvm")])
  /\ disk_storage_mapping_value "'id#1'=lvm"
     = Ok (PDict [("disk_id", PStr "id#1"); ("destination", PStr "lvm")])
  /\ _split_backend_arg "'id#1'=lvm"
     = Ok (PDict [("source", PStr "id#1"); ("destination", PStr "lvm")])
  /\ storage_backend_mapping_value "'id#1'=lvm"
     = Ok (PDict [("source", PStr "id#1"); ("destination", PStr "lvm")]).
Proof.
  exact (proj1 (split_arg_one_separator "'id#1'=lvm")
               "'id#1'" "lvm" eq_refl eq_refl eq_refl).
Defined.

(** A token with two separators: splitting it once at ['='] would give
    the two sides [a] and [b=c], but the converter raises and the parser
    reports a usage error, although the token does contain a ['=']. *)
Lemma split_arg_two_separators :
  Str.mem "=" "a=b=c" = true
  /\ Str.split1 "=" "a=b=c" = ["a"; "b=c"]
  /\ Str.split "=" "a=b=c" = ["a"; "b"; "c"]
  /\ _split_disk_arg "a=b=c"
     = Raise (ValueError "too many values to unpack (expected 2)")
  /\ disk_storage_mapping_value "a=b=c"
     = Raise (ArgumentError "_split_disk_arg" "a=b=c")
  /\ _split_backend_arg "a=b=c"
     = Raise (ValueError "too many values to unpack (expected 2)")
  /\ storage_backend_mapping_value "a=b=c"
     = Raise (ArgumentError "_split_backend_arg" "a=b=c").
Proof. repeat split; reflexivity. Qed.

(** ** The UUID validator *)

(** Facts about single characters, by running through the 256 of them. *)
Ltac by_chars c :=
  destruct c as [[] [] [] [] [] [] [] []]; try discriminate; try reflexivity.

Lemma lower_char_hex (c : ascii) :
  Uuid.is_hex (Str.lower_char c) = Uuid.is_hex c.
Proof. by_chars c. Qed.

Lemma lower_char_hyphen (c : ascii) :
  Ascii.eqb (Str.lower_char c) "-" = Ascii.eqb c "-".
Proof. by_chars c. Qed.

Lemma hex_not_special (c : ascii) :
  Uuid.is_hex c = true ->
  Uuid.is_space c = false
  /\ Ascii.eqb c "-" = false /\ Ascii.eqb c "+" = false
  /\ Ascii.eqb c "x" = false /\ Ascii.eqb c "X" = false
  /\ Ascii.eqb c "u" = false /\ Ascii.eqb c "{" = false
  /\ Ascii.eqb c "}" = false.
Proof. by_chars c; intros _; repeat split. Qed.

Lemma hex_digit_range (c : ascii) (d : Z) :
  Str.hex_digit c = Some d -> (0 <= d < 16)%Z.
Proof. by_chars c; intros [= <-]; lia. Qed.

Lemma hex_char_hex (d : Z) : (0 <= d < 16)%Z -> Uuid.is_hex (Str.hex_char d) = true.
Proof.
  intros R.
  assert (C : (d = 0 \/ d = 1 \/ d = 2 \/ d = 3 \/ d = 4 \/ d = 5 \/ d = 6
               \/ d = 7 \/ d = 8 \/ d = 9 \/ d = 10 \/ d = 11 \/ d = 12
               \/ d = 13 \/ d = 14 \/ d = 15)%Z).
  { lia. }
  repeat (destruct C as [-> | C]; [reflexivity |]). now subst d.
Qed.

Lemma all_app (p : ascii -> bool) (s t : string) :
  Str.all p (s ++ t) = Str.all p s && Str.all p t.
Proof.
  induction s as [| x s IH]; [reflexivity |].
  simpl. now rewrite IH, andb_assoc.
Qed.

Lemma all_weaken (p q : ascii -> bool) (s : string) :
  (forall c, p c = true -> q c = true) ->
  Str.all p s = true -> Str.all q s = true.
Proof.
  intros PQ. induction s as [| x s IH]; [reflexivity |].
  simpl. intros A. apply andb_true_iff in A as [A1 A2].
  now rewrite (PQ _ A1), (IH A2).
Qed.

Lemma all_take (p : ascii -> bool) (n : nat) (s : string) :
  Str.all p s = true -> Str.all p (Str.take n s) = true.
Proof.
  revert s. induction n as [| n IH]; intros [| x s]; try reflexivity.
  simpl. intros A. apply andb_true_iff in A as [A1 A2].
  now rewrite A1, (IH s A2).
Qed.

Lemma all_drop (p : ascii -> bool) (n : nat) (s : string) :
  Str.all p s = true -> Str.all p (Str.drop n s) = true.
Proof.
  revert s. induction n as [| n IH]; intros [| x s]; try easy.
  simpl. intros A. apply andb_true_iff in A as [A1 A2]. now apply IH.
Qed.

Lemma length_app (s t : string) :
  String.length (s ++ t) = String.length s + String.length t.
Proof. induction s as [| x s IH]; [reflexivity |]. simpl. now rewrite IH. Qed.

Lemma length_take (n : nat) (s : string) :
  String.length (Str.take n s) = Nat.min n (String.length s).
Proof.
  revert s. induction n as [| n IH]; intros [| x s]; try reflexivity.
  simpl. now rewrite IH.
Qed.

Lemma length_drop (n : nat) (s : string) :
  String.length (Str.drop n s) = String.length s - n.
Proof.
  revert s. induction n as [| n IH]; intros [| x s]; try reflexivity.
  simpl. now rewrite IH.
Qed.

Lemma remove_app (c : ascii) (s t : string) :
  Str.remove c (s ++ t) = Str.remove c s ++ Str.remove c t.
Proof.
  induction s as [| x s IH]; [reflexivity |].
  simpl. destruct (Ascii.eqb x c); simpl; now rewrite IH.
Qed.

Lemma remove_hex (s : string) :
  Str.all Uuid.is_hex s = true -> Str.remove "-" s = s.
Proof.
  induction s as [| x s IH]; [reflexivity |].
  simpl. intros A. apply andb_true_iff in A as [A1 A2].
  destruct (hex_not_special x A1) as [_ [-> _]]. now rewrite (IH A2).
Qed.

Lemma all_remove (s : string) :
  Str.all hex_or_hyphen s = true ->
  Str.all Uuid.is_hex (Str.remove "-" s) = true.
Proof.
  induction s as [| x s IH]; [reflexivity |].
  simpl. intros A. apply andb_true_iff in A as [A1 A2].
  destruct (Ascii.eqb x "-") eqn:E; [now apply IH |].
  unfold hex_or_hyphen in A1. rewrite E, orb_false_r in A1.
  simpl. now rewrite A1, (IH A2).
Qed.

Lemma all_lower (s : string) :
  Str.all hex_or_hyphen (Str.lower s) = Str.all hex_or_hyphen s.
Proof.
  induction s as [| x s IH]; [reflexivity |].
  simpl. unfold hex_or_hyphen at 1 3.
  now rewrite lower_char_hex, lower_char_hyphen, IH.
Qed.

Lemma length_remove_lower (s : string) :
  String.length (Str.remove "-" (Str.lower s))
  = String.length (Str.remove "-" s).
Proof.
  induction s as [| x s IH]; [reflexivity |].
  simpl. rewrite lower_char_hyphen.
  destruct (Ascii.eqb x "-"); simpl; now rewrite IH.
Qed.

Lemma hex_or_hyphen_plain (c : ascii) :
  hex_or_hyphen c = true ->
  Ascii.eqb c "u" = false /\ Str.mem c "{}" = false.
Proof. by_chars c; intros _; split; reflexivity. Qed.

Lemma all_no_u (s : string) :
  Str.all hex_or_hyphen s = true -> Str.mem "u" s = false.
Proof.
  induction s as [| x s IH]; [reflexivity |].
  simpl. intros A. apply andb_true_iff in A as [A1 A2].
  rewrite mem_cons. destruct (hex_or_hyphen_plain x A1) as [-> _].
  now apply IH.
Qed.

(** [replace] leaves a text alone that lacks the first character of what
    it looks for. *)
Lemma replace_absent (o : ascii) (old new s : string) :
  Str.mem o s = false -> Str.replace (String o old) new s = s.
Proof.
  unfold Str.replace. induction s as [| c s IH]; [reflexivity |].
  rewrite mem_cons. intros M. apply orb_false_iff in M as [M1 M2].
  simpl. destruct (Ascii.ascii_dec o c) as [-> | N].
  - now rewrite Ascii.eqb_refl in M1.
  - now rewrite (IH M2).
Qed.

Lemma replace_hyphen (s : string) : Str.replace "-" "" s = Str.remove "-" s.
Proof.
  unfold Str.replace. induction s as [| c s IH]; [reflexivity |].
  change (Str.replace_from 0 "-" "" (String c s))
    with (if (if Ascii.ascii_dec "-" c then String.prefix "" s else false)
          then Str.replace_from 0 "-" "" s
          else String c (Str.replace_from 0 "-" "" s)).
  change (Str.remove "-" (String c s))
    with (if Ascii.eqb c "-" then Str.remove "-" s
          else String c (Str.remove "-" s)).
  destruct (Ascii.ascii_dec "-" c) as [<- | N].
  - replace (String.prefix "" s) with true by now destruct s.
    rewrite Ascii.eqb_refl. exact IH.
  - destruct (Ascii.eqb c "-") eqn:E.
    + apply Ascii.eqb_eq in E. now elim N.
    + now rewrite IH.
Qed.

Lemma lstrip_outside (cs s : string) :
  Str.all (fun c => negb (Str.mem c cs)) s = true -> Str.lstrip cs s = s.
Proof.
  destruct s as [| c s]; [reflexivity |].
  simpl. intros A. apply andb_true_iff in A as [A1 _].
  apply negb_true_iff in A1. now rewrite A1.
Qed.

Lemma rstrip_outside (cs s : string) :
  Str.all (fun c => negb (Str.mem c cs)) s = true -> Str.rstrip cs s = s.
Proof.
  induction s as [| c s IH]; [reflexivity |].
  simpl. intros A. apply andb_true_iff in A as [A1 A2].
  apply negb_true_iff in A1. rewrite (IH A2), A1. now destruct s.
Qed.

Lemma strip_braces (s : string) :
  Str.all hex_or_hyphen s = true -> Str.strip "{}" s = s.
Proof.
  intros A.
  assert (O : Str.all (fun c => negb (Str.mem c "{}")) s = true).
  { apply (all_weaken hex_or_hyphen); [| exact A].
    intros c H. now destruct (hex_or_hyphen_plain c H) as [_ ->]. }
  unfold Str.strip. now rewrite (lstrip_outside _ _ O), (rstrip_outside _ _ O).
Qed.

Lemma is_hex_digit (c : ascii) :
  Uuid.is_hex c = true -> exists d, Str.hex_digit c = Some d /\ (0 <= d < 16)%Z.
Proof.
  unfold Uuid.is_hex. destruct (Str.hex_digit c) as [d |] eqn:E; [| discriminate].
  intros _. exists d. split; [reflexivity |]. exact (hex_digit_range c d E).
Qed.

(** A run of digits is read to its end, and its value is below
    [16 ^ length] when the run starts from 0. *)
Lemma digits_hex (t : string) (acc : Z) :
  Str.all Uuid.is_hex t = true -> (0 <= acc)%Z ->
  exists n,
    Uuid.digits acc false t = Some (n, "")
    /\ (0 <= n < (acc + 1) * 16 ^ Z.of_nat (String.length t))%Z.
Proof.
  revert acc. induction t as [| c t IH]; intros acc A P.
  - exists acc. split; [reflexivity |]. simpl. lia.
  - simpl in A. apply andb_true_iff in A as [A1 A2].
    destruct (is_hex_digit c A1) as [d [D R]].
    destruct (IH (16 * acc + d)%Z A2) as [n [E B]]; [lia |].
    exists n. split.
    + simpl. now rewrite D.
    + change (String.length (String c t)) with (S (String.length t)).
      rewrite Nat2Z.inj_succ, Z.pow_succ_r by lia.
      assert (Q : (0 < 16 ^ Z.of_nat (String.length t))%Z)
        by (apply Z.pow_pos_nonneg; lia).
      nia.
Qed.

Lemma skip_prefix_hex (c x : ascii) (t : string) :
  Uuid.is_hex x = true ->
  Uuid.skip_prefix (String c (String x t)) = String c (String x t).
Proof.
  intros H. destruct (hex_not_special x H) as [_ [_ [_ [X1 [X2 _]]]]].
  by_chars c. simpl. now rewrite X1, X2.
Qed.

Lemma skip_sign_hex (c : ascii) (t : string) :
  Uuid.is_hex c = true -> Uuid.skip_sign (String c t) = (false, String c t).
Proof. by_chars c. Qed.

(** [int(t, 16)] for two digits or more. *)
Lemma int16_hex (c x : ascii) (t : string) :
  Str.all Uuid.is_hex (String c (String x t)) = true ->
  exists n,
    Uuid.int16 (String c (String x t)) = Some n
    /\ (0 <= n < 16 ^ Z.of_nat (String.length (String c (String x t))))%Z.
Proof.
  intros A. pose proof A as A'.
  simpl in A'. apply andb_true_iff in A' as [Hc A'].
  apply andb_true_iff in A' as [Hx _].
  destruct (digits_hex _ 0%Z A) as [n [E B]]; [lia |].
  exists n. split; [| lia].
  unfold Uuid.int16.
  assert (S : Uuid.skip_space (String c (String x t)) = String c (String x t)).
  { simpl. now destruct (hex_not_special c Hc) as [-> _]. }
  rewrite S, (skip_sign_hex c _ Hc), (skip_prefix_hex c x t Hx).
  destruct (is_hex_digit c Hc) as [d [-> _]]. now rewrite E.
Qed.

(** The two fields the constructor sets, whatever the number it starts
    from. *)
Lemma fields_set (int version : Z) :
  (1 <= version <= 5)%Z ->
  let int' :=
    Z.lor (Z.land (Z.lor (Z.land int (Z.lnot (Z.shiftl 0xc000 48)))
                         (Z.shiftl 0x8000 48))
                  (Z.lnot (Z.shiftl 0xf000 64)))
          (Z.shiftl version 76) in
  Uuid.version_of int' = version /\ Uuid.variant_bits int' = 2%Z.
Proof.
  intros V int'. split.
  - unfold Uuid.version_of. apply Z.bits_inj'. intros i Hi.
    rewrite Z.land_spec, Z.shiftr_spec by lia.
    destruct (Z.ltb_spec i 4) as [L | G].
    + unfold int'.
      rewrite Z.lor_spec, Z.land_spec, Z.lnot_spec, !Z.shiftl_spec by lia.
      replace (i + 76 - 76)%Z with i by lia.
      assert (C : i = 0%Z \/ i = 1%Z \/ i = 2%Z \/ i = 3%Z) by lia.
      destruct C as [-> | [-> | [-> | ->]]]; simpl;
        now rewrite andb_false_r, andb_true_r.
    + assert (F : forall a, (0 <= a < 16)%Z -> Z.testbit a i = false).
      { intros a Ra. destruct (Z.eq_dec a 0) as [-> | N].
        - apply Z.testbit_0_l.
        - apply Z.bits_above_log2; [lia |].
          assert (Z.log2 a < 4)%Z by (apply Z.log2_lt_pow2; simpl; lia).
          lia. }
      rewrite (F 15%Z), (F version) by lia. apply andb_false_r.
  - unfold Uuid.variant_bits. apply Z.bits_inj'. intros i Hi.
    rewrite Z.land_spec, Z.shiftr_spec by lia.
    destruct (Z.ltb_spec i 2) as [L | G].
    + unfold int'.
      rewrite !Z.lor_spec, !Z.land_spec, !Z.lnot_spec, !Z.lor_spec,
        !Z.land_spec, !Z.lnot_spec, !Z.shiftl_spec by lia.
      assert (C : i = 0%Z \/ i = 1%Z) by lia.
      destruct C as [-> | ->]; simpl;
        rewrite ?andb_false_r, ?andb_true_r, ?orb_false_r, ?orb_true_r;
        reflexivity.
    + replace (Z.testbit 3 i) with false.
      * rewrite andb_false_r. symmetry.
        apply Z.bits_above_log2; [lia | simpl; lia].
      * symmetry. apply Z.bits_above_log2; [lia | simpl; lia].
Qed.

(** A text of digits and hyphens with 32 digits is accepted by the
    constructor, for every version it knows, and the version asked for
    only sets the field. *)
Lemma UUID_digits (s : string) :
  Str.all hex_or_hyphen s = true ->
  String.length (Str.remove "-" s) = 32 ->
  exists n,
    (0 <= n < 2 ^ 128)%Z
    /\ Uuid.UUID s None = Ok n
    /\ forall version,
        (1 <= version <= 5)%Z ->
        Uuid.UUID s (Some version)
        = Ok (Z.lor (Z.land (Z.lor (Z.land n (Z.lnot (Z.shiftl 0xc000 48)))
                                   (Z.shiftl 0x8000 48))
                            (Z.lnot (Z.shiftl 0xf000 64)))
                    (Z.shiftl version 76)).
Proof.
  intros A L.
  pose proof (all_no_u s A) as M.
  pose proof (all_remove s A) as H.
  destruct (Str.remove "-" s) as [| c [| x t]] eqn:R; try discriminate.
  destruct (int16_hex c x t H) as [n [E B]].
  rewrite L in B. change (16 ^ Z.of_nat 32)%Z with (2 ^ 128)%Z in B.
  assert (U : forall version,
             Uuid.UUID s version
             = match version with
               | None => Ok n
               | Some version =>
                   if negb ((1 <=? version) && (version <=? Uuid.max_version))%Z
                   then Raise (ValueError "illegal version number")
                   else
                     Ok (Z.lor (Z.land (Z.lor (Z.land n (Z.lnot (Z.shiftl 0xc000 48)))
                                              (Z.shiftl 0x8000 48))
                                       (Z.lnot (Z.shiftl 0xf000 64)))
                               (Z.shiftl version 76))
               end).
  { intros version. unfold Uuid.UUID. cbv zeta.
    rewrite (replace_absent "u" "rn:" "" s M).
    rewrite (replace_absent "u" "uid:" "" s M).
    rewrite (strip_braces s A), replace_hyphen, R, L, E.
    change (Z.shiftl 1 128) with (2 ^ 128)%Z.
    replace ((0 <=? n)%Z && (n <? 2 ^ 128)%Z) with true; [reflexivity |].
    symmetry. apply andb_true_iff. split; [apply Z.leb_le | apply Z.ltb_lt]; lia. }
  exists n. split; [exact B |]. split; [exact (U None) |].
  intros version V. rewrite (U (Some version)).
  replace ((1 <=? version)%Z && (version <=? Uuid.max_version)%Z) with true;
    [reflexivity |].
  symmetry. apply andb_true_iff. unfold Uuid.max_version.
  split; apply Z.leb_le; lia.
Qed.

(** [n] digits at the start: the text is the digits and what follows. *)
Lemma hex_run_spec (n : nat) (s r : string) :
  Uuid.hex_run n s = Some r ->
  exists h, s = h ++ r /\ Str.all Uuid.is_hex h = true /\ String.length h = n.
Proof.
  revert s. induction n as [| n IH]; intros s.
  - intros [= ->]. now exists "".
  - destruct s as [| c s]; [discriminate |]. simpl.
    destruct (Uuid.is_hex c) eqn:C; [| discriminate].
    intros E. destruct (IH s E) as [h [-> [A L]]].
    exists (String c h). simpl. now rewrite C, A, L.
Qed.

Lemma hex_groups_spec (groups : list nat) (s : string) :
  Uuid.hex_groups groups s = true ->
  Str.all hex_or_hyphen s = true
  /\ String.length (Str.remove "-" s) = list_sum groups.
Proof.
  revert s. induction groups as [| n rest IH]; intros s; [discriminate |].
  simpl. destruct (Uuid.hex_run n s) as [r |] eqn:E; [| discriminate].
  destruct (hex_run_spec n s r E) as [h [-> [A L]]].
  assert (A' : Str.all hex_or_hyphen h = true).
  { apply (all_weaken Uuid.is_hex); [| exact A].
    intros c C. unfold hex_or_hyphen. now rewrite C. }
  rewrite all_app, remove_app, length_app, A', (remove_hex h A), L.
  destruct rest as [| m rest].
  - destruct r; [| discriminate]. intros _. simpl. split; [reflexivity | lia].
  - destruct r as [| c r]; [discriminate |].
    intros G. apply andb_true_iff in G as [C G].
    destruct (IH r G) as [Ar Lr].
    cbn [Str.all Str.remove]. rewrite C.
    unfold hex_or_hyphen at 1. rewrite C, orb_true_r, Ar, Lr.
    split; [reflexivity |]. simpl. lia.
Qed.

Lemma canonical_digits (s : string) :
  Uuid.canonical s = true ->
  Str.all hex_or_hyphen s = true /\ String.length (Str.remove "-" s) = 32.
Proof. intros C. exact (hex_groups_spec _ s C). Qed.

Lemma hex_of_digits (width : nat) (n : Z) :
  Str.all Uuid.is_hex (Str.hex_of width n) = true
  /\ String.length (Str.hex_of width n) = width.
Proof.
  revert n. induction width as [| w IH]; intros n; [now split |].
  destruct (IH (n / 16)%Z) as [A L].
  simpl. rewrite all_app, length_app, A, L. simpl.
  rewrite hex_char_hex by (apply Z.mod_pos_bound; lia).
  split; [reflexivity | lia].
Qed.

Lemma group_then_hyphen (h r : string) :
  Str.all Uuid.is_hex h = true ->
  Str.all hex_or_hyphen (h ++ "-" ++ r) = Str.all hex_or_hyphen r
  /\ Str.remove "-" (h ++ "-" ++ r) = h ++ Str.remove "-" r.
Proof.
  intros A.
  assert (A' : Str.all hex_or_hyphen h = true).
  { apply (all_weaken Uuid.is_hex); [| exact A].
    intros c C. unfold hex_or_hyphen. now rewrite C. }
  rewrite all_app, remove_app, A', (remove_hex h A). now split.
Qed.

(** The text of a UUID is digits and hyphens, with 32 digits. *)
Lemma str_digits (int : Z) :
  Str.all hex_or_hyphen (Uuid.str int) = true
  /\ String.length (Str.remove "-" (Uuid.str int)) = 32.
Proof.
  unfold Uuid.str. cbv zeta.
  destruct (hex_of_digits 32 int) as [A L].
  set (hex := Str.hex_of 32 int) in *.
  pose proof (all_take _ 8 hex A) as A1.
  pose proof (all_take _ 4 _ (all_drop _ 8 hex A)) as A2.
  pose proof (all_take _ 4 _ (all_drop _ 12 hex A)) as A3.
  pose proof (all_take _ 4 _ (all_drop _ 16 hex A)) as A4.
  pose proof (all_drop _ 20 hex A) as A5.
  destruct (group_then_hyphen _ (Str.take 4 (Str.drop 8 hex) ++ "-"
              ++ Str.take 4 (Str.drop 12 hex) ++ "-"
              ++ Str.take 4 (Str.drop 16 hex) ++ "-" ++ Str.drop 20 hex) A1)
    as [-> ->].
  destruct (group_then_hyphen _ (Str.take 4 (Str.drop 12 hex) ++ "-"
              ++ Str.take 4 (Str.drop 16 hex) ++ "-" ++ Str.drop 20 hex) A2)
    as [-> ->].
  destruct (group_then_hyphen _ (Str.take 4 (Str.drop 16 hex) ++ "-"
              ++ Str.drop 20 hex) A3) as [-> ->].
  destruct (group_then_hyphen _ (Str.drop 20 hex) A4) as [-> ->].
  rewrite (remove_hex _ A5), !length_app, !length_take, !length_drop, L.
  split; [| reflexivity].
  apply (all_weaken Uuid.is_hex); [| exact A5].
  intros c C. unfold hex_or_hyphen. now rewrite C.
Qed.

(** The constructor raises nothing but [ValueError]. *)
Lemma UUID_raises (hex : string) (version : option Z) (e : exn) :
  Uuid.UUID hex version = Raise e -> is_ValueError e = true.
Proof.
  unfold Uuid.UUID. cbv zeta.
  repeat match goal with
         | |- context [if ?b then _ else _] => destruct b
         | |- context [match ?x with _ => _ end] => destruct x
         end;
    intros [= <-]; reflexivity.
Qed.

Lemma validate_uuid_string_digits {A : Type} `{Stringable A}
      (uuid_obj : A) (uuid_version : Z) :
  Str.all hex_or_hyphen (py_str uuid_obj) = true ->
  String.length (Str.remove "-" (py_str uuid_obj)) = 32 ->
  (1 <= uuid_version <= 5)%Z ->
  validate_uuid_string uuid_obj uuid_version = Ok true
  /\ exists n,
      Uuid.UUID (Str.lower (py_str uuid_obj)) None = Ok n
      /\ Uuid.UUID (Str.lower (py_str uuid_obj)) (Some uuid_version)
         = Ok (Z.lor (Z.land (Z.lor (Z.land n (Z.lnot (Z.shiftl 0xc000 48)))
                                    (Z.shiftl 0x8000 48))
                             (Z.lnot (Z.shiftl 0xf000 64)))
                     (Z.shiftl uuid_version 76)).
Proof.
  intros A0 L V.
  destruct (UUID_digits (Str.lower (py_str uuid_obj))) as [n [_ [U0 U]]].
  - now rewrite all_lower.
  - now rewrite length_remove_lower.
  - unfold validate_uuid_string. cbv zeta. rewrite (U uuid_version V).
    split; [reflexivity |]. now exists n.
Qed.

(** C8. For every value with a string form and every integer version,
    [validate_uuid_string] returns and does not raise: it returns [True]
    exactly when the lower-cased string form is accepted by
    [uuid.UUID(..., version=uuid_version)], and [False] exactly when the
    constructor raises [ValueError]. It returns [False] on ["not-a-uuid"],
    and [True] on the text of every UUID that [uuid.uuid4()] makes, whatever
    the 128 random bits. *)
Theorem validate_uuid_string_never_raises {A : Type} `{Stringable A}
        (uuid_obj : A) (uuid_version : Z) :
  (exists b,
      validate_uuid_string uuid_obj uuid_version = Ok b
      /\ (b = true <->
          exists int,
            Uuid.UUID (Str.lower (py_str uuid_obj)) (Some uuid_version) = Ok int)
      /\ (b = false <->
          exists msg,
            Uuid.UUID (Str.lower (py_str uuid_obj)) (Some uuid_version)
            = Raise (ValueError msg)))
  /\ validate_uuid_string "not-a-uuid" default_uuid_version = Ok false
  /\ (forall random,
         (0 <= random < 2 ^ 128)%Z ->
         validate_uuid_string (Uuid.str (Uuid.uuid4 random)) default_uuid_version
         = Ok true).
Proof.
  split; [| split].
  - unfold validate_uuid_string. cbv zeta.
    destruct (Uuid.UUID (Str.lower (py_str uuid_obj)) (Some uuid_version))
      as [int | e] eqn:U.
    + exists true. split; [reflexivity |]. split.
      * split; [intros _; now exists int | reflexivity].
      * split; [discriminate | intros [msg E]; discriminate].
    + pose proof (UUID_raises _ _ _ U) as V.
      destruct e as [msg | | | | |]; try discriminate.
      exists false. split; [reflexivity |]. split.
      * split; [discriminate | intros [int E]; discriminate].
      * split; [intros _; now exists msg | reflexivity].
  - reflexivity.
  - intros random _.
    destruct (str_digits (Uuid.uuid4 random)) as [A0 L].
    apply (validate_uuid_string_digits (Uuid.str (Uuid.uuid4 random)) 4 A0 L).
    unfold default_uuid_version. lia.
Qed.

(** The theorem on the UUID made from the random bits 0x0123...cdef. *)
Lemma validate_uuid_string_never_raises_witness :
  Uuid.str (Uuid.uuid4 0x0123456789abcdef0123456789abcdef)
  = "01234567-89ab-4def-8123-456789abcdef"
  /\ validate_uuid_string
       (Uuid.str (Uuid.uuid4 0x0123456789abcdef0123456789abcdef))
       default_uuid_version
     = Ok true.
Proof.
  split; [reflexivity |].
  apply (proj2 (proj2 (validate_uuid_string_never_raises "not-a-uuid" 4))).
  split; [discriminate | reflexivity].
Defined.

(** C10. With the default [uuid_version=4], [validate_uuid_string] returns
    [True] on every text of the form 8-4-4-4-12 base-16 digits, in either
    case of the letters, whatever its version and variant digits: where
    [uuid.UUID(text)] gives the integer [n], with the fields as written,
    [uuid.UUID(text, version=4)] gives [n] with the variant set to RFC 4122
    and the version set to 4, and raises nothing. The all-zero UUID, of
    version 0, is accepted. *)
Theorem validate_uuid_string_ignores_version (uuid_string : string) :
  (Uuid.canonical uuid_string = true ->
   validate_uuid_string uuid_string default_uuid_version = Ok true
   /\ exists n,
       Uuid.UUID (Str.lower uuid_string) None = Ok n
       /\ Uuid.UUID (Str.lower uuid_string) (Some default_uuid_version)
          = Ok (Uuid.uuid4 n)
       /\ Uuid.version_of (Uuid.uuid4 n) = 4%Z
       /\ Uuid.variant_bits (Uuid.uuid4 n) = 2%Z)
  /\ Uuid.canonical Uuid.nil = true
  /\ Uuid.UUID Uuid.nil None = Ok 0%Z
  /\ Uuid.version_of 0 = 0%Z
  /\ validate_uuid_string Uuid.nil default_uuid_version = Ok true.
Proof.
  split; [| repeat split; reflexivity].
  intros C. destruct (canonical_digits uuid_string C) as [A0 L].
  destruct (validate_uuid_string_digits uuid_string 4 A0 L) as [V [n [U0 U]]];
    [lia |].
  split; [exact V |]. exists n. split; [exact U0 |]. split; [exact U |].
  apply (fields_set n 4). lia.
Qed.

(** The theorem on a version-1 UUID, the DNS name space of RFC 4122. *)
Lemma validate_uuid_string_ignores_version_witness :
  Uuid.UUID "6ba7b810-9dad-11d1-80b4-00c04fd430c8" None
  = Ok 0x6ba7b8109dad11d180b400c04fd430c8%Z
  /\ Uuid.version_of 0x6ba7b8109dad11d180b400c04fd430c8 = 1%Z
  /\ validate_uuid_string "6ba7b810-9dad-11d1-80b4-00c04fd430c8"
                          default_uuid_version
     = Ok true.
Proof.
  split; [reflexivity |]. split; [reflexivity |].
  exact (proj1 (proj1 (validate_uuid_string_ignores_version
                         "6ba7b810-9dad-11d1-80b4-00c04fd430c8") eq_refl)).
Defined.

(** * Further properties *)

(** ** [get_option_value_from_args]: the cases at work, and the spelling of
       the option name *)

(** X1. On an args object that carries the two attributes of the option:
    a non-empty text on the raw-value flag is decoded, whatever the file
    flag holds; without it, the text of a file that is not empty is
    decoded; with neither, and with an empty file, the function raises the
    error that no parameter was provided when [error_on_no_value] holds and
    returns [None] otherwise.  Decoding a text that is not JSON raises
    [ValueError] under the option's name, and a decoded value that is
    falsy counts as no value. *)
Theorem get_option_value_from_args_by_case
        (json_loads : string -> result pyval)
        (args : Namespace pyobj) (option_name : string) (error_on_no_value : bool)
        (raw_arg file_arg : pyobj) :
  getattr args (Str.replace "-" "_" option_name) = Ok raw_arg ->
  getattr args (Str.replace "-" "_" option_name ++ "_file") = Ok file_arg ->
  (truthy raw_arg = false -> truthy file_arg = false ->
   get_option_value_from_args json_loads args option_name error_on_no_value
   = if error_on_no_value then Raise (no_parameter_error option_name) else Ok PNone)
  /\ (forall raw, raw_arg = Val (PStr raw) -> raw <> "" ->
        get_option_value_from_args json_loads args option_name error_on_no_value
        = outcome_of_text json_loads option_name raw error_on_no_value)
  /\ (forall text, truthy raw_arg = false -> file_arg = File text -> text <> "" ->
        get_option_value_from_args json_loads args option_name error_on_no_value
        = outcome_of_text json_loads option_name text error_on_no_value)
  /\ (truthy raw_arg = false -> file_arg = File "" ->
      get_option_value_from_args json_loads args option_name error_on_no_value
      = if error_on_no_value then Raise (no_parameter_error option_name) else Ok PNone)
  /\ (forall text ex,
         json_loads text = Raise (ValueError ex) ->
         outcome_of_text json_loads option_name text error_on_no_value
         = Raise (ValueError ("Error while parsing "
                                ++ Str.replace "_" " " (Str.replace "-" "_" option_name)
                                ++ " JSON: " ++ ex)))
  /\ (forall text v,
         json_loads text = Ok v ->
         outcome_of_text json_loads option_name text error_on_no_value
         = if negb (truthy v) && error_on_no_value
           then Raise (no_parameter_error option_name)
           else Ok v).
Proof.
  intros Hr Hf.
  destruct (get_option_value_from_args_cases json_loads args option_name
              error_on_no_value raw_arg file_arg Hr Hf) as [C1 [C2 [C3 C4]]].
  repeat (split; [assumption |]).
  split; intros text x E; unfold outcome_of_text; now rewrite E.
Qed.

(** The theorem on the command line [--destination-environment '[1]']:
    the text of the raw-value flag is decoded. *)
Lemma get_option_value_from_args_by_case_witness :
  get_option_value_from_args Json.loads
    [("destination_environment", Val (PStr "[1]"));
     ("destination_environment_file", Val PNone)]
    "destination-environment" true
  = Ok (PList [PInt 1]).
Proof.
  exact (proj1 (proj2 (get_option_value_from_args_by_case Json.loads
                         [("destination_environment", Val (PStr "[1]"));
                          ("destination_environment_file", Val PNone)]
                         "destination-environment" true
                         (Val (PStr "[1]")) (Val PNone) eq_refl eq_refl))
               "[1]" eq_refl ltac:(discriminate)).
Defined.

(** [s.replace(a, b)] for two characters, one character at a time. *)
Lemma replace_char (a b c : ascii) (s : string) :
  Str.replace (String a "") (String b "") (String c s)
  = String (if Ascii.eqb c a then b else c)
           (Str.replace (String a "") (String b "") s).
Proof.
  unfold Str.replace.
  change (Str.replace_from 0 (String a "") (String b "") (String c s))
    with (if (if Ascii.ascii_dec a c then String.prefix "" s else false)
          then String b (Str.replace_from 0 (String a "") (String b "") s)
          else String c (Str.replace_from 0 (String a "") (String b "") s)).
  destruct (Ascii.ascii_dec a c) as [<- | N].
  - replace (String.prefix "" s) with true by now destruct s.
    now rewrite Ascii.eqb_refl.
  - destruct (Ascii.eqb c a) eqn:E; [| reflexivity].
    apply Ascii.eqb_eq in E. now elim N.
Qed.

(** Turning hyphens into underscores undoes the opposite change, and
    doing it twice changes nothing more. *)
Lemma replace_hyphen_underscore (s : string) :
  Str.replace "-" "_" (Str.replace "_" "-" s) = Str.replace "-" "_" s
  /\ Str.replace "-" "_" (Str.replace "-" "_" s) = Str.replace "-" "_" s.
Proof.
  induction s as [| c s [IH1 IH2]]; [now split |].
  rewrite !replace_char.
  destruct (Ascii.eqb c "_") eqn:E1.
  - apply Ascii.eqb_eq in E1. subst c. simpl. now rewrite IH1, IH2.
  - destruct (Ascii.eqb c "-") eqn:E2; rewrite ?E1, ?E2, IH1, IH2;
      simpl; split; reflexivity.
Qed.

(** X2. [get_option_value_from_args] takes the option name in either
    spelling: with hyphens turned into underscores, or underscores into
    hyphens, the call reads the same two attributes, and returns or raises
    the same, error messages included. *)
Theorem get_option_value_from_args_spelling
        (json_loads : string -> result pyval) (args : Namespace pyobj)
        (option_name : string) (error_on_no_value : bool) :
  get_option_value_from_args json_loads args (Str.replace "_" "-" option_name)
                             error_on_no_value
  = get_option_value_from_args json_loads args option_name error_on_no_value
  /\ get_option_value_from_args json_loads args (Str.replace "-" "_" option_name)
                                error_on_no_value
     = get_option_value_from_args json_loads args option_name error_on_no_value.
Proof.
  destruct (replace_hyphen_underscore option_name) as [E1 E2].
  unfold get_option_value_from_args. cbv zeta. now rewrite E1, E2.
Qed.

(** ** [get_storage_mappings_dict_from_args]: an args object that lacks an
       attribute *)

(** X3. The three attributes are read in the order
    [default_storage_backend], [disk_storage_mappings],
    [storage_backend_mappings], and the first that the args object lacks
    raises [AttributeError] with its name; the function returns a dict
    exactly when the object has the three of them. *)
Theorem get_storage_mappings_dict_missing_attribute {A : Type} `{Truthy A}
        (args : Namespace A) :
  (Dict.get "default_storage_backend" args = None ->
   get_storage_mappings_dict_from_args args
   = Raise (AttributeError "default_storage_backend"))
  /\ (Dict.get "default_storage_backend" args <> None ->
      Dict.get "disk_storage_mappings" args = None ->
      get_storage_mappings_dict_from_args args
      = Raise (AttributeError "disk_storage_mappings"))
  /\ (Dict.get "default_storage_backend" args <> None ->
      Dict.get "disk_storage_mappings" args <> None ->
      Dict.get "storage_backend_mappings" args = None ->
      get_storage_mappings_dict_from_args args
      = Raise (AttributeError "storage_backend_mappings"))
  /\ ((exists sm, get_storage_mappings_dict_from_args args = Ok sm) <->
      Dict.get "default_storage_backend" args <> None
      /\ Dict.get "disk_storage_mappings" args <> None
      /\ Dict.get "storage_backend_mappings" args <> None).
Proof.
  unfold get_storage_mappings_dict_from_args, getattr.
  destruct (Dict.get "default_storage_backend" args) as [d |];
    destruct (Dict.get "disk_storage_mappings" args) as [k |];
    destruct (Dict.get "storage_backend_mappings" args) as [b |];
    simpl; (split; [| split; [| split; [| split]]]);
    try (intros; congruence);
    try (intros _; repeat split; discriminate);
    try (intros _; now eexists);
    try (intros [sm E]; discriminate);
    try (intros [N1 [N2 N3]]; congruence).
Qed.

(** The theorem on an args object from a parser that only has
    [--default-storage-backend]. *)
Lemma get_storage_mappings_dict_missing_attribute_witness :
  get_storage_mappings_dict_from_args
    [("default_storage_backend", PStr "lvm")]
  = Raise (AttributeError "disk_storage_mappings").
Proof.
  apply (proj1 (proj2 (get_storage_mappings_dict_missing_attribute
                         [("default_storage_backend", PStr "lvm")]))).
  - discriminate.
  - reflexivity.
Defined.

(** ** [parse_storage_mappings]: lists that are null, elements that lack a
       key *)

Lemma dict_comprehension_app (key value : string) (l1 l2 : list pyval)
      (acc : Dict.t pykey pyval) :
  dict_comprehension key value (l1 ++ l2)%list acc
  = (d <- dict_comprehension key value l1 acc ;;
     dict_comprehension key value l2 d).
Proof.
  revert acc. induction l1 as [| mapping l1 IH]; intros acc; [reflexivity |].
  simpl. destruct (getitem mapping key) as [k |]; [| reflexivity].
  simpl. destruct (getitem mapping value) as [v |]; [| reflexivity].
  simpl. destruct (hashable k) as [k' |]; [| reflexivity].
  simpl. apply IH.
Qed.

(** X4. The default [[]] of [storage_mappings.get(..., [])] stands in for a
    key that is missing, not for a key that is there with the value
    [None]: a storage mapping whose [backend_mappings] is null raises
    [TypeError], and so does one whose [backend_mappings] is missing or
    well formed and whose [disk_mappings] is null. *)
Theorem parse_storage_mappings_null_list (entries : Dict.t string pyval) :
  (Dict.get "backend_mappings" entries = Some PNone ->
   parse_storage_mappings (PDict entries)
   = Raise (TypeError "'NoneType' object is not iterable"))
  /\ (forall (backend : list pyval) (bpairs : list (pykey * pyval)),
         list_field "backend_mappings" entries backend ->
         Forall2 (mapping_entry "source" "destination") backend bpairs ->
         Dict.get "disk_mappings" entries = Some PNone ->
         parse_storage_mappings (PDict entries)
         = Raise (TypeError "'NoneType' object is not iterable")).
Proof.
  split.
  - intros E. unfold parse_storage_mappings. simpl. now rewrite E.
  - intros backend bpairs Lb Fb E. unfold parse_storage_mappings.
    pose proof (list_field_iter _ _ _ Lb) as Ib.
    destruct (get_method (PDict entries) "backend_mappings" (PList [])) as [b |];
      [| discriminate].
    simpl in Ib. rewrite bind_Ok, Ib, bind_Ok.
    rewrite (dict_comprehension_pairs _ _ _ _ _ Fb), bind_Ok.
    simpl. now rewrite E.
Qed.

(** The theorem on the storage mappings [{"default": "lvm",
    "backend_mappings": null}]. *)
Lemma parse_storage_mappings_null_list_witness :
  parse_storage_mappings
    (PDict [("default", PStr "lvm"); ("backend_mappings", PNone)])
  = Raise (TypeError "'NoneType' object is not iterable").
Proof.
  exact (proj1 (parse_storage_mappings_null_list
                  [("default", PStr "lvm"); ("backend_mappings", PNone)])
               eq_refl).
Defined.

(** X5. An element of [backend_mappings] that is a dict without [source],
    or with [source] and without [destination], raises [KeyError] with
    that key when the elements before it are well formed; the elements
    after it, [disk_mappings] and [default] are not looked at. *)
Theorem parse_storage_mappings_missing_key
        (entries m : Dict.t string pyval) (good rest : list pyval)
        (pairs : list (pykey * pyval)) :
  Dict.get "backend_mappings" entries = Some (PList (good ++ PDict m :: rest)%list) ->
  Forall2 (mapping_entry "source" "destination") good pairs ->
  (Dict.get "source" m = None ->
   parse_storage_mappings (PDict entries) = Raise (KeyError "source"))
  /\ (Dict.get "source" m <> None -> Dict.get "destination" m = None ->
      parse_storage_mappings (PDict entries) = Raise (KeyError "destination")).
Proof.
  intros E F.
  assert (P : parse_storage_mappings (PDict entries)
              = (backend_mappings <-
                   dict_comprehension "source" "destination"
                     [PDict m] (Dict.of_pairs pairs) ;;
                 backend_mappings <-
                   dict_comprehension "source" "destination" rest backend_mappings ;;
                 disk <- get_method (PDict entries) "disk_mappings" (PList []) ;;
                 disk <- py_iter disk ;;
                 disk_mappings <-
                   dict_comprehension "disk_id" "destination" disk Dict.empty ;;
                 default <- get_method (PDict entries) "default" PNone ;;
                 Ok (default, backend_mappings, disk_mappings))).
  { unfold parse_storage_mappings. simpl get_method. rewrite E, !bind_Ok.
    simpl py_iter. rewrite bind_Ok.
    change (PDict m :: rest) with ([PDict m] ++ rest)%list.
    rewrite dict_comprehension_app, (dict_comprehension_pairs _ _ _ _ _ F).
    rewrite bind_Ok, dict_comprehension_app. unfold Dict.of_pairs.
    destruct (dict_comprehension "source" "destination" [PDict m]
                (fold_left (fun d kv => Dict.set (fst kv) (snd kv) d) pairs Dict.empty))
      as [d |]; reflexivity. }
  rewrite P. split.
  - intros S. simpl. now rewrite S.
  - intros S D. simpl. destruct (Dict.get "source" m) as [k |]; [| now elim S].
    simpl. now rewrite D.
Qed.

(** The theorem on a list whose second element has no [destination]. *)
Lemma parse_storage_mappings_missing_key_witness :
  parse_storage_mappings
    (PDict [("backend_mappings",
             PList [PDict [("source", PStr "a"); ("destination", PStr "b")];
                    PDict [("source", PStr "c")]])])
  = Raise (KeyError "destination").
Proof.
  refine (proj2 (parse_storage_mappings_missing_key
                   [("backend_mappings",
                     PList [PDict [("source", PStr "a"); ("destination", PStr "b")];
                            PDict [("source", PStr "c")]])]
                   [("source", PStr "c")]
                   [PDict [("source", PStr "a"); ("destination", PStr "b")]]
                   [] [(KStr "a", PStr "b")] eq_refl _) _ eq_refl).
  - constructor; [| constructor].
    exists [("source", PStr "a"); ("destination", PStr "b")], (PStr "a").
    repeat split.
  - discriminate.
Defined.

(** ** [compose_user_scripts]: what the result holds, and when there is one *)

Section UserScriptsResult.

Variable OS_LIST : list string.
Variable fs : filesystem.

(** One turn of the first loop, by the shape of the token. *)
Lemma compose_global_cons (tok : string) (rest : list string)
      (ret : Dict.t string string) :
  (Str.mem "=" tok = false
   /\ compose_global OS_LIST fs (tok :: rest) ret = compose_global OS_LIST fs rest ret)
  \/ exists os path,
      tok = os ++ "=" ++ path /\ Str.mem "=" os = false
      /\ compose_global OS_LIST fs (tok :: rest) ret
         = if Str.in_list os OS_LIST
           then match fs path with
                | Some text => compose_global OS_LIST fs rest (Dict.set os text ret)
                | None => Raise (ValueError ("Could not find " ++ path))
                end
           else Raise (ValueError ("Invalid OS " ++ os ++ ". Available options are: "
                                     ++ Str.join ", " OS_LIST)).
Proof.
  destruct (token_shape "=" tok) as [M | [os [path [-> M]]]].
  - left. split; [exact M |]. simpl. now rewrite (split1_no_sep _ _ M).
  - right. exists os, path. split; [reflexivity |]. split; [exact M |].
    simpl. rewrite (split1_sep _ _ _ M).
    now destruct (Str.in_list os OS_LIST).
Qed.

Lemma compose_instances_cons (tok : string) (rest : list string)
      (ret : Dict.t string string) :
  (Str.mem "=" tok = false
   /\ compose_instances fs (tok :: rest) ret = compose_instances fs rest ret)
  \/ exists inst path,
      tok = inst ++ "=" ++ path /\ Str.mem "=" inst = false
      /\ compose_instances fs (tok :: rest) ret
         = match fs path with
           | Some text => compose_instances fs rest (Dict.set inst text ret)
           | None => Raise (ValueError ("Could not find " ++ path))
           end.
Proof.
  destruct (token_shape "=" tok) as [M | [inst [path [-> M]]]].
  - left. split; [exact M |]. simpl. now rewrite (split1_no_sep _ _ M).
  - right. exists inst, path. split; [reflexivity |]. split; [exact M |].
    simpl. now rewrite (split1_sep _ _ _ M).
Qed.

(** A token has one reading: the key is what stands before its first [=]. *)
Lemma token_key (os os' path path' : string) :
  os ++ "=" ++ path = os' ++ "=" ++ path' ->
  Str.mem "=" os = false -> Str.mem "=" os' = false ->
  os = os' /\ path = path'.
Proof.
  intros E M M'.
  pose proof (split1_sep "=" os path M) as S.
  pose proof (split1_sep "=" os' path' M') as S'.
  change (os ++ String "=" path) with (os ++ "=" ++ path) in S.
  change (os' ++ String "=" path') with (os' ++ "=" ++ path') in S'.
  rewrite E, S' in S. now inversion S.
Qed.

Lemma get_set_string (k k' text : string) (d : Dict.t string string) :
  Dict.get k' (Dict.set k text d)
  = if String.eqb k k' then Some text else Dict.get k' d.
Proof. rewrite (get_set k k' text d). reflexivity. Qed.

Lemma compose_global_stored (gs : list string) (ret r : Dict.t string string) :
  compose_global OS_LIST fs gs ret = Ok r ->
  forall os text,
    Dict.get os r = Some text ->
    Dict.get os ret = Some text
    \/ (Str.in_list os OS_LIST = true
        /\ exists path, In (os ++ "=" ++ path) gs /\ fs path = Some text).
Proof.
  revert ret. induction gs as [| tok gs IH]; intros ret E os text G.
  - injection E as <-. now left.
  - destruct (compose_global_cons tok gs ret)
      as [[M E'] | [os' [path [-> [M E']]]]]; rewrite E' in E.
    + destruct (IH ret E os text G) as [L | [I [p [P F]]]]; [now left |].
      right. split; [exact I |]. exists p. split; [now right | exact F].
    + destruct (Str.in_list os' OS_LIST) eqn:I'; [| discriminate].
      destruct (fs path) as [text' |] eqn:F'; [| discriminate].
      destruct (IH _ E os text G) as [L | [I [p [P F]]]].
      * rewrite get_set_string in L.
        destruct (String.eqb os' os) eqn:Q; [| now left].
        apply String.eqb_eq in Q. subst os'. injection L as <-.
        right. split; [exact I' |]. exists path. split; [now left | exact F'].
      * right. split; [exact I |]. exists p. split; [now right | exact F].
Qed.

Lemma compose_instances_stored (ins : list string) (ret r : Dict.t string string) :
  compose_instances fs ins ret = Ok r ->
  forall inst text,
    Dict.get inst r = Some text ->
    Dict.get inst ret = Some text
    \/ exists path, In (inst ++ "=" ++ path) ins /\ fs path = Some text.
Proof.
  revert ret. induction ins as [| tok ins IH]; intros ret E inst text G.
  - injection E as <-. now left.
  - destruct (compose_instances_cons tok ins ret)
      as [[M E'] | [inst' [path [-> [M E']]]]]; rewrite E' in E.
    + destruct (IH ret E inst text G) as [L | [p [P F]]]; [now left |].
      right. exists p. split; [now right | exact F].
    + destruct (fs path) as [text' |] eqn:F'; [| discriminate].
      destruct (IH _ E inst text G) as [L | [p [P F]]].
      * rewrite get_set_string in L.
        destruct (String.eqb inst' inst) eqn:Q; [| now left].
        apply String.eqb_eq in Q. subst inst'. injection L as <-.
        right. exists path. split; [now left | exact F'].
      * right. exists p. split; [now right | exact F].
Qed.

(** X6. What a result of [compose_user_scripts] holds: every key of
    [global] is in [OS_LIST], and its text is the text of the file that a
    global token with that key names; every text of [instances] is the
    text of the file that an instance token with that key names. Nothing
    else is stored. *)
Theorem compose_user_scripts_stored
        (g i : option (list string)) (r : user_scripts) :
  compose_user_scripts OS_LIST fs g i = Ok r ->
  (forall os text,
      Dict.get os (global r) = Some text ->
      Str.in_list os OS_LIST = true
      /\ exists path, In (os ++ "=" ++ path) (or_empty g) /\ fs path = Some text)
  /\ (forall inst text,
         Dict.get inst (instances r) = Some text ->
         exists path, In (inst ++ "=" ++ path) (or_empty i) /\ fs path = Some text).
Proof.
  unfold compose_user_scripts. cbv zeta. intros E.
  destruct (compose_global OS_LIST fs (or_empty g) Dict.empty) as [gd |] eqn:G;
    [| discriminate].
  rewrite bind_Ok in E.
  destruct (compose_instances fs (or_empty i) Dict.empty) as [idict |] eqn:I;
    [| discriminate].
  rewrite bind_Ok in E. injection E as <-. simpl. split.
  - intros os text L.
    destruct (compose_global_stored _ _ _ G os text L) as [D | H]; [discriminate | exact H].
  - intros inst text L.
    destruct (compose_instances_stored _ _ _ I inst text L) as [D | H];
      [discriminate | exact H].
Qed.

Lemma mem_token (os path : string) : Str.mem "=" (os ++ "=" ++ path) = true.
Proof.
  rewrite mem_app. change ("=" ++ path) with (String "=" path).
  rewrite mem_cons. simpl. apply orb_true_r.
Qed.

Lemma compose_global_Ok (gs : list string) (ret : Dict.t string string) :
  (exists r, compose_global OS_LIST fs gs ret = Ok r) <->
  (forall os path,
      In (os ++ "=" ++ path) gs -> Str.mem "=" os = false ->
      Str.in_list os OS_LIST = true /\ fs path <> None).
Proof.
  revert ret. induction gs as [| tok gs IH]; intros ret.
  - split; [intros _ os path [] | intros _; now exists ret].
  - destruct (compose_global_cons tok gs ret)
      as [[M E] | [os' [path' [-> [M E]]]]]; rewrite E.
    + rewrite IH. split.
      * intros H os path [-> | I] N; [| now apply H].
        now rewrite mem_token in M.
      * intros H os path I N. apply H; [now right | exact N].
    + split.
      * intros [r R] os path I N.
        destruct (Str.in_list os' OS_LIST) eqn:L; [| discriminate].
        destruct (fs path') as [text |] eqn:F; [| discriminate].
        destruct I as [T | I].
        -- destruct (token_key _ _ _ _ T M N) as [<- <-].
           split; [exact L | now rewrite F].
        -- apply (proj1 (IH _) (ex_intro _ r R)); assumption.
      * intros H.
        destruct (H os' path' (or_introl eq_refl) M) as [L F].
        rewrite L. destruct (fs path') as [text |]; [| now elim F].
        apply IH. intros os path I N. apply H; [now right | exact N].
Qed.

Lemma compose_instances_Ok (ins : list string) (ret : Dict.t string string) :
  (exists r, compose_instances fs ins ret = Ok r) <->
  (forall inst path,
      In (inst ++ "=" ++ path) ins -> Str.mem "=" inst = false -> fs path <> None).
Proof.
  revert ret. induction ins as [| tok ins IH]; intros ret.
  - split; [intros _ inst path [] | intros _; now exists ret].
  - destruct (compose_instances_cons tok ins ret)
      as [[M E] | [inst' [path' [-> [M E]]]]]; rewrite E.
    + rewrite IH. split.
      * intros H inst path [-> | I] N; [| exact (H inst path I N)].
        now rewrite mem_token in M.
      * intros H inst path I N. apply (H inst path); [now right | exact N].
    + split.
      * intros [r R] inst path I N.
        destruct (fs path') as [text |] eqn:F; [| discriminate].
        destruct I as [T | I].
        -- destruct (token_key _ _ _ _ T M N) as [<- <-]. now rewrite F.
        -- exact (proj1 (IH _) (ex_intro _ r R) inst path I N).
      * intros H.
        pose proof (H inst' path' (or_introl eq_refl) M) as F.
        destruct (fs path') as [text |]; [| now elim F].
        apply IH. intros inst path I N. apply (H inst path); [now right | exact N].
Qed.


End UserScriptsResult.

(** The theorem on [compose_user_scripts(["linux=/tmp/exists.sh"], None)]. *)
Lemma compose_user_scripts_stored_witness :
  Str.in_list "linux" ["linux"; "windows"] = true
  /\ exists path,
      In ("linux" ++ "=" ++ path) ["linux=/tmp/exists.sh"]
      /\ example_fs path = Some "#!/bin/sh".
Proof.
  exact (proj1 (compose_user_scripts_stored ["linux"; "windows"] example_fs
                  (Some ["linux=/tmp/exists.sh"]) None
                  {| global := [("linux", "#!/bin/sh")]; instances := [] |}
                  eq_refl)
               "linux" "#!/bin/sh" eq_refl).
Defined.

(** ** [validate_uuid_string]: what it lets through *)

(** What the constructor goes by is the text without [urn:], [uuid:],
    surrounding braces and hyphens. *)
Lemma UUID_same_digits (hex hex' : string) (version : option Z) :
  Str.replace "-" "" (Str.strip "{}" (Str.replace "uuid:" "" (Str.replace "urn:" "" hex)))
  = Str.replace "-" "" (Str.strip "{}" (Str.replace "uuid:" "" (Str.replace "urn:" "" hex'))) ->
  Uuid.UUID hex version = Uuid.UUID hex' version.
Proof. unfold Uuid.UUID. cbv zeta. now intros ->. Qed.

Lemma UUID_wrong_length (s : string) (version : option Z) :
  Str.all hex_or_hyphen s = true ->
  String.length (Str.remove "-" s) <> 32 ->
  Uuid.UUID s version = Raise (ValueError "badly formed hexadecimal UUID string").
Proof.
  intros A L. pose proof (all_no_u s A) as M.
  unfold Uuid.UUID. cbv zeta.
  rewrite (replace_absent "u" "rn:" "" s M).
  rewrite (replace_absent "u" "uid:" "" s M).
  rewrite (strip_braces s A), replace_hyphen.
  apply Nat.eqb_neq in L. now rewrite L.
Qed.

Lemma UUID_wrong_version (hex : string) (version : Z) :
  ~ (1 <= version <= 5)%Z ->
  exists msg, Uuid.UUID hex (Some version) = Raise (ValueError msg).
Proof.
  intros V. unfold Uuid.UUID. cbv zeta.
  destruct (negb (String.length _ =? 32)%nat); [now eexists |].
  destruct (Uuid.int16 _) as [int |]; [| now eexists].
  destruct (negb ((0 <=? int)%Z && (int <? Z.shiftl 1 128)%Z)); [now eexists |].
  replace ((1 <=? version)%Z && (version <=? Uuid.max_version)%Z) with false;
    [now eexists |].
  symmetry. apply andb_false_iff. unfold Uuid.max_version.
  destruct (Z.leb_spec 1 version); [right | now left].
  apply Z.leb_gt. lia.
Qed.

(** X8. On a string form made of base-16 digits and hyphens only, in
    either case of the letters, [validate_uuid_string] counts the digits
    and nothing else: it returns [True] exactly when there are 32 of them
    and the version is one of 1 to 5, wherever the hyphens stand and
    however many there are. *)
Theorem validate_uuid_string_counts_digits {A : Type} `{Stringable A}
        (uuid_obj : A) (uuid_version : Z) :
  Str.all hex_or_hyphen (py_str uuid_obj) = true ->
  validate_uuid_string uuid_obj uuid_version
  = Ok ((String.length (Str.remove "-" (py_str uuid_obj)) =? 32)%nat
        && ((1 <=? uuid_version)%Z && (uuid_version <=? 5)%Z)).
Proof.
  intros A0.
  destruct (String.length (Str.remove "-" (py_str uuid_obj)) =? 32)%nat eqn:L.
  - apply Nat.eqb_eq in L.
    destruct ((1 <=? uuid_version)%Z && (uuid_version <=? 5)%Z) eqn:V.
    + apply andb_true_iff in V as [V1 V2].
      apply Z.leb_le in V1, V2.
      apply (validate_uuid_string_digits uuid_obj uuid_version A0 L). lia.
    + destruct (UUID_wrong_version (Str.lower (py_str uuid_obj)) uuid_version)
        as [msg E].
      { apply andb_false_iff in V as [V | V]; apply Z.leb_gt in V; lia. }
      unfold validate_uuid_string. cbv zeta. now rewrite E.
  - apply Nat.eqb_neq in L.
    unfold validate_uuid_string. cbv zeta.
    rewrite UUID_wrong_length; [reflexivity | now rewrite all_lower |].
    now rewrite length_remove_lower.
Qed.

(** The theorem on 32 digits with the hyphens in other places. *)
Lemma validate_uuid_string_counts_digits_witness :
  validate_uuid_string "0123-4567-89AB-CDEF-0123-4567-89ab-cdef-" 4 = Ok true.
Proof.
  exact (validate_uuid_string_counts_digits
           "0123-4567-89AB-CDEF-0123-4567-89ab-cdef-" 4 eq_refl).
Defined.

(** X9. A version that is not one of 1 to 5 makes [validate_uuid_string]
    return [False] on every input, well-formed UUID texts included: the
    constructor rejects the version after it has read the text. *)
Theorem validate_uuid_string_unknown_version {A : Type} `{Stringable A}
        (uuid_obj : A) (uuid_version : Z) :
  ~ (1 <= uuid_version <= 5)%Z ->
  validate_uuid_string uuid_obj uuid_version = Ok false.
Proof.
  intros V.
  destruct (UUID_wrong_version (Str.lower (py_str uuid_obj)) uuid_version V)
    as [msg E].
  unfold validate_uuid_string. cbv zeta. now rewrite E.
Qed.

(** The theorem on the text of a version-1 UUID and the version 0. *)
Lemma validate_uuid_string_unknown_version_witness :
  validate_uuid_string "6ba7b810-9dad-11d1-80b4-00c04fd430c8" 0 = Ok false.
Proof.
  apply (validate_uuid_string_unknown_version
           "6ba7b810-9dad-11d1-80b4-00c04fd430c8" 0).
  intros [L _]. now apply L.
Defined.

Lemma lower_app (s t : string) : Str.lower (s ++ t) = Str.lower s ++ Str.lower t.
Proof. induction s as [| c s IH]; [reflexivity |]. simpl. now rewrite IH. Qed.

Lemma brace_chars (c : ascii) :
  Str.mem c "{}" = true ->
  Str.lower_char c = c /\ Ascii.eqb c "u" = false /\ Ascii.eqb c "-" = false.
Proof. by_chars c; intros _; repeat split. Qed.

Lemma braces_plain (p : string) :
  Str.all (fun c => Str.mem c "{}") p = true ->
  Str.lower p = p /\ Str.mem "u" p = false /\ Str.remove "-" p = p.
Proof.
  induction p as [| c p IH]; [now repeat split |].
  simpl. intros A. apply andb_true_iff in A as [A1 A2].
  destruct (IH A2) as [L [M R]]. destruct (brace_chars c A1) as [-> [U D]].
  rewrite L, mem_cons, U, M, D, R. now repeat split.
Qed.

Lemma lstrip_inside (cs pre s : string) :
  Str.all (fun c => Str.mem c cs) pre = true ->
  Str.lstrip cs (pre ++ s) = Str.lstrip cs s.
Proof.
  induction pre as [| c pre IH]; [reflexivity |].
  simpl. intros A. apply andb_true_iff in A as [A1 A2]. now rewrite A1, IH.
Qed.

Lemma rstrip_inside (cs s post : string) :
  Str.all (fun c => negb (Str.mem c cs)) s = true ->
  Str.all (fun c => Str.mem c cs) post = true ->
  Str.rstrip cs (s ++ post) = s.
Proof.
  intros A P. induction s as [| c s IH].
  - simpl. induction post as [| x post IHp]; [reflexivity |].
    simpl in *. apply andb_true_iff in P as [P1 P2].
    now rewrite (IHp P2), P1.
  - simpl in *. apply andb_true_iff in A as [A1 A2].
    apply negb_true_iff in A1. rewrite (IH A2), A1. now destruct s.
Qed.

(** A run of braces on either side of digits and hyphens is taken off. *)
Lemma strip_braces_around (pre s post : string) :
  Str.all (fun c => Str.mem c "{}") pre = true ->
  Str.all (fun c => Str.mem c "{}") post = true ->
  Str.all hex_or_hyphen s = true ->
  Str.strip "{}" (pre ++ s ++ post) = s.
Proof.
  intros Pre Post A.
  assert (O : Str.all (fun c => negb (Str.mem c "{}")) s = true).
  { apply (all_weaken hex_or_hyphen); [| exact A].
    intros c H. now destruct (hex_or_hyphen_plain c H) as [_ ->]. }
  unfold Str.strip. rewrite (lstrip_inside _ _ _ Pre).
  destruct s as [| c s].
  - simpl. clear -Post. induction post as [| x post IH]; [reflexivity |].
    simpl in *. apply andb_true_iff in Post as [P1 P2]. rewrite P1. now apply IH.
  - assert (L : Str.lstrip "{}" (String c s ++ post) = String c s ++ post).
    { simpl in O. apply andb_true_iff in O as [O1 _].
      apply negb_true_iff in O1. simpl. now rewrite O1. }
    rewrite L. now apply rstrip_inside.
Qed.

(** The two prefixes of a URN are taken off. *)
Lemma replace_urn_uuid (s : string) :
  Str.mem "u" s = false ->
  Str.replace "uuid:" "" (Str.replace "urn:" "" ("urn:uuid:" ++ s)) = s.
Proof.
  intros M.
  assert (E : Str.replace "urn:" "" ("urn:uuid:" ++ s)
              = "uuid:" ++ Str.replace "urn:" "" s) by reflexivity.
  rewrite E, (replace_absent "u" "rn:" "" s M).
  assert (E' : Str.replace "uuid:" "" ("uuid:" ++ s) = Str.replace "uuid:" "" s)
    by (destruct s; reflexivity).
  rewrite E'. exact (replace_absent "u" "uid:" "" s M).
Qed.

(** X10. Around a text of digits and hyphens, [validate_uuid_string] takes
    no notice of braces, any number of them on either side and balanced or
    not, nor of the prefix [urn:uuid:]: the text is judged as it is without
    them. *)
Theorem validate_uuid_string_braces_and_urn
        (pre post uuid_string : string) (uuid_version : Z) :
  Str.all (fun c => Str.mem c "{}") pre = true ->
  Str.all (fun c => Str.mem c "{}") post = true ->
  Str.all hex_or_hyphen uuid_string = true ->
  validate_uuid_string (pre ++ uuid_string ++ post) uuid_version
  = validate_uuid_string uuid_string uuid_version
  /\ validate_uuid_string ("urn:uuid:" ++ uuid_string) uuid_version
     = validate_uuid_string uuid_string uuid_version.
Proof.
  intros Pre Post A.
  destruct (braces_plain pre Pre) as [Lpre [Mpre _]].
  destruct (braces_plain post Post) as [Lpost [Mpost _]].
  assert (A' : Str.all hex_or_hyphen (Str.lower uuid_string) = true)
    by now rewrite all_lower.
  pose proof (all_no_u _ A') as M.
  assert (C : Str.replace "-" ""
                (Str.strip "{}"
                   (Str.replace "uuid:" ""
                      (Str.replace "urn:" "" (Str.lower uuid_string))))
              = Str.replace "-" "" (Str.lower uuid_string)).
  { rewrite (replace_absent "u" "rn:" "" _ M), (replace_absent "u" "uid:" "" _ M).
    now rewrite (strip_braces _ A'). }
  unfold validate_uuid_string. cbv zeta.
  change (@py_str string _ ?x) with x.
  split.
  - rewrite (UUID_same_digits (Str.lower (pre ++ uuid_string ++ post))
                              (Str.lower uuid_string)); [reflexivity |].
    rewrite C, !lower_app, Lpre, Lpost.
    assert (M' : Str.mem "u" (pre ++ Str.lower uuid_string ++ post) = false)
      by now rewrite !mem_app, Mpre, M, Mpost.
    rewrite (replace_absent "u" "rn:" "" _ M'), (replace_absent "u" "uid:" "" _ M').
    now rewrite (strip_braces_around _ _ _ Pre Post A').
  - rewrite (UUID_same_digits (Str.lower ("urn:uuid:" ++ uuid_string))
                              (Str.lower uuid_string)); [reflexivity |].
    rewrite C, lower_app.
    change (Str.lower "urn:uuid:") with "urn:uuid:".
    now rewrite (replace_urn_uuid _ M), (strip_braces _ A').
Qed.

(** The theorem on a UUID text in braces, and as a URN. *)
Lemma validate_uuid_string_braces_and_urn_witness :
  validate_uuid_string "{6ba7b810-9dad-11d1-80b4-00c04fd430c8}" 4
  = validate_uuid_string "6ba7b810-9dad-11d1-80b4-00c04fd430c8" 4
  /\ validate_uuid_string "urn:uuid:6ba7b810-9dad-11d1-80b4-00c04fd430c8" 4
     = validate_uuid_string "6ba7b810-9dad-11d1-80b4-00c04fd430c8" 4.
Proof.
  exact (validate_uuid_string_braces_and_urn
           "{" "}" "6ba7b810-9dad-11d1-80b4-00c04fd430c8" 4
           eq_refl eq_refl eq_refl).
Defined.

(** ** Registering the options, parsing, and reading the namespace *)

Lemma and_then_Done {A B : Type} (a : A) (k : A -> outcome B) :
  and_then (Done a) k = k a.
Proof. reflexivity. Qed.

Lemma find_app_string {A : Type} (f : A -> bool) (l1 l2 : list A) :
  find f (l1 ++ l2) = match find f l1 with
                      | Some a => Some a
                      | None => find f l2
                      end.
Proof.
  induction l1 as [| a l1 IH]; [reflexivity |].
  simpl. now destruct (f a).
Qed.

(** What a successful [add_argument] did. *)
Lemma add_argument_Done (p p' : Argparse.parser) (grp : option nat)
      (flag : string) (dest : option string) (cls : action_class)
      (ty : arg_type) (help : string) :
  add_argument p grp flag dest cls ty help = Done p' ->
  exists d,
    p' = {| actions := (actions p ++ [{| option_string := flag; dest := d;
                                         kind := cls; type_func := ty;
                                         help := help; group := grp |}])%list;
            groups := groups p |}
    /\ Argparse.lookup p flag = None
    /\ starts_with_dash flag = true
    /\ match dest with
       | Some d' => d = d'
       | None => Str.lstrip "-" flag <> ""
                 /\ d = Str.replace "-" "_" (Str.lstrip "-" flag)
       end.
Proof.
  unfold add_argument.
  destruct (starts_with_dash flag); [| discriminate]. simpl.
  destruct dest as [d' |].
  - simpl. destruct (Argparse.lookup p flag); [discriminate |].
    intros [= <-]. exists d'. now repeat split.
  - destruct (String.eqb (Str.lstrip "-" flag) "") eqn:E; [discriminate |].
    simpl. destruct (Argparse.lookup p flag); [discriminate |].
    intros [= <-]. exists (Str.replace "-" "_" (Str.lstrip "-" flag)).
    repeat split. now apply String.eqb_neq.
Qed.

(** An option is found in the parser it was added to, and the options
    that were there are found as before. *)
Lemma lookup_added (p : Argparse.parser) (a : action) (g : nat) (flag : string) :
  Argparse.lookup {| actions := (actions p ++ [a])%list; groups := g |} flag
  = match Argparse.lookup p flag with
    | Some b => Some b
    | None => if String.eqb (option_string a) flag then Some a else None
    end.
Proof. unfold Argparse.lookup. simpl. now rewrite find_app_string. Qed.

(** The namespace [parse_args] starts from holds [None] under the [dest]
    of every option, and nothing else. *)
Lemma defaults_fold (d : string) (l : list action) (ns : Namespace pyobj) :
  Dict.get d (fold_left (fun ns a =>
                           if Dict.contains (dest a) ns then ns
                           else Dict.set (dest a) (Val PNone) ns) l ns)
  = match Dict.get d ns with
    | Some v => Some v
    | None => if existsb (fun a => String.eqb (dest a) d) l
              then Some (Val PNone) else None
    end.
Proof.
  revert ns. induction l as [| a l IH]; intros ns.
  - simpl. now destruct (Dict.get d ns).
  - simpl. rewrite IH. unfold Dict.contains.
    destruct (Dict.get (dest a) ns) as [v |] eqn:G.
    + destruct (String.eqb (dest a) d) eqn:E; [| reflexivity].
      apply String.eqb_eq in E. subst d. now rewrite G.
    + rewrite (get_set (dest a) d (Val PNone) ns).
      change (Dict.eqb (dest a) d) with (String.eqb (dest a) d).
      destruct (String.eqb (dest a) d) eqn:E; simpl.
      * apply String.eqb_eq in E. subst d. now rewrite G.
      * now destruct (Dict.get d ns).
Qed.

Lemma defaults_get (p : Argparse.parser) (d : string) :
  Dict.get d (defaults p)
  = if existsb (fun a => String.eqb (dest a) d) (actions p)
    then Some (Val PNone) else None.
Proof. unfold defaults. now rewrite defaults_fold. Qed.

Lemma get_set_obj (k k' : string) (v : pyobj) (ns : Namespace pyobj) :
  Dict.get k' (Dict.set k v ns)
  = if String.eqb k k' then Some v else Dict.get k' ns.
Proof. rewrite (get_set k k' v ns). reflexivity. Qed.

Section StorageOptions.

Variable fs : filesystem.
Variables p p' : Argparse.parser.
Hypothesis registered : add_storage_mappings_arguments_to_parser p = Done p'.

(** The three options in the parser. *)
Lemma storage_options_registered :
  exists a1 a2 a3,
    actions p' = (actions p ++ [a1; a2; a3])%list
    /\ Argparse.lookup p' "--default-storage-backend" = Some a1
    /\ Argparse.lookup p' "--disk-storage-mapping" = Some a2
    /\ Argparse.lookup p' "--storage-backend-mapping" = Some a3
    /\ (option_string a1 = "--default-storage-backend"
        /\ dest a1 = "default_storage_backend" /\ kind a1 = Store
        /\ type_func a1 = TypeStr /\ group a1 = None)
    /\ (option_string a2 = "--disk-storage-mapping"
        /\ dest a2 = "disk_storage_mappings" /\ kind a2 = Append
        /\ type_func a2 = TypeFunc "_split_disk_arg" _split_disk_arg
        /\ group a2 = None)
    /\ (option_string a3 = "--storage-backend-mapping"
        /\ dest a3 = "storage_backend_mappings" /\ kind a3 = Append
        /\ type_func a3 = TypeFunc "_split_backend_arg" _split_backend_arg
        /\ group a3 = None).
Proof.
  pose proof registered as R. unfold add_storage_mappings_arguments_to_parser in R.
  destruct (add_argument p None "--default-storage-backend" _ _ _ _)
    as [p1 |] eqn:E1; [| discriminate].
  rewrite and_then_Done in R.
  destruct (add_argument p1 None "--disk-storage-mapping" _ _ _ _)
    as [p2 |] eqn:E2; [| discriminate].
  rewrite and_then_Done in R.
  destruct (add_argument_Done _ _ _ _ _ _ _ _ E1) as [d1 [-> [L1 [_ ->]]]].
  destruct (add_argument_Done _ _ _ _ _ _ _ _ E2) as [d2 [-> [L2 [_ ->]]]].
  destruct (add_argument_Done _ _ _ _ _ _ _ _ R) as [d3 [-> [L3 [_ ->]]]].
  rewrite !lookup_added in L3. rewrite lookup_added in L2.
  destruct (Argparse.lookup p "--disk-storage-mapping") eqn:N2; [discriminate |].
  destruct (Argparse.lookup p "--storage-backend-mapping") eqn:N3; [discriminate |].
  eexists _, _, _. split.
  { cbn [actions]. rewrite <- !app_assoc. reflexivity. }
  rewrite !lookup_added, L1, N2, N3. cbn [option_string].
  change (String.eqb "--default-storage-backend" "--default-storage-backend") with true.
  change (String.eqb "--default-storage-backend" "--disk-storage-mapping") with false.
  change (String.eqb "--default-storage-backend" "--storage-backend-mapping") with false.
  change (String.eqb "--disk-storage-mapping" "--disk-storage-mapping") with true.
  change (String.eqb "--disk-storage-mapping" "--storage-backend-mapping") with false.
  change (String.eqb "--storage-backend-mapping" "--storage-backend-mapping") with true.
  repeat split; reflexivity.
Qed.

Lemma copy_items_list (items : list pyval) :
  copy_items (list_or_none items) = Done items.
Proof. now destruct items. Qed.

Lemma list_or_none_snoc (items : list pyval) (v : pyval) :
  Val (PList (items ++ [v])%list) = list_or_none (items ++ [v])%list.
Proof. now destruct items. Qed.

Lemma consume_storage_options (given : list (string * string)) (rest : list string) :
  forall (ns : Namespace pyobj) (seen : list string) (d : pyobj)
         (disks0 backends0 disks backends : list pyval),
    storage_attributes ns d disks0 backends0 ->
    storage_options_given given ->
    Forall2 (fun v m => _split_disk_arg v = Ok m)
            (values_of "--disk-storage-mapping" given) disks ->
    Forall2 (fun v m => _split_backend_arg v = Ok m)
            (values_of "--storage-backend-mapping" given) backends ->
    exists ns' seen',
      consume fs p' (option_args given ++ rest)%list (ns, seen)
      = consume fs p' rest (ns', seen')
      /\ storage_attributes ns'
           (fold_left (fun _ v => Val (PStr v))
                      (values_of "--default-storage-backend" given) d)
           (disks0 ++ disks)%list (backends0 ++ backends)%list.
Proof.
  destruct storage_options_registered
    as [a1 [a2 [a3 [_ [L1 [L2 [L3 [[O1 [D1 [K1 [T1 G1]]]]
         [[O2 [D2 [K2 [T2 G2]]]] [O3 [D3 [K3 [T3 G3]]]]]]]]]]]]].
  unfold storage_options_given.
  induction given as [| [f v] given IH];
    intros ns seen d disks0 backends0 disks backends I F Fd Fb.
  - inversion Fd. inversion Fb. subst. exists ns, seen. rewrite !app_nil_r.
    split; [reflexivity | exact I].
  - inversion F as [| ? ? [Hf Hv] F']. subst. simpl in Hf, Hv.
    destruct I as [I1 [I2 I3]].
    change (option_args ((f, v) :: given) ++ rest)%list
      with (f :: v :: option_args given ++ rest)%list.
    destruct Hf as [<- | [<- | [<- | []]]].
    + (* --default-storage-backend *)
      cbn [consume starts_with_dash negb]. rewrite L1, Hv.
      unfold take_action, get_value, conflicts. rewrite T1, G1, K1, D1, O1.
      cbn [find and_then].
      destruct (IH (Dict.set "default_storage_backend" (Val (PStr v)) ns)
                   ("--default-storage-backend" :: seen) (Val (PStr v))
                   disks0 backends0 disks backends) as [ns' [seen' [C I']]];
        [| exact F' | exact Fd | exact Fb |].
      { unfold storage_attributes. rewrite !get_set_obj. simpl. now repeat split. }
      exists ns', seen'. split; [exact C | exact I'].
    + (* --disk-storage-mapping *)
      change (values_of "--disk-storage-mapping" ((?f, v) :: given)) with
        (v :: values_of "--disk-storage-mapping" given) in Fd.
      inversion Fd as [| ? m ? disks' Hm Fd']. subst.
      cbn [consume starts_with_dash negb]. rewrite L2, Hv.
      unfold take_action, get_value, conflicts. rewrite T2, G2, K2, D2, O2.
      rewrite (argparse_get_value_Ok _ _ _ _ Hm).
      cbn [find and_then]. unfold getattr_default. rewrite I2, copy_items_list.
      cbn [and_then]. rewrite list_or_none_snoc.
      destruct (IH (Dict.set "disk_storage_mappings"
                             (list_or_none (disks0 ++ [m])) ns)
                   ("--disk-storage-mapping" :: seen) d
                   (disks0 ++ [m])%list backends0 disks' backends)
        as [ns' [seen' [C I']]]; [| exact F' | exact Fd' | exact Fb |].
      { unfold storage_attributes. rewrite !get_set_obj. simpl. now repeat split. }
      exists ns', seen'. split; [exact C |].
      now rewrite <- app_assoc in I'.
    + (* --storage-backend-mapping *)
      change (values_of "--storage-backend-mapping" ((?f, v) :: given)) with
        (v :: values_of "--storage-backend-mapping" given) in Fb.
      inversion Fb as [| ? m ? backends' Hm Fb']. subst.
      cbn [consume starts_with_dash negb]. rewrite L3, Hv.
      unfold take_action, get_value, conflicts. rewrite T3, G3, K3, D3, O3.
      rewrite (argparse_get_value_Ok _ _ _ _ Hm).
      cbn [find and_then]. unfold getattr_default. rewrite I3, copy_items_list.
      cbn [and_then]. rewrite list_or_none_snoc.
      destruct (IH (Dict.set "storage_backend_mappings"
                             (list_or_none (backends0 ++ [m])) ns)
                   ("--storage-backend-mapping" :: seen) d
                   disks0 (backends0 ++ [m])%list disks backends')
        as [ns' [seen' [C I']]]; [| exact F' | exact Fd | exact Fb' |].
      { unfold storage_attributes. rewrite !get_set_obj. simpl. now repeat split. }
      exists ns', seen'. split; [exact C |].
      now rewrite <- app_assoc in I'.
Qed.

(** The strings of such a command line are ones [parse_args] is followed
    on. *)
Lemma storage_options_recognised (given : list (string * string)) :
  storage_options_given given ->
  forallb (recognised p') (option_args given) = true.
Proof.
  destruct storage_options_registered as [a1 [a2 [a3 [_ [L1 [L2 [L3 _]]]]]]].
  unfold storage_options_given.
  induction given as [| [f v] given IH]; [reflexivity |].
  intros F. inversion F as [| ? ? [Hf Hv] F']. subst. simpl in Hf, Hv.
  change (option_args ((f, v) :: given)) with (f :: v :: option_args given).
  cbn [forallb]. rewrite (IH F'). unfold recognised at 2. rewrite Hv.
  cbn [negb orb andb]. rewrite andb_true_r.
  unfold recognised.
  destruct Hf as [<- | [<- | [<- | []]]]; rewrite ?L1, ?L2, ?L3; reflexivity.
Qed.

(** The namespace [parse_args] starts from holds the three attributes, at
    [None]. *)
Lemma storage_defaults :
  storage_attributes (defaults p') (Val PNone) [] [].
Proof.
  destruct storage_options_registered
    as [a1 [a2 [a3 [A [_ [_ [_ [[_ [D1 _]] [[_ [D2 _]] [_ [D3 _]]]]]]]]]]].
  unfold storage_attributes. rewrite !defaults_get, A, !existsb_app.
  cbn [existsb]. rewrite D1, D2, D3. simpl. rewrite !orb_true_r. now repeat split.
Qed.

(** X11. The options of [add_storage_mappings_arguments_to_parser], parsed
    and read back.  On a command line of the three options, each with a
    value, where the converters accept the mapping values: [parse_args]
    returns a namespace in which [default_storage_backend] is the last
    value given to [--default-storage-backend], or [None] without one, and
    [disk_storage_mappings] and [storage_backend_mappings] are the lists of
    the converted values in the order given, or [None] (not the empty list)
    without one; and [get_storage_mappings_dict_from_args] on that
    namespace returns, without [AttributeError], the dict of the ones among
    them that are truthy. *)
Theorem storage_options_parsed
        (given : list (string * string)) (disks backends : list pyval) :
  storage_options_given given ->
  Forall2 (fun v m => _split_disk_arg v = Ok m)
          (values_of "--disk-storage-mapping" given) disks ->
  Forall2 (fun v m => _split_backend_arg v = Ok m)
          (values_of "--storage-backend-mapping" given) backends ->
  exists ns,
    parse_args fs p' (option_args given) = Done ns
    /\ getattr ns "default_storage_backend"
       = Ok (last_or_none (values_of "--default-storage-backend" given))
    /\ getattr ns "disk_storage_mappings" = Ok (list_or_none disks)
    /\ getattr ns "storage_backend_mappings" = Ok (list_or_none backends)
    /\ get_storage_mappings_dict_from_args ns
       = Ok (filter (fun kv => truthy (snd kv))
                    [("default",
                      last_or_none (values_of "--default-storage-backend" given));
                     ("disk_mappings", list_or_none disks);
                     ("backend_mappings", list_or_none backends)]).
Proof.
  intros G Fd Fb.
  destruct (consume_storage_options given [] (defaults p') [] (Val PNone)
              [] [] disks backends storage_defaults G Fd Fb)
    as [ns [seen [C [I1 [I2 I3]]]]].
  rewrite app_nil_r in C. simpl in I2, I3.
  exists ns. unfold parse_args.
  rewrite (storage_options_recognised given G), C.
  split; [reflexivity |].
  assert (A1 : getattr ns "default_storage_backend"
               = Ok (last_or_none (values_of "--default-storage-backend" given))).
  { unfold getattr. now rewrite I1. }
  assert (A2 : getattr ns "disk_storage_mappings" = Ok (list_or_none disks)).
  { unfold getattr. now rewrite I2. }
  assert (A3 : getattr ns "storage_backend_mappings" = Ok (list_or_none backends)).
  { unfold getattr. now rewrite I3. }
  repeat (split; [assumption |]).
  unfold get_storage_mappings_dict_from_args. rewrite A1, A2, A3. simpl.
  destruct (truthy (last_or_none (values_of "--default-storage-backend" given))),
    (truthy (list_or_none disks)), (truthy (list_or_none backends)); reflexivity.
Qed.

Lemma split_arg_raises (arg : string) :
  Str.count "=" arg <> 1 ->
  exists msg,
    _split_disk_arg arg = Raise (ValueError msg)
    /\ _split_backend_arg arg = Raise (ValueError msg).
Proof.
  intros C. destruct (unpack2_length (Str.split "=" arg)) as [msg U].
  { rewrite split_length. lia. }
  exists msg. unfold _split_disk_arg, _split_backend_arg. now rewrite U.
Qed.


End StorageOptions.

(** The theorem on the command line [--disk-storage-mapping a=b
    --default-storage-backend lvm --disk-storage-mapping 'c'=d], for the
    parser that has the three options only. *)
Lemma storage_options_parsed_witness :
  exists p' ns,
    add_storage_mappings_arguments_to_parser Argparse.empty = Done p'
    /\ parse_args example_fs p'
         ["--disk-storage-mapping"; "a=b"; "--default-storage-backend"; "lvm";
          "--disk-storage-mapping"; "'c'=d"] = Done ns
    /\ get_storage_mappings_dict_from_args ns
       = Ok [("default", Val (PStr "lvm"));
             ("disk_mappings",
              Val (PList [PDict [("disk_id", PStr "a"); ("destination", PStr "b")];
                          PDict [("disk_id", PStr "c"); ("destination", PStr "d")]]))].
Proof.
  eexists.
  destruct (storage_options_parsed example_fs Argparse.empty _ eq_refl
              [("--disk-storage-mapping", "a=b");
               ("--default-storage-backend", "lvm");
               ("--disk-storage-mapping", "'c'=d")]
              [PDict [("disk_id", PStr "a"); ("destination", PStr "b")];
               PDict [("disk_id", PStr "c"); ("destination", PStr "d")]]
              [])
    as [ns [P [_ [_ [_ G]]]]].
  - unfold storage_options_given.
    repeat (constructor; [split; [simpl; tauto | reflexivity] |]). constructor.
  - repeat constructor.
  - constructor.
  - exists ns. split; [reflexivity |]. split; [exact P | exact G].
Defined.


Lemma replace_char_app (a b : ascii) (s t : string) :
  Str.replace (String a "") (String b "") (s ++ t)
  = Str.replace (String a "") (String b "") s
    ++ Str.replace (String a "") (String b "") t.
Proof.
  induction s as [| c s IH]; [reflexivity |].
  simpl append. now rewrite !replace_char, IH.
Qed.

Lemma append_longer (s t : string) : t <> "" -> String.eqb s (s ++ t) = false.
Proof.
  intros N. apply String.eqb_neq. intros E.
  assert (L : String.length s = String.length (s ++ t)) by now rewrite <- E.
  rewrite length_app in L. destruct t; [now elim N | simpl in L; lia].
Qed.

(** The option string [--name] gives the attribute [name], hyphens turned
    into underscores, when the name does not start with a hyphen or an
    underscore. *)
Lemma dest_of_option (option_name suffix : string) :
  Str.outside "-_" (Str.first option_name) = true ->
  option_name <> "" ->
  let flag := "--" ++ Str.replace "_" "-" option_name ++ suffix in
  Str.lstrip "-" flag = Str.replace "_" "-" option_name ++ suffix
  /\ Str.lstrip "-" flag <> ""
  /\ Str.replace "-" "_" (Str.lstrip "-" flag)
     = Str.replace "-" "_" option_name ++ Str.replace "-" "_" suffix.
Proof.
  intros P N flag.
  destruct option_name as [| c rest]; [now elim N |].
  assert (L : Str.lstrip "-" flag = Str.replace "_" "-" (String c rest) ++ suffix).
  { unfold flag. rewrite replace_char. simpl in P.
    assert (C : Ascii.eqb c "_" = false /\ Ascii.eqb c "-" = false).
    { revert P. clear. by_chars c; intros _; split; reflexivity. }
    destruct C as [C1 C2]. rewrite C1.
    change (Str.lstrip "-" ("--" ++ String c (Str.replace "_" "-" rest) ++ suffix))
      with (if Str.mem c "-"
            then Str.lstrip "-" (Str.replace "_" "-" rest ++ suffix)
            else String c (Str.replace "_" "-" rest ++ suffix)).
    unfold Str.mem. simpl. now rewrite C2. }
  rewrite L. split; [reflexivity |]. split.
  - rewrite replace_char. discriminate.
  - rewrite replace_char_app.
    now destruct (replace_hyphen_underscore (String c rest)) as [-> _].
Qed.

Section JsonOption.

Variable fs : filesystem.
Variable json_loads : string -> result pyval.
Variables p p' : Argparse.parser.
Variable option_name : string.
Hypothesis registered : add_args_for_json_option_to_parser p option_name = Done p'.
Hypothesis well_formed : parser_wf p = true.
Hypothesis plain : Str.outside "-_" (Str.first option_name) = true.

(** The option strings and the attributes of the two options. *)
Let flag : string := "--" ++ Str.replace "_" "-" option_name.
Let flag_file : string := "--" ++ Str.replace "_" "-" option_name ++ "-file".
Let attr : string := Str.replace "-" "_" option_name.

Lemma json_option_named : option_name <> "".
Proof.
  intros E. pose proof registered as R. rewrite E in R. discriminate R.
Qed.

Lemma json_option_registered :
  exists a1 a2,
    actions p' = (actions p ++ [a1; a2])%list
    /\ Argparse.lookup p' flag = Some a1
    /\ Argparse.lookup p' flag_file = Some a2
    /\ String.eqb flag flag_file = false
    /\ (option_string a1 = flag /\ dest a1 = attr /\ kind a1 = Store
        /\ type_func a1 = TypeStr /\ group a1 = Some (groups p))
    /\ (option_string a2 = flag_file /\ dest a2 = attr ++ "_file"
        /\ kind a2 = Store /\ type_func a2 = TypeFileR
        /\ group a2 = Some (groups p)).
Proof.
  pose proof registered as R.
  destruct (dest_of_option option_name "" plain json_option_named) as [_ [_ D1]].
  destruct (dest_of_option option_name "-file" plain json_option_named) as [_ [_ D2]].
  cbv zeta in D1, D2.
  unfold add_args_for_json_option_to_parser in R. cbv zeta in R.
  unfold add_mutually_exclusive_group in R.
  destruct (add_argument _ (Some (groups p)) ("--" ++ Str.replace "_" "-" option_name)
                         None Store TypeStr _) as [p1 |] eqn:E1; [| discriminate].
  rewrite and_then_Done in R.
  destruct (add_argument_Done _ _ _ _ _ _ _ _ E1) as [d1 [-> [L1 [_ [_ ->]]]]].
  destruct (add_argument_Done _ _ _ _ _ _ _ _ R) as [d2 [-> [L2 [_ [_ ->]]]]].
  assert (A0 : forall s : string, s ++ "" = s)
    by (induction s as [| c s IH]; [reflexivity | simpl; now rewrite IH]).
  rewrite !A0 in D1. change (Str.replace "-" "_" "-file") with "_file" in D2.
  change (Argparse.lookup {| actions := actions p; groups := S (groups p) |} ?f)
    with (Argparse.lookup p f) in L1.
  rewrite lookup_added in L2. cbn [option_string] in L2.
  change (Argparse.lookup {| actions := actions p; groups := S (groups p) |} ?f)
    with (Argparse.lookup p f) in L2.
  fold flag in L1, L2, D1 |- *. fold flag_file in L2, D2 |- *. fold attr in D1, D2.
  rewrite D1, D2.
  destruct (Argparse.lookup p flag_file) eqn:N2; [discriminate |].
  destruct (String.eqb flag flag_file) eqn:N; [discriminate |].
  eexists _, _. split.
  { cbn [actions]. rewrite <- app_assoc. reflexivity. }
  rewrite !lookup_added. cbn [option_string].
  change (Argparse.lookup {| actions := actions p; groups := S (groups p) |} ?f)
    with (Argparse.lookup p f).
  rewrite L1, N2, N, !String.eqb_refl.
  repeat split; reflexivity.
Qed.

Lemma no_group_member (q : action -> bool) :
  filter (fun b => match group b with
                   | Some g' => Nat.eqb g' (groups p) && q b
                   | None => false
                   end) (actions p) = [].
Proof.
  pose proof well_formed as W. unfold parser_wf in W.
  induction (actions p) as [| b l IH]; [reflexivity |].
  simpl in W. apply andb_true_iff in W as [W1 W2].
  simpl. rewrite (IH W2). destruct (group b) as [g' |]; [| reflexivity].
  apply Nat.ltb_lt in W1.
  replace (Nat.eqb g' (groups p)) with false; [reflexivity |].
  symmetry. apply Nat.eqb_neq. lia.
Qed.

(** How the two options behave in [parse_args]. *)
Lemma json_option_actions :
  exists a1 a2,
    Argparse.lookup p' flag = Some a1
    /\ Argparse.lookup p' flag_file = Some a2
    /\ recognised p' flag = true
    /\ recognised p' flag_file = true
    /\ Dict.get attr (defaults p') = Some (Val PNone)
    /\ Dict.get (attr ++ "_file") (defaults p') = Some (Val PNone)
    /\ (forall ns seen text,
          Str.in_list flag_file seen = false ->
          take_action fs p' (ns, seen) a1 text
          = Done (Dict.set attr (Val (PStr text)) ns, flag :: seen))
    /\ (forall ns seen path,
          starts_with_dash path = false ->
          take_action fs p' (ns, seen) a2 path
          = match fs path with
            | None => Failed (CannotOpen flag_file path)
            | Some text =>
                if Str.in_list flag seen
                then Failed (NotAllowedWith flag_file flag)
                else Done (Dict.set (attr ++ "_file") (File text) ns,
                           flag_file :: seen)
            end)
    /\ (forall ns seen text,
          Str.in_list flag_file seen = true ->
          take_action fs p' (ns, seen) a1 text
          = Failed (NotAllowedWith flag flag_file)).
Proof.
  destruct json_option_registered
    as [a1 [a2 [A [L1 [L2 [N [[O1 [D1 [K1 [T1 G1]]]] [O2 [D2 [K2 [T2 G2]]]]]]]]]]].
  assert (N' : String.eqb flag_file flag = false) by now rewrite String.eqb_sym.
  assert (C1 : conflicts p' a1 = [a2]).
  { unfold conflicts. rewrite G1, A, filter_app.
    rewrite (no_group_member
               (fun b => negb (String.eqb (option_string b) (option_string a1)))).
    cbn [filter app]. rewrite G1, G2, O1, O2, Nat.eqb_refl, String.eqb_refl, N'.
    reflexivity. }
  assert (C2 : conflicts p' a2 = [a1]).
  { unfold conflicts. rewrite G2, A, filter_app.
    rewrite (no_group_member
               (fun b => negb (String.eqb (option_string b) (option_string a2)))).
    cbn [filter app]. rewrite G1, G2, O1, O2, Nat.eqb_refl, String.eqb_refl, N.
    reflexivity. }
  assert (E : String.eqb flag "--" = false /\ String.eqb flag_file "--" = false).
  { pose proof json_option_named as Nm. unfold flag, flag_file.
    destruct option_name as [| c rest]; [now elim Nm |].
    rewrite replace_char. split; reflexivity. }
  destruct E as [E1 E2].
  exists a1, a2. split; [exact L1 |]. split; [exact L2 |].
  split.
  { unfold recognised. rewrite L1, E1. apply orb_true_r. }
  split.
  { unfold recognised. rewrite L2, E2. apply orb_true_r. }
  split.
  { rewrite defaults_get, A, existsb_app. cbn [existsb]. rewrite D1, String.eqb_refl.
    now rewrite orb_true_r. }
  split.
  { rewrite defaults_get, A, existsb_app. cbn [existsb]. rewrite D2, String.eqb_refl.
    now rewrite !orb_true_r. }
  split.
  { intros ns seen text S. unfold take_action, get_value.
    rewrite T1, C1, K1, D1, O1. cbn [find and_then]. now rewrite O2, S. }
  split.
  { intros ns seen path S. unfold take_action, get_value.
    rewrite T2, C2, K2, D2, O2.
    replace (String.eqb path "-") with false
      by (destruct path as [| c s]; [reflexivity | revert S; clear; by_chars c]).
    destruct (fs path) as [text |]; [| reflexivity].
    cbn [find and_then]. rewrite O1.
    destruct (Str.in_list flag seen); [now rewrite O1 | reflexivity]. }
  intros ns seen text S. unfold take_action, get_value.
  rewrite T1, C1, O1. cbn [find and_then]. rewrite O2, S. now rewrite O2.
Qed.


End JsonOption.


Lemma lstrip_hyphens (option_name : string) :
  Str.all (fun c => Str.mem c "-_") option_name = true ->
  Str.lstrip "-" (Str.replace "_" "-" option_name) = "".
Proof.
  induction option_name as [| c rest IH]; [reflexivity |].
  simpl Str.all. intros A. apply andb_true_iff in A as [A1 A2].
  rewrite replace_char.
  assert (C : (if Ascii.eqb c "_" then "-"%char else c) = "-"%char).
  { revert A1. clear. by_chars c. }
  rewrite C. simpl. now apply IH.
Qed.

(** X14. Neither function can be applied twice to one parser: the second
    call of [add_storage_mappings_arguments_to_parser] raises the
    [ArgumentError] of a conflicting option string, and so does a second
    call of [add_args_for_json_option_to_parser] for a name that is the
    same up to hyphens and underscores.  A name made of hyphens and
    underscores only, the empty name among them, raises the [ValueError]
    that asks for a [dest]. *)
Theorem registration_conflicts :
  (forall p p',
      add_storage_mappings_arguments_to_parser p = Done p' ->
      add_storage_mappings_arguments_to_parser p'
      = Failed (Conflicting "--default-storage-backend"))
  /\ (forall p p' option_name option_name',
         add_args_for_json_option_to_parser p option_name = Done p' ->
         Str.replace "_" "-" option_name' = Str.replace "_" "-" option_name ->
         add_args_for_json_option_to_parser p' option_name'
         = Failed (Conflicting ("--" ++ Str.replace "_" "-" option_name)))
  /\ (forall p option_name,
         Str.all (fun c => Str.mem c "-_") option_name = true ->
         add_args_for_json_option_to_parser p option_name
         = Failed (DestRequired ("--" ++ Str.replace "_" "-" option_name))).
Proof.
  split; [| split].
  - intros p p' R.
    destruct (storage_options_registered p p' R) as [a1 [a2 [a3 [_ [L1 _]]]]].
    unfold add_storage_mappings_arguments_to_parser, add_argument.
    cbn [starts_with_dash negb and_then]. now rewrite L1.
  - intros p p' option_name option_name' R E.
    unfold add_args_for_json_option_to_parser in *. cbv zeta in *.
    unfold add_mutually_exclusive_group in *. rewrite E.
    destruct (add_argument _ (Some (groups p)) ("--" ++ Str.replace "_" "-" option_name)
                           None Store TypeStr _) as [p1 |] eqn:E1; [| discriminate].
    rewrite and_then_Done in R.
    destruct (add_argument_Done _ _ _ _ _ _ _ _ E1) as [d1 [-> [L1 [_ [N1 _]]]]].
    destruct (add_argument_Done _ _ _ _ _ _ _ _ R) as [d2 [-> [L2 _]]].
    unfold add_argument at 1. cbn [starts_with_dash append negb].
    apply String.eqb_neq in N1. cbn [append] in N1. rewrite N1.
    cbn [and_then].
    match goal with
    | |- context [Argparse.lookup ?q ?f] =>
        assert (L : exists a, Argparse.lookup q f = Some a)
    end.
    { unfold Argparse.lookup in *. cbn [actions append] in *.
      rewrite !find_app_string, L1. cbn [find option_string append].
      rewrite String.eqb_refl. now eexists. }
    destruct L as [a L]. cbn [append] in L. now rewrite L.
  - intros p option_name A.
    unfold add_args_for_json_option_to_parser. cbv zeta.
    unfold add_mutually_exclusive_group, add_argument.
    cbn [starts_with_dash append negb].
    assert (L : Str.lstrip "-" ("--" ++ Str.replace "_" "-" option_name) = "").
    { simpl. now apply lstrip_hyphens. }
    cbn [append] in L. now rewrite L.
Qed.

(** The theorem on the parser that has the three storage options. *)
Lemma registration_conflicts_witness :
  exists p',
    add_storage_mappings_arguments_to_parser Argparse.empty = Done p'
    /\ add_storage_mappings_arguments_to_parser p'
       = Failed (Conflicting "--default-storage-backend").
Proof.
  eexists. split; [reflexivity |].
  exact (proj1 registration_conflicts Argparse.empty _ eq_refl).
Defined.

(** X15. [get_option_value_from_args] reads the two attributes of the
    option before it looks at either: an args object without the
    raw-value attribute raises [AttributeError] with its name, and one
    with it and without the file attribute raises [AttributeError] with
    the name of the file attribute, even when the raw-value attribute
    holds a text. *)
Theorem get_option_value_from_args_missing_attribute
        (json_loads : string -> result pyval) (args : Namespace pyobj)
        (option_name : string) (error_on_no_value : bool) :
  (Dict.get (Str.replace "-" "_" option_name) args = None ->
   get_option_value_from_args json_loads args option_name error_on_no_value
   = Raise (AttributeError (Str.replace "-" "_" option_name)))
  /\ (Dict.get (Str.replace "-" "_" option_name) args <> None ->
      Dict.get (Str.replace "-" "_" option_name ++ "_file") args = None ->
      get_option_value_from_args json_loads args option_name error_on_no_value
      = Raise (AttributeError (Str.replace "-" "_" option_name ++ "_file"))).
Proof.
  unfold get_option_value_from_args, getattr. cbv zeta. split.
  - intros E. now rewrite E.
  - intros N E.
    destruct (Dict.get (Str.replace "-" "_" option_name) args); [| now elim N].
    now rewrite bind_Ok, E.
Qed.

(** The theorem on an args object that has the raw-value attribute only. *)
Lemma get_option_value_from_args_missing_attribute_witness :
  get_option_value_from_args Json.loads
    [("destination_environment", Val (PStr "[1]"))]
    "destination-environment" true
  = Raise (AttributeError "destination_environment_file").
Proof.
  apply (proj2 (get_option_value_from_args_missing_attribute Json.loads
                  [("destination_environment", Val (PStr "[1]"))]
                  "destination-environment" true)).
  - discriminate.
  - reflexivity.
Defined.

(** The attribute named after an option string does not start with an
    underscore when the option string holds none. *)
Lemma dest_first_char (flag : string) :
  Str.all (fun c => negb (Ascii.eqb c "_")) flag = true ->
  Str.lstrip "-" flag <> "" ->
  Str.first (Str.replace "-" "_" (Str.lstrip "-" flag)) <> Some "_"%char.
Proof.
  intros A N.
  destruct (lstrip_spec "-" flag) as [pre [E [_ O]]].
  rewrite E, all_app in A. apply andb_true_iff in A as [_ A].
  destruct (Str.lstrip "-" flag) as [| c rest]; [now elim N |].
  simpl in A, O. apply andb_true_iff in A as [A _].
  rewrite replace_char. simpl. revert A O. clear. unfold Str.mem. simpl.
  by_chars c.
Qed.

Lemma kebab_no_underscore (option_name : string) :
  Str.all (fun c => negb (Ascii.eqb c "_")) (Str.replace "_" "-" option_name) = true.
Proof.
  induction option_name as [| c rest IH]; [reflexivity |].
  rewrite replace_char. simpl. rewrite IH.
  destruct (Ascii.eqb c "_") eqn:E; [reflexivity | now rewrite E].
Qed.

(** X16. The condition on the option name is needed.  For a name that
    starts with a hyphen or an underscore, the options that
    [add_args_for_json_option_to_parser] registers on a parser without
    options store under attributes named without that start, so
    [get_option_value_from_args], which keeps it, raises [AttributeError]
    on the namespace [parse_args] returns. *)
Theorem json_option_leading_separator
        (fs : filesystem) (json_loads : string -> result pyval)
        (p' : Argparse.parser) (option_name : string) (error_on_no_value : bool) :
  add_args_for_json_option_to_parser Argparse.empty option_name = Done p' ->
  Str.outside "-_" (Str.first option_name) = false ->
  parse_args fs p' [] = Done (defaults p')
  /\ get_option_value_from_args json_loads (defaults p') option_name
                                error_on_no_value
     = Raise (AttributeError (Str.replace "-" "_" option_name)).
Proof.
  intros R P. split; [reflexivity |].
  assert (F : Str.first (Str.replace "-" "_" option_name) = Some "_"%char).
  { destruct option_name as [| c rest]; [discriminate |].
    rewrite replace_char. simpl in *. revert P. clear. unfold Str.mem. simpl.
    by_chars c. }
  unfold add_args_for_json_option_to_parser in R. cbv zeta in R.
  unfold add_mutually_exclusive_group in R.
  destruct (add_argument _ (Some (groups Argparse.empty))
                         ("--" ++ Str.replace "_" "-" option_name)
                         None Store TypeStr _) as [p1 |] eqn:E1; [| discriminate].
  rewrite and_then_Done in R.
  destruct (add_argument_Done _ _ _ _ _ _ _ _ E1) as [d1 [-> [_ [_ [N1 ->]]]]].
  destruct (add_argument_Done _ _ _ _ _ _ _ _ R) as [d2 [-> [_ [_ [N2 ->]]]]].
  pose proof (kebab_no_underscore option_name) as K.
  assert (D1 : String.eqb (Str.replace "-" "_"
                             (Str.lstrip "-" ("--" ++ Str.replace "_" "-" option_name)))
                          (Str.replace "-" "_" option_name) = false).
  { apply String.eqb_neq. intros E.
    apply (dest_first_char ("--" ++ Str.replace "_" "-" option_name)); [| exact N1 |].
    - simpl. exact K.
    - now rewrite E. }
  assert (D2 : String.eqb (Str.replace "-" "_"
                             (Str.lstrip "-" ("--" ++ Str.replace "_" "-" option_name
                                                   ++ "-file")))
                          (Str.replace "-" "_" option_name) = false).
  { apply String.eqb_neq. intros E.
    apply (dest_first_char ("--" ++ Str.replace "_" "-" option_name ++ "-file"));
      [| exact N2 |].
    - simpl. rewrite all_app, K. reflexivity.
    - now rewrite E. }
  unfold get_option_value_from_args, getattr. cbv zeta.
  rewrite defaults_get. cbn [actions Argparse.empty app existsb dest].
  now rewrite D1, D2.
Qed.

(** The theorem on the option name [_private]. *)
Lemma json_option_leading_separator_witness :
  exists p',
    add_args_for_json_option_to_parser Argparse.empty "_private" = Done p'
    /\ Argparse.lookup p' "---private" <> None
    /\ get_option_value_from_args Json.loads (defaults p') "_private" true
       = Raise (AttributeError "_private").
Proof.
  eexists. split; [reflexivity |]. split; [discriminate |].
  exact (proj2 (json_option_leading_separator example_fs Json.loads _ "_private"
                  true eq_refl eq_refl)).
Defined.
